(** * ejdb-node: the JavaScript binding [ejdb.js] over the native EJDB engine

    A shallow embedding of the wrapper functions of [src/ejdb.js]
    ([EJDB.isValidOID], [dropCollection], [removeCollection], [save],
    [parseQueryArgs], [find], [findOne], [update], [count], and further
    [EJDB.open], [ensureCollection], [command], the export of the
    constants, and the functions that pass their arguments to one native
    method: [close], [isOpen], [load], [remove], [sync], the index
    functions, [getDBMeta] and the transaction functions) over an explicit
    JavaScript store, together with the statements the specification makes
    about them and further properties of the code.

    [ejdb.js] is sloppy-mode code: an assignment to a property that an
    object refuses (a frozen or non-extensible object, a read-only
    property) does nothing and throws nothing.  The store records for each
    object whether it is extensible and which names are read-only.

    The native object [this._impl] is not part of [ejdb.js]; its storage
    engine is kept abstract (class [Engine]) and its calling convention is
    modelled from the specification where a statement needs it. *)

From Stdlib Require Import ZArith Ascii String List Lia.
From stdpp Require Import base decidable option list gmap strings pretty fin_maps.

Local Open Scope string_scope.
Local Open Scope Z_scope.

(** ** JavaScript values *)

(** Numbers.  The wrapper only compares, stamps and forwards integral
    constants ([0x30], [1], [0], [JBQRYCOUNT], counts), so numbers are
    integers together with [NaN], the outcome of a failed [ToNumber]. *)
Inductive number : Type :=
| NaN
| Int (z : Z).

(** The three kinds of heap references the wrapper tells apart:
    [Array.isArray] holds of [KArr], [typeof] is ["function"] on [KFun] and
    ["object"] on the other two.  The kind of a reference never changes. *)
Inductive kind : Type := KObj | KArr | KFun.

Abbreviation loc := nat.

(** [VErr name message] is an [Error] instance, identified by its
    [name] and [message] (what the specification calls kind and message);
    the properties a program stores on it are kept in the store, under that
    identity. *)
Inductive value : Type :=
| VUndef
| VNull
| VBool (b : bool)
| VNum (n : number)
| VStr (s : string)
| VErr (name message : string)
| VRef (k : kind) (l : loc).

#[global] Instance number_eq_dec : EqDecision number.
Proof. solve_decision. Defined.
#[global] Instance kind_eq_dec : EqDecision kind.
Proof. solve_decision. Defined.
#[global] Instance value_eq_dec : EqDecision value.
Proof. solve_decision. Defined.

(** [typeof v] *)
Definition typeof (v : value) : string :=
  match v with
  | VUndef => "undefined"
  | VNull => "object"
  | VBool _ => "boolean"
  | VNum _ => "number"
  | VStr _ => "string"
  | VErr _ _ => "object"
  | VRef KFun _ => "function"
  | VRef _ _ => "object"
  end.

(** [Array.isArray(v)] *)
Definition isArray (v : value) : bool :=
  match v with VRef KArr _ => true | _ => false end.

(** ToBoolean: [undefined], [null], [false], [0], [NaN] and [""] are falsy. *)
Definition truthy (v : value) : bool :=
  match v with
  | VUndef | VNull => false
  | VBool b => b
  | VNum NaN => false
  | VNum (Int z) => negb (z =? 0)
  | VStr s => negb (String.eqb s "")
  | VErr _ _ | VRef _ _ => true
  end.

(** [a === b]: identity on references, value equality on primitives,
    except that [NaN] is not equal to itself. *)
Definition strict_eq (a b : value) : bool :=
  match a, b with
  | VNum NaN, _ | _, VNum NaN => false
  | _, _ => bool_decide (a = b)
  end.

(** [v == null]: true exactly of [null] and [undefined]. *)
Definition loose_null (v : value) : bool :=
  match v with VUndef | VNull => true | _ => false end.

(** [a || b] on already evaluated operands. *)
Definition js_or (a b : value) : value := if truthy a then a else b.

(** [args[i]] on an [arguments] object or a plain list of actuals. *)
Definition arg (args : list value) (i : nat) : value := nth i args VUndef.

(** ** [EJDB.isValidOID] *)

(** ToNumber of a string of length one.  StringToNumber strips white space
    and line terminators and reads a numeric literal: a decimal digit is its
    value, a white-space unit is the empty literal [0], anything else is
    [NaN].  Units are the code units below 256. *)
Definition is_js_space (c : ascii) : bool :=
  let n := nat_of_ascii c in
  ((9 <=? n) && (n <=? 13))%nat || (n =? 32)%nat || (n =? 160)%nat.

Definition char_to_number (c : ascii) : number :=
  let n := Z.of_nat (nat_of_ascii c) in
  if (48 <=? n) && (n <=? 57) then Int (n - 48)
  else if is_js_space c then Int 0
  else NaN.

(** [oid[i]] for a string [oid]: a string of length one, or [undefined]. *)
Definition str_index (s : string) (i : nat) : option ascii := String.get i s.

(** ToNumber of [oid[i]]; [undefined] converts to [NaN]. *)
Definition index_to_number (c : option ascii) : number :=
  match c with
  | Some a => char_to_number a
  | None => NaN
  end.

(** [x >= k] and [x <= k] where [x] is [oid[i]] and [k] a number literal:
    the operands are not both strings, so both are converted with ToNumber,
    and any comparison with [NaN] is false. *)
Definition ge_num (x : number) (k : Z) : bool :=
  match x with NaN => false | Int z => k <=? z end.
Definition le_num (x : number) (k : Z) : bool :=
  match x with NaN => false | Int z => z <=? k end.

(** The loop condition of [isValidOID] at index [i]. *)
Definition oid_loop_cond (oid : string) (i : nat) : bool :=
  let x := index_to_number (str_index oid i) in
  (ge_num x 0x30 && le_num x 0x39) || (ge_num x 0x61 && le_num x 0x66).

(** [for (; cond(i); ++i);] — the final value of [i], or [None] when
    [fuel] iterations were not enough. *)
Fixpoint oid_loop (oid : string) (i : nat) (fuel : nat) : option nat :=
  match fuel with
  | O => None
  | S fuel' =>
      if oid_loop_cond oid i then oid_loop oid (S i) fuel' else Some i
  end.

(** The condition is false past the end of the string, so
    [length oid + 1] tests always suffice. *)
Definition isValidOID (oid : value) : option bool :=
  match oid with
  | VStr s =>
      if negb (String.length s =? 24)%nat then Some false
      else
        match oid_loop s 0 (S (String.length s)) with
        | Some i => Some (i =? 24)%nat
        | None => None
        end
  | _ => Some false
  end.

(** What the documentation asks of an OID string: 24 characters, each a
    lowercase hexadecimal digit.  Written from the specification's words,
    for comparison with [isValidOID]. *)
Definition is_lower_hex (c : ascii) : bool :=
  let n := nat_of_ascii c in
  ((48 <=? n) && (n <=? 57))%nat || ((97 <=? n) && (n <=? 102))%nat.

Definition spec_isValidOID (oid : value) : bool :=
  match oid with
  | VStr s =>
      (String.length s =? 24)%nat && forallb is_lower_hex (list_ascii_of_string s)
  | _ => false
  end.

(** ** The JavaScript store *)

(** A heap object: its named properties and, for an array, its elements,
    whether it is extensible ([Object.preventExtensions], [Object.seal] and
    [Object.freeze] make it not), and the names whose assignment it refuses
    (non-writable properties, as all properties of a frozen object are).
    Plain data objects only (no accessors, no prototype entries for the
    names the wrapper uses). *)
Record cell : Type := MkCell {
  c_props : gmap string value;
  c_elems : list value;
  c_extensible : bool;
  c_readonly : gset string
}.

(** An ordinary object or array: extensible, every property writable. *)
Abbreviation Cell props elems := (MkCell props elems true ∅).

Definition empty_cell : cell := Cell ∅ [].

(** The store: the objects, arrays and functions by location, and what
    has been stored on [Error] instances, by name and message. *)
Record heap : Type := Heap {
  h_objects : gmap loc cell;
  h_errors : gmap (string * string) cell
}.

#[global] Instance heap_lookup : Lookup loc cell heap :=
  fun l h => h_objects h !! l.
#[global] Instance heap_insert : Insert loc cell heap :=
  fun l c h => Heap (<[l := c]> (h_objects h)) (h_errors h).
#[global] Instance heap_empty : Empty heap := Heap ∅ ∅.
#[global] Instance heap_dom : Dom heap (gset loc) :=
  fun h => dom (h_objects h).

Definition cell_at (h : heap) (l : loc) : cell := default empty_cell (h !! l).

Definition cell_set (name : string) (x : value) (c : cell) : cell :=
  MkCell (<[name := x]> (c_props c)) (c_elems c) (c_extensible c) (c_readonly c).

(** Whether the assignment [o[name] = x] takes effect on the object [c]:
    not on a read-only name, and not on a name the object lacks when it is
    not extensible.  [ejdb.js] is sloppy-mode code, so a refused assignment
    does nothing and throws nothing. *)
Definition can_write (c : cell) (name : string) : bool :=
  negb (bool_decide (name ∈ c_readonly c))
  && (bool_decide (is_Some (c_props c !! name)) || c_extensible c).

(** The own properties and the attributes of the [Error] instance with
    name [n] and message [m]: what was stored on it, and its [message]. *)
Definition error_cell (h : heap) (n m : string) : cell :=
  let c := default empty_cell (h_errors h !! (n, m)) in
  MkCell (c_props c ∪ {["message" := VStr m]}) [] (c_extensible c) (c_readonly c).

Definition error_insert (n m : string) (c : cell) (h : heap) : heap :=
  Heap (h_objects h) (<[(n, m) := c]> (h_errors h)).

(** A stored record as the engine hands it back (a document tree). *)
#[warnings="-register-all"]
Inductive json : Type :=
| JNull
| JBool (b : bool)
| JNum (z : Z)
| JStr (s : string)
| JArr (items : list json)
| JObj (fields : list (string * json)).

(** Native state behind a cursor object: the matched records, how many
    [next()] calls succeeded, and whether [close()] was called. *)
Record cursor : Type := Cursor {
  cu_records : list json;
  cu_pos : nat;
  cu_closed : bool
}.

(** What a call into [this._impl] was given in its callback position. *)
Inductive cb_desc : Type :=
| DVal (v : value)       (* a value of the caller, passed through as is *)
| DNoop                  (* the wrapper's own [function() {}] *)
| DWrap.                 (* a closure the wrapper built around the caller's cb *)

(** Observable steps of a wrapper call, in program order. *)
Inductive event : Type :=
| EvImpl (method : string) (args : list value) (cb : cb_desc)
| EvCall (f : loc) (args : list value)
| EvCursor (method : string) (c : loc)
| EvUncaught (e : value).

(** A failure reported by the engine: error kind and message. *)
Record failure : Type := Failure { f_name : string; f_message : string }.

Definition err_value (f : failure) : value := VErr (f_name f) (f_message f).

(** Outcome of a query inside the engine. *)
Record qresult : Type := QResult {
  qr_records : list json;
  qr_count : Z;
  qr_log : value
}.

(** The storage engine and the host program, both outside [ejdb.js]:
    - the engine reads the store and answers with a failure or a result
      (it does not write to JavaScript objects of the caller);
    - [JBQRYCOUNT] is the constant [ejdblib.JBQRYCOUNT];
    - [user_fn f args] tells whether the caller's function [f] throws
      when applied to [args] ([Some e]) or returns ([None]); what the body
      of that function does to the store is the caller's doing, not the
      wrapper's, and is left out. *)
Class Engine : Type := {
  eng_state : Type;
  JBQRYCOUNT : Z;
  eng_removeCollection : eng_state -> heap -> list value -> eng_state * option failure;
  eng_save : eng_state -> heap -> list value -> eng_state * (failure + list value);
  eng_query : eng_state -> heap -> list value -> eng_state * (failure + qresult);
  user_fn : loc -> list value -> option value
}.

Record state `{Engine} : Type := State {
  st_heap : heap;
  st_cursors : gmap loc cursor;
  st_engine : eng_state;
  st_trace : list event
}.

(** ** A state-and-exception monad for wrapper code *)

Inductive outcome (A : Type) : Type :=
| Ok (a : A)
| Throw (e : value).
Arguments Ok {A} a.
Arguments Throw {A} e.

Definition M `{Engine} (A : Type) : Type := state -> outcome A * state.

Definition ret `{Engine} {A} (a : A) : M A := fun s => (Ok a, s).

Definition throw `{Engine} {A} (e : value) : M A := fun s => (Throw e, s).

Definition bind `{Engine} {A B} (m : M A) (f : A -> M B) : M B :=
  fun s =>
    match m s with
    | (Ok a, s') => f a s'
    | (Throw e, s') => (Throw e, s')
    end.

Declare Scope js_scope.
Delimit Scope js_scope with js.
Notation "x <- m ;; k" := (bind m (fun x => k))
  (at level 100, m at next level, right associativity) : js_scope.
Notation "m ;;; k" := (bind m (fun _ => k))
  (at level 100, right associativity) : js_scope.
Local Open Scope js_scope.

(** [try { body } finally { fin }] *)
Definition try_finally `{Engine} {A} (body : M A) (fin : M unit) : M A :=
  fun s =>
    let '(r, s1) := body s in
    match fin s1 with
    | (Ok _, s2) => (r, s2)
    | (Throw e, s2) => (Throw e, s2)
    end.

Definition get_heap `{Engine} : M heap := fun s => (Ok (st_heap s), s).

Definition set_heap `{Engine} (h : heap) : M unit :=
  fun s => (Ok tt, {| st_heap := h; st_cursors := st_cursors s;
                      st_engine := st_engine s; st_trace := st_trace s |}).

Definition log `{Engine} (ev : event) : M unit :=
  fun s => (Ok tt, {| st_heap := st_heap s; st_cursors := st_cursors s;
                      st_engine := st_engine s; st_trace := st_trace s ++ [ev] |}).

Definition type_error `{Engine} {A} (msg : string) : M A := throw (VErr "TypeError" msg).

(** ** Objects, arrays, property access *)

Definition heap_alloc (c : cell) (h : heap) : loc * heap :=
  let l := fresh (dom h) in (l, <[l := c]> h).
Arguments heap_alloc : simpl never.

(** An object or array literal: a new cell at an unused location. *)
Definition alloc `{Engine} (k : kind) (c : cell) : M value :=
  h <- get_heap ;;
  let '(l, h') := heap_alloc c h in
  set_heap h' ;;; ret (VRef k l).

Definition new_object `{Engine} : M value := alloc KObj empty_cell.
Definition new_array `{Engine} (elems : list value) : M value := alloc KArr (Cell ∅ elems).

(** [v[name]] for a property name that is not an array index. *)
Definition heap_get_prop (h : heap) (v : value) (name : string) : option value :=
  match v with
  | VUndef | VNull => None
  | VRef _ l => Some (default VUndef (c_props (cell_at h l) !! name))
  | VErr n m =>
      Some (default (if String.eqb name "name" then VStr n else VUndef)
              (c_props (error_cell h n m) !! name))
  | _ => Some VUndef
  end.

Definition get_prop `{Engine} (v : value) (name : string) : M value :=
  h <- get_heap ;;
  match heap_get_prop h v name with
  | Some x => ret x
  | None => type_error "Cannot read property of undefined or null"
  end.

(** [v[name] = x] in sloppy mode: stored on an object or an [Error]
    instance that takes the assignment ([can_write]), without effect on one
    that refuses it and on a primitive, a TypeError on [undefined] and
    [null]. *)
Definition heap_set_prop (h : heap) (v : value) (name : string) (x : value) : option heap :=
  match v with
  | VUndef | VNull => None
  | VRef _ l =>
      let c := cell_at h l in
      Some (if can_write c name then <[l := cell_set name x c]> h else h)
  | VErr n m =>
      let c := error_cell h n m in
      Some (if can_write c name then error_insert n m (cell_set name x c) h else h)
  | _ => Some h
  end.

Definition set_prop `{Engine} (v : value) (name : string) (x : value) : M unit :=
  h <- get_heap ;;
  match heap_set_prop h v name x with
  | Some h' => set_heap h'
  | None => type_error "Cannot set property of undefined or null"
  end.

(** The elements of an array value. *)
Definition elems_of (h : heap) (v : value) : list value :=
  match v with
  | VRef KArr l => c_elems (cell_at h l)
  | _ => []
  end.

(** [v[i]] for a number [i]. *)
Definition heap_get_index (h : heap) (v : value) (i : nat) : option value :=
  match v with
  | VUndef | VNull => None
  | VRef KArr l => Some (nth i (c_elems (cell_at h l)) VUndef)
  | VRef _ l => Some (default VUndef (c_props (cell_at h l) !! pretty i))
  | VStr s =>
      Some (match String.get i s with
            | Some c => VStr (String c EmptyString)
            | None => VUndef
            end)
  | VErr n m => Some (default VUndef (c_props (error_cell h n m) !! pretty i))
  | _ => Some VUndef
  end.

Definition get_index `{Engine} (v : value) (i : nat) : M value :=
  h <- get_heap ;;
  match heap_get_index h v i with
  | Some x => ret x
  | None => type_error "Cannot read property of undefined or null"
  end.

(** [[first].concat(a, b)]: array arguments are spread, others appended. *)
Definition concat_item (h : heap) (v : value) : list value :=
  if isArray v then elems_of h v else [v].

Definition concat3 `{Engine} (first a b : value) : M value :=
  h <- get_heap ;;
  new_array ([first] ++ concat_item h a ++ concat_item h b).

(** Applying a value of the caller: recorded in the trace; the oracle
    [user_fn] decides whether the function throws. *)
Definition call_value `{Engine} (f : value) (args : list value) : M unit :=
  match f with
  | VRef KFun l =>
      log (EvCall l args) ;;;
      match user_fn l args with
      | Some e => throw e
      | None => ret tt
      end
  | _ => type_error "not a function"
  end.

(** ** The native object [this._impl] *)

(** Modelled from the spec: [Cursor#object()] of the native layer, absent
    from [ejdb.js] ("[object() -> Document] materializes current record"):
    the record is built as new JavaScript objects and arrays. *)
Fixpoint materialize (j : json) (h : heap) {struct j} : value * heap :=
  match j with
  | JNull => (VNull, h)
  | JBool b => (VBool b, h)
  | JNum z => (VNum (Int z), h)
  | JStr s => (VStr s, h)
  | JArr items =>
      let '(vs, h1) :=
        (fix items_of (js : list json) (h : heap) : list value * heap :=
           match js with
           | [] => ([], h)
           | x :: rest =>
               let '(v, h1) := materialize x h in
               let '(vs, h2) := items_of rest h1 in
               (v :: vs, h2)
           end) items h in
      let '(l, h2) := heap_alloc (Cell ∅ vs) h1 in
      (VRef KArr l, h2)
  | JObj fields =>
      let '(ps, h1) :=
        (fix fields_of (fs : list (string * json)) (ps : gmap string value)
             (h : heap) : gmap string value * heap :=
           match fs with
           | [] => (ps, h)
           | (name, x) :: rest =>
               let '(v, h1) := materialize x h in
               fields_of rest (<[name := v]> ps) h1
           end) fields ∅ h in
      let '(l, h2) := heap_alloc (Cell ps []) h1 in
      (VRef KObj l, h2)
  end.

Definition set_cursor `{Engine} (l : loc) (c : cursor) : M unit :=
  fun s => (Ok tt, {| st_heap := st_heap s; st_cursors := <[l := c]> (st_cursors s);
                      st_engine := st_engine s; st_trace := st_trace s |}).

(** The native state behind [v], when [v] is a cursor object. *)
Definition cursor_of `{Engine} (v : value) : M (loc * cursor) :=
  fun s =>
    match v with
    | VRef KObj l =>
        match st_cursors s !! l with
        | Some c => (Ok (l, c), s)
        | None => type_error "not a function" s
        end
    | VUndef | VNull => type_error "Cannot read property of undefined or null" s
    | _ => type_error "not a function" s
    end.

Definition state_error `{Engine} {A} : M A := throw (VErr "StateError" "cursor is closed").

(** Modelled from the spec: the cursor methods of the native layer, absent
    from [ejdb.js] (section 4.4: "[next() -> bool] (advances, false at end)",
    "[object() -> Document]", "[close()] releases underlying resources; any
    operation other than [close()] on a closed cursor fails with
    [StateError]"). *)
Definition cursor_next `{Engine} (v : value) : M value :=
  lc <- cursor_of v ;;
  let '(l, c) := lc in
  log (EvCursor "next" l) ;;;
  if cu_closed c then state_error
  else if (cu_pos c <? length (cu_records c))%nat
       then set_cursor l (Cursor (cu_records c) (S (cu_pos c)) false) ;;; ret (VBool true)
       else ret (VBool false).

Definition cursor_object `{Engine} (v : value) : M value :=
  lc <- cursor_of v ;;
  let '(l, c) := lc in
  log (EvCursor "object" l) ;;;
  if cu_closed c then state_error
  else match cu_pos c with
       | O => ret VNull
       | S i =>
           match nth_error (cu_records c) i with
           | Some j =>
               h <- get_heap ;;
               let '(o, h') := materialize j h in
               set_heap h' ;;; ret o
           | None => ret VNull
           end
       end.

Definition cursor_close `{Engine} (v : value) : M unit :=
  lc <- cursor_of v ;;
  let '(l, c) := lc in
  log (EvCursor "close" l) ;;;
  set_cursor l (Cursor (cu_records c) (cu_pos c) true).

(** A new open cursor over [records]. *)
Definition new_cursor `{Engine} (records : list json) : M value :=
  o <- new_object ;;
  match o with
  | VRef _ l => set_cursor l (Cursor records 0 false) ;;; ret o
  | _ => ret o
  end.

(** What a native method receives in its callback position. *)
Inductive cbarg `{Engine} : Type :=
| CbVal (v : value)
| CbNoop
| CbWrap (k : list value -> M unit).

Definition describe `{Engine} (cb : cbarg) : cb_desc :=
  match cb with
  | CbVal v => DVal v
  | CbNoop => DNoop
  | CbWrap _ => DWrap
  end.

Definition is_async `{Engine} (cb : cbarg) : bool :=
  match cb with
  | CbVal v => String.eqb (typeof v) "function"
  | _ => true
  end.

Definition invoke `{Engine} (cb : cbarg) (args : list value) : M unit :=
  match cb with
  | CbVal v => call_value v args
  | CbNoop => ret tt
  | CbWrap k => k args
  end.

(** Modelled from the spec: the dual calling convention of the native
    layer, absent from [ejdb.js] (section 7: "synchronous-style callers
    receive it as a thrown/raised fault, asynchronous-style callers receive
    it as the first element of a result pair"; section 9: one blocking
    function per operation, the consuming layer delivers the result).  The
    deferred callback runs once the native call has returned, so what it
    throws never reaches the caller of the wrapper. *)
Definition deliver `{Engine} (cb : cbarg) (args : list value) : M unit :=
  fun s =>
    match invoke cb args s with
    | (Ok _, s') => (Ok tt, s')
    | (Throw e, s') => log (EvUncaught e) s'
    end.

Definition run_engine `{Engine} {R}
    (f : eng_state -> heap -> list value -> eng_state * R) (args : list value) : M R :=
  fun s =>
    let '(e', r) := f (st_engine s) (st_heap s) args in
    (Ok r, {| st_heap := st_heap s; st_cursors := st_cursors s;
              st_engine := e'; st_trace := st_trace s |}).

(** Modelled from the spec: [this._impl.removeCollection(cname, prune, cb)],
    absent from [ejdb.js] (section 6: "[removeCollection(handle, name,
    prune)]", an operation without a result). *)
Definition impl_removeCollection `{Engine} (cname prune : value) (cb : cbarg) : M value :=
  log (EvImpl "removeCollection" [cname; prune] (describe cb)) ;;;
  r <- run_engine eng_removeCollection [cname; prune] ;;
  if is_async cb then
    deliver cb [match r with Some f => err_value f | None => VNull end] ;;; ret VUndef
  else
    match r with
    | Some f => throw (err_value f)
    | None => ret VUndef
    end.

(** Modelled from the spec: [this._impl.save(cname, jsarr, opts[, cb])],
    absent from [ejdb.js] (section 6: "[save(handle, collection,
    documents[], options{merge}) -> OIDs[]]"). *)
Definition impl_save `{Engine} (cname jsarr opts : value) (cb : cbarg) : M value :=
  log (EvImpl "save" [cname; jsarr; opts] (describe cb)) ;;;
  r <- run_engine eng_save [cname; jsarr; opts] ;;
  if is_async cb then
    match r with
    | inl f => deliver cb [err_value f]
    | inr oids => arr <- new_array oids ;; deliver cb [VNull; arr]
    end ;;; ret VUndef
  else
    match r with
    | inl f => throw (err_value f)
    | inr oids => new_array oids
    end.

(** The count-only bit of a query's flags argument. *)
Definition count_only `{Engine} (flags : value) : bool :=
  match flags with
  | VNum (Int z) => negb (Z.land z JBQRYCOUNT =? 0)
  | _ => false
  end.

(** Modelled from the spec: [this._impl.query(cname, qlist, flags[, cb])],
    absent from [ejdb.js] (section 6: "[query(handle, collection, [matchDoc,
    ...orBranches, hintsDoc], flags{countOnly}) -> Cursor | count]";
    section 4.3: "[$onlycount] short-circuits document materialization,
    returning only the matched count").  The callback receives
    [(err, cursor, count, log)], the parameters of the closures [ejdb.js]
    passes. *)
Definition impl_query `{Engine} (cname qlist flags : value) (cb : cbarg) : M value :=
  log (EvImpl "query" [cname; qlist; flags] (describe cb)) ;;;
  r <- run_engine eng_query [cname; qlist; flags] ;;
  if is_async cb then
    match r with
    | inl f => deliver cb [err_value f]
    | inr q =>
        if count_only flags then
          deliver cb [VNull; VNull; VNum (Int (qr_count q)); qr_log q]
        else
          c <- new_cursor (qr_records q) ;;
          deliver cb [VNull; c; VNum (Int (qr_count q)); qr_log q]
    end ;;; ret VUndef
  else
    match r with
    | inl f => throw (err_value f)
    | inr q =>
        if count_only flags then ret (VNum (Int (qr_count q)))
        else new_cursor (qr_records q)
    end.

(** ** The wrapper functions of [ejdb.js] *)

(** [v || <literal>], the literal being built only when [v] is falsy. *)
Definition or_else `{Engine} (v : value) (mk : M value) : M value :=
  if truthy v then ret v else mk.

(** [EJDB.prototype.dropCollection = function(cname, prune, cb)] *)
Definition dropCollection `{Engine} (args : list value) : M value :=
  let cname := arg args 0 in
  let prune := arg args 1 in
  let cb := arg args 2 in
  let '(prune, cb) :=
    if (length args =? 2)%nat then (VBool false, prune) else (prune, cb) in
  let cb := if negb (truthy cb) then CbNoop else CbVal cb in
  impl_removeCollection cname (VBool (truthy prune)) cb.

(** [EJDB.prototype.removeCollection]: applies [dropCollection] to its own
    [arguments]; the function body has no [return]. *)
Definition removeCollection `{Engine} (args : list value) : M value :=
  dropCollection args ;;; ret VUndef.

(** The loop of [postprocess], for [i] from [n - 1] down to [0]. *)
Fixpoint postprocess_loop `{Engine} (jsarr oids : value) (n : nat) : M unit :=
  match n with
  | O => ret tt
  | S i =>
      so <- get_index jsarr i ;;
      (if negb (loose_null so) then
         cur <- get_prop so "_id" ;;
         oid <- get_index oids i ;;
         if negb (strict_eq cur oid) then
           oid' <- get_index oids i ;;
           set_prop so "_id" oid'
         else ret tt
       else ret tt) ;;;
      postprocess_loop jsarr oids i
  end.

(** [postprocess(oids)] inside [save], closed over [jsarr]. *)
Definition postprocess `{Engine} (jsarr oids : value) : M unit :=
  h <- get_heap ;;
  postprocess_loop jsarr oids (length (elems_of h jsarr)).

(** The closure [function(err, oids)] that [save] hands to the engine. *)
Definition save_callback `{Engine} (jsarr cb : value) (a : list value) : M unit :=
  let err := arg a 0 in
  let oids := arg a 1 in
  if truthy err then call_value cb [err]
  else
    postprocess jsarr oids ;;;
    call_value cb [VNull; oids].

(** [EJDB.prototype.save = function(cname, jsarr, opts, cb)] *)
Definition save `{Engine} (args : list value) : M value :=
  let cname := arg args 0 in
  let jsarr := arg args 1 in
  let opts := arg args 2 in
  let cb := arg args 3 in
  if negb (truthy jsarr) then new_array []
  else
    jsarr <- (if negb (isArray jsarr) then new_array [jsarr] else ret jsarr) ;;
    let '(cb, opts) :=
      if String.eqb (typeof opts) "function" then (opts, VNull) else (cb, opts) in
    if loose_null cb then
      o <- or_else opts new_object ;;
      oids <- impl_save cname jsarr o (CbVal VUndef) ;;
      postprocess jsarr oids ;;;
      ret jsarr
    else
      o <- or_else opts new_object ;;
      impl_save cname jsarr o (CbWrap (save_callback jsarr cb)).

(** The array [[cname, qobj, orarr, hints, cb]] that [parseQueryArgs]
    returns and its callers read by index. *)
Record query_args : Type := QA {
  qa_cname : value;
  qa_qobj : value;
  qa_orarr : value;
  qa_hints : value;
  qa_cb : value
}.

Definition cname_error : value :=
  VErr "Error" "Collection name 'cname' argument must be specified".

(** [function parseQueryArgs(args)] *)
Definition parseQueryArgs `{Engine} (args : list value) : M query_args :=
  let cname := arg args 0 in
  if negb (String.eqb (typeof cname) "string") then throw cname_error
  else
    let next := arg args 1 in
    let cb := if String.eqb (typeof next) "function" then next else VUndef in
    let qobj := if String.eqb (typeof next) "function" then VUndef else next in
    let next := arg args 2 in
    let '(orarr, hints, cb) :=
      if negb (strict_eq next VUndef) then
        let '(orarr, hints, next, i) :=
          if isArray next then (next, VUndef, arg args 3, 4%nat)
          else if String.eqb (typeof next) "object" then (VNull, next, arg args 3, 4%nat)
          else (VUndef, VUndef, next, 3%nat) in
        let '(hints, next) :=
          if negb (truthy hints) && String.eqb (typeof next) "object"
          then (next, arg args i) else (hints, next) in
        let cb := if String.eqb (typeof next) "function" then next else cb in
        (orarr, hints, cb)
      else (VUndef, VUndef, cb) in
    q <- or_else qobj new_object ;;
    o <- or_else orarr (new_array []) ;;
    h <- or_else hints new_object ;;
    ret (QA cname q o h (js_or cb VNull)).

(** [[qa[1]].concat(qa[2], qa[3])] *)
Definition query_list `{Engine} (qa : query_args) : M value :=
  concat3 (qa_qobj qa) (qa_orarr qa) (qa_hints qa).

(** [EJDB.prototype.find] *)
Definition find `{Engine} (args : list value) : M value :=
  qa <- parseQueryArgs args ;;
  ql <- query_list qa ;;
  oc <- get_prop (qa_hints qa) "$onlycount" ;;
  impl_query (qa_cname qa) ql
    (VNum (Int (if truthy oc then JBQRYCOUNT else 0)))
    (CbVal (qa_cb qa)).

(** The closure [function(err, cursor)] that [findOne] hands to the engine. *)
Definition findOne_callback `{Engine} (cb : value) (a : list value) : M unit :=
  let err := arg a 0 in
  let cursor := arg a 1 in
  if truthy err then call_value cb [err]
  else
    b <- cursor_next cursor ;;
    if truthy b then
      try_finally
        (o <- cursor_object cursor ;; call_value cb [VNull; o])
        (cursor_close cursor)
    else call_value cb [VNull; VNull].

(** [EJDB.prototype.findOne] *)
Definition findOne `{Engine} (args : list value) : M value :=
  qa <- parseQueryArgs args ;;
  set_prop (qa_hints qa) "$max" (VNum (Int 1)) ;;;
  let cb := qa_cb qa in
  if truthy cb then
    ql <- query_list qa ;;
    impl_query (qa_cname qa) ql (VNum (Int 0)) (CbWrap (findOne_callback cb))
  else
    ql <- query_list qa ;;
    cursor <- impl_query (qa_cname qa) ql (VNum (Int 0)) (CbVal cb) ;;
    if truthy cursor && String.eqb (typeof cursor) "object" then
      b <- cursor_next cursor ;;
      r <- (if truthy b then cursor_object cursor else ret VNull) ;;
      cursor_close cursor ;;;
      ret r
    else ret VNull.

(** The closure [function(err, cursor, count, log)] of [update] and [count]. *)
Definition count_callback `{Engine} (cb : value) (a : list value) : M unit :=
  let err := arg a 0 in
  let count := arg a 2 in
  let log := arg a 3 in
  if truthy err then call_value cb [err; VNull; log]
  else call_value cb [VNull; count; log].

(** [EJDB.prototype.update] *)
Definition update `{Engine} (args : list value) : M value :=
  qa <- parseQueryArgs args ;;
  let cb := qa_cb qa in
  if truthy cb then
    ql <- query_list qa ;;
    impl_query (qa_cname qa) ql (VNum (Int JBQRYCOUNT)) (CbWrap (count_callback cb))
  else
    ql <- query_list qa ;;
    impl_query (qa_cname qa) ql (VNum (Int JBQRYCOUNT)) (CbVal cb).

(** [EJDB.prototype.count] *)
Definition count `{Engine} (args : list value) : M value :=
  qa <- parseQueryArgs args ;;
  let cb := qa_cb qa in
  if truthy cb then
    ql <- query_list qa ;;
    impl_query (qa_cname qa) ql (VNum (Int JBQRYCOUNT)) (CbWrap (count_callback cb))
  else
    ql <- query_list qa ;;
    impl_query (qa_cname qa) ql (VNum (Int JBQRYCOUNT)) (CbVal cb).

(** ** A small concrete engine, for running the wrapper on examples *)

Module Demo.

Definition hex_digit (n : nat) : string :=
  String.substring (n mod 16) 1 "0123456789abcdef".

(** The OID given to the [n]-th record ever saved. *)
Definition demo_oid (n : nat) : string :=
  "507f1f77bcf86cd7994390" ++ hex_digit (n / 16) ++ hex_digit n.

(** One new OID per element that is an object, [null] for the others. *)
Fixpoint demo_oids (next : nat) (docs : list value) : list value :=
  match docs with
  | [] => []
  | VRef _ _ :: rest => VStr (demo_oid next) :: demo_oids (S next) rest
  | _ :: rest => VNull :: demo_oids next rest
  end.

Definition demo_save (e : nat) (h : heap) (args : list value)
    : nat * (failure + list value) :=
  match arg args 0 with
  | VStr _ =>
      let docs := elems_of h (arg args 1) in
      (e + length docs, inr (demo_oids e docs))%nat
  | _ => (e, inl (Failure "TypeError" "collection name must be a string"))
  end.

Definition anna : json := JObj [("name", JStr "Anna"); ("age", JNum 30)].
Definition bob : json := JObj [("name", JStr "Bob"); ("age", JNum 41)].

(** Collection ["users"] holds two records, ["broken"] fails, any other
    collection is empty. *)
Definition demo_query (e : nat) (h : heap) (args : list value)
    : nat * (failure + qresult) :=
  match arg args 0 with
  | VStr s =>
      if String.eqb s "users" then (e, inr (QResult [anna; bob] 2 VUndef))
      else if String.eqb s "broken" then (e, inl (Failure "IOError" "cannot read collection"))
      else (e, inr (QResult [] 0 VUndef))
  | _ => (e, inl (Failure "TypeError" "collection name must be a string"))
  end.

Definition demo_removeCollection (e : nat) (h : heap) (args : list value)
    : nat * option failure :=
  match arg args 0 with
  | VStr _ => (e, None)
  | _ => (e, Some (Failure "TypeError" "collection name must be a string"))
  end.

#[export] Instance demo_engine : Engine := {|
  eng_state := nat;
  JBQRYCOUNT := 1;
  eng_removeCollection := demo_removeCollection;
  eng_save := demo_save;
  eng_query := demo_query;
  user_fn := fun _ _ => None
|}.

(** A store with a query object [{}] at 1, a hints object
    [{$onlycount: true}] at 2, an array [[]] at 3, two documents at 4
    and 5, the arrays [[doc4, doc5]] at 6 and [[doc4, doc4]] at 7, and
    functions at 10 and 11. *)
Definition heap0 : heap :=
  <[1%nat := empty_cell]>
  (<[2%nat := Cell {["$onlycount" := VBool true]} []]>
  (<[3%nat := Cell ∅ []]>
  (<[4%nat := Cell {["a" := VNum (Int 1)]} []]>
  (<[5%nat := Cell {["a" := VNum (Int 2)]} []]>
  (<[6%nat := Cell ∅ [VRef KObj 4; VRef KObj 5]]>
  (<[7%nat := Cell ∅ [VRef KObj 4; VRef KObj 4]]>
  (<[10%nat := empty_cell]>
  (<[11%nat := empty_cell]> ∅)))))))).

Definition s0 : state :=
  {| st_heap := heap0; st_cursors := ∅; st_engine := 0%nat; st_trace := [] |}.

(** Saving the array [[doc4, doc4]], which holds one object twice. *)
Definition shared_run : outcome value * state := save [VStr "c"; VRef KArr 7] s0.

(** What the engine answers to that call. *)
Definition shared_oids : list value := [VStr (demo_oid 0); VStr (demo_oid 1)].

(** [findOne] with a callback on a collection with matching records. *)
Definition findOne_cb_run : outcome value * state :=
  findOne [VStr "users"; VRef KObj 1; VRef KObj 2; VRef KFun 10] s0.

(** [findOne] with a callback on a collection without matching records. *)
Definition findOne_cb_empty_run : outcome value * state :=
  findOne [VStr "none"; VRef KObj 1; VRef KObj 2; VRef KFun 10] s0.

End Demo.

(** The example store with objects that refuse assignments. *)
Module Frozen.

(** The store of [Demo.heap0] with a frozen document [{a: 3}] at 20, the
    array [[doc20, doc4]] at 21 and a frozen hints object [{}] at 22. *)
Definition heap1 : heap :=
  <[20%nat := MkCell {["a" := VNum (Int 3)]} [] false {["a"]}]>
  (<[21%nat := Cell ∅ [VRef KObj 20; VRef KObj 4]]>
  (<[22%nat := MkCell ∅ [] false ∅]> Demo.heap0)).

Definition s1 : @state Demo.demo_engine :=
  @State Demo.demo_engine heap1 ∅ 0%nat [].

End Frozen.

(** ** The documented call shapes of the query functions *)

(** [(cname[,cb])], [(cname,qobj[,cb])], [(cname,qobj,hints[,cb])],
    [(cname,qobj,orarr[,cb])], [(cname,qobj,orarr,hints[,cb])]: [cname] is
    a string, [qobj] and [hints] are objects, [orarr] is an array and [cb]
    a function. *)
Inductive query_shape : Type :=
| ShName (cname : string)
| ShQuery (cname : string) (qobj : loc)
| ShHints (cname : string) (qobj hints : loc)
| ShOr (cname : string) (qobj orarr : loc)
| ShOrHints (cname : string) (qobj orarr hints : loc).

Definition shape_cname (sh : query_shape) : string :=
  match sh with
  | ShName c | ShQuery c _ | ShHints c _ _ | ShOr c _ _ | ShOrHints c _ _ _ => c
  end.

Definition shape_qobj (sh : query_shape) : option loc :=
  match sh with
  | ShName _ => None
  | ShQuery _ q | ShHints _ q _ | ShOr _ q _ | ShOrHints _ q _ _ => Some q
  end.

Definition shape_orarr (sh : query_shape) : option loc :=
  match sh with
  | ShOr _ _ o | ShOrHints _ _ o _ => Some o
  | _ => None
  end.

Definition shape_hints (sh : query_shape) : option loc :=
  match sh with
  | ShHints _ _ h | ShOrHints _ _ _ h => Some h
  | _ => None
  end.

Definition cb_value (cb : option loc) : value :=
  match cb with
  | Some f => VRef KFun f
  | None => VNull
  end.

(** The actual arguments of a call of the given shape. *)
Definition shape_args (sh : query_shape) (cb : option loc) : list value :=
  let tail := match cb with Some f => [VRef KFun f] | None => [] end in
  match sh with
  | ShName c => VStr c :: tail
  | ShQuery c q => VStr c :: VRef KObj q :: tail
  | ShHints c q h => VStr c :: VRef KObj q :: VRef KObj h :: tail
  | ShOr c q o => VStr c :: VRef KObj q :: VRef KArr o :: tail
  | ShOrHints c q o h => VStr c :: VRef KObj q :: VRef KArr o :: VRef KObj h :: tail
  end.

(** The canonical 5-tuple as the documentation describes it: every supplied
    component in its slot, and a new [{}], [[]], [{}] or [null] where one is
    omitted.  Written from the specification's words, for comparison with
    [parseQueryArgs]. *)
Definition canonical_tuple `{Engine} (sh : query_shape) (cb : option loc) : M query_args :=
  q <- match shape_qobj sh with Some l => ret (VRef KObj l) | None => new_object end ;;
  o <- match shape_orarr sh with Some l => ret (VRef KArr l) | None => new_array [] end ;;
  h <- match shape_hints sh with Some l => ret (VRef KObj l) | None => new_object end ;;
  ret (QA (VStr (shape_cname sh)) q o h (cb_value cb)).

(** A slot of the tuple holds the supplied component or, when the component
    was omitted, a reference to a new empty object of kind [k]. *)
Definition slot_ok `{Engine} (supplied : option loc) (k : kind) (v : value)
    (s s' : state) : Prop :=
  match supplied with
  | Some l => v = VRef k l
  | None =>
      exists l, v = VRef k l /\ st_heap s !! l = None /\ st_heap s' !! l = Some empty_cell
  end.

(** [s'] differs from [s] by new heap objects only. *)
Definition only_allocates `{Engine} (s s' : state) : Prop :=
  st_trace s' = st_trace s /\ st_engine s' = st_engine s /\
  st_cursors s' = st_cursors s /\
  forall l c, st_heap s !! l = Some c -> st_heap s' !! l = Some c.

(** [s] with [evs] appended to its trace. *)
Definition add_trace `{Engine} (evs : list event) (s : state) : state :=
  {| st_heap := st_heap s; st_cursors := st_cursors s;
     st_engine := st_engine s; st_trace := st_trace s ++ evs |}.

(** [s] with another heap. *)
Definition with_heap `{Engine} (h : heap) (s : state) : state :=
  {| st_heap := h; st_cursors := st_cursors s;
     st_engine := st_engine s; st_trace := st_trace s |}.

(** The [_id] an object shows when read. *)
Definition id_of (h : heap) (d : loc) : value :=
  default VUndef (c_props (cell_at h d) !! "_id").

(** The callback and the options [save] works with once it has looked at
    its third argument ([if (typeof opts == "function") ...]). *)
Definition save_cb (args : list value) : value :=
  if String.eqb (typeof (arg args 2)) "function" then arg args 2 else arg args 3.

Definition save_opts (args : list value) : value :=
  if String.eqb (typeof (arg args 2)) "function" then VNull else arg args 2.

(** The object at position [i] of [docs] does not occur at an earlier
    position. *)
Definition first_occurrence (docs : list value) (i : nat) (d : loc) : Prop :=
  forall j kd, (j < i)%nat -> nth j docs VUndef <> VRef kd d.

(** The four query functions that start with [parseQueryArgs]. *)
Inductive query_op : Type := OpFind | OpFindOne | OpUpdate | OpCount.

Definition run_op `{Engine} (op : query_op) : list value -> M value :=
  match op with
  | OpFind => find
  | OpFindOne => findOne
  | OpUpdate => update
  | OpCount => count
  end.

(** What follows the error in the callback's argument list when the engine
    reports a failure: nothing from [find] and [findOne], [null] and the
    log from [update] and [count]. *)
Definition failure_rest (op : query_op) : list value :=
  match op with
  | OpFind | OpFindOne => []
  | OpUpdate | OpCount => [VNull; VUndef]
  end.

(** Every cell of [h] is still there, unchanged, in [h']. *)
Definition heap_extends (h h' : heap) : Prop :=
  forall l c, h !! l = Some c -> h' !! l = Some c.

(** What each query function hands to the native [query] in callback
    position, given the [cb] slot of the parsed tuple. *)
Definition op_cbarg `{Engine} (op : query_op) (cb : value) : cbarg :=
  match op with
  | OpFind => CbVal cb
  | OpFindOne => if truthy cb then CbWrap (findOne_callback cb) else CbVal cb
  | OpUpdate | OpCount => if truthy cb then CbWrap (count_callback cb) else CbVal cb
  end.

(** [h'] holds the object at [lh] with [$max] set to [1] and otherwise as
    it was ([ch]) when it takes the assignment, exactly as it was when it
    refuses it, and every other cell of [h] unchanged. *)
Definition hints_updated (h h' : heap) (lh : loc) (ch : cell) : Prop :=
  h' !! lh = Some (if can_write ch "$max" then cell_set "$max" (VNum (Int 1)) ch else ch)
  /\ forall l c, l <> lh -> h !! l = Some c -> h' !! l = Some c.

(** The elements of the query list [[qa[1]].concat(qa[2], qa[3])] as built
    in the store [h]. *)
Definition query_items (h : heap) (qa : query_args) : list value :=
  [qa_qobj qa] ++ concat_item h (qa_orarr qa) ++ concat_item h (qa_hints qa).

(** The store in which a query function builds its query list, [h] being
    the store [parseQueryArgs] left: [findOne] has assigned [$max] by
    then. *)
Definition op_heap (op : query_op) (h : heap) (qa : query_args) : heap :=
  match op with
  | OpFindOne => default h (heap_set_prop h (qa_hints qa) "$max" (VNum (Int 1)))
  | _ => h
  end.

(** The flags each query function passes to the native [query]. *)
Definition op_flags `{Engine} (op : query_op) (h : heap) (qa : query_args) : value :=
  match op with
  | OpFind =>
      VNum (Int (if truthy (default VUndef (heap_get_prop h (qa_hints qa) "$onlycount"))
                 then JBQRYCOUNT else 0))
  | OpFindOne => VNum (Int 0)
  | OpUpdate | OpCount => VNum (Int JBQRYCOUNT)
  end.

(** How a failure [f], answered by the engine to the native call [call],
    comes back from the run of [m] started in [s]: thrown to the caller,
    right after the call; *)
Definition failure_thrown `{Engine} (m : M value) (s : state) (call : event)
    (f : failure) : Prop :=
  exists s', m s = (Throw (err_value f), s') /\ st_trace s' = (st_trace s ++ [call])%list.

(** or handed to the caller's function [cbl] as first argument, followed by
    [rest], the run returning [undefined]; after the application comes at
    most what that function threw; *)
Definition failure_delivered `{Engine} (m : M value) (s : state) (call : event)
    (cbl : loc) (f : failure) (rest : list value) : Prop :=
  exists s' evs,
    m s = (Ok VUndef, s')
    /\ st_trace s' = (st_trace s ++ call :: EvCall cbl (err_value f :: rest) :: evs)%list
    /\ (evs = [] \/ exists e, evs = [EvUncaught e]).

(** or dropped: the run returns [undefined] and applies no function. *)
Definition failure_dropped `{Engine} (m : M value) (s : state) (call : event) : Prop :=
  exists s', m s = (Ok VUndef, s') /\ st_trace s' = (st_trace s ++ [call])%list.

(** Events that come from the caller's functions: an application, and
    what an application threw once the wrapper had returned. *)
Definition callback_event (ev : event) : Prop :=
  match ev with
  | EvCall _ _ | EvUncaught _ => True
  | _ => False
  end.

(** [s] with another heap, the engine in state [e] and [evs] appended to
    the trace. *)
Definition after_call `{Engine} (h : heap) (e : eng_state) (evs : list event)
    (s : state) : state :=
  {| st_heap := h; st_cursors := st_cursors s; st_engine := e;
     st_trace := st_trace s ++ evs |}.

(** ** Frame conditions *)

(** [m] relates the heap it starts from to the heap it ends with by [R],
    whatever it returns or throws. *)
Definition preserves `{Engine} {A} (R : heap -> heap -> Prop) (m : M A) : Prop :=
  forall s, R (st_heap s) (st_heap (snd (m s))).

(** Every cell of [h] is still there in [h'] with the same elements and
    attributes, and with the same value for every property [name] of a
    cell [l] unless [P l name]. *)
Definition changes_only (P : loc -> string -> Prop) (h h' : heap) : Prop :=
  forall l c, h !! l = Some c ->
    exists c', h' !! l = Some c'
      /\ (c_elems c' = c_elems c
          /\ c_extensible c' = c_extensible c
          /\ c_readonly c' = c_readonly c)
      /\ forall name, ~ P l name -> c_props c' !! name = c_props c !! name.

(** What a native method may be given in callback position without
    danger for the frame [R]. *)
Definition cb_preserves `{Engine} (R : heap -> heap -> Prop) (cb : cbarg) : Prop :=
  forall args, preserves R (invoke cb args).

(** ** The rest of the native library: [open], [ensureCollection], [command] *)

(** What [EJDB.open], [ensureCollection], [command] and the export of the
    constants use beside the operations of [Engine], all of it outside
    [ejdb.js]:
    - [JBOWRITER] and [JBOCREAT] are the constants [ejdblib.JBOWRITER] and
      [ejdblib.JBOCREAT];
    - [host_to_number h v] is ToNumber of a string or an object [v] in the
      store [h] (number syntax, [valueOf] and [toString] belong to the
      host);
    - the engine opens a database file, ensures a collection and runs a
      command, answering with a failure or a result. *)
Class Ejdblib `{Engine} : Type := {
  JBOWRITER : Z;
  JBOCREAT : Z;
  host_to_number : heap -> value -> number;
  eng_open : eng_state -> heap -> list value -> eng_state * option failure;
  eng_ensureCollection : eng_state -> heap -> list value -> eng_state * option failure;
  eng_command : eng_state -> heap -> list value -> eng_state * (failure + list json)
}.

(** ToInt32 on an integral number, and [a | b]. *)
Definition to_int32 (z : Z) : Z := (z + 2 ^ 31) mod 2 ^ 32 - 2 ^ 31.

Definition js_bitor (a b : Z) : Z := Z.lor (to_int32 a) (to_int32 b).

(** [const DEFAULT_OPEN_MODE = (ejdblib.JBOWRITER | ejdblib.JBOCREAT)] *)
Definition DEFAULT_OPEN_MODE `{Ejdblib} : Z := js_bitor JBOWRITER JBOCREAT.

(** ToNumber. *)
Definition to_number `{Ejdblib} (h : heap) (v : value) : number :=
  match v with
  | VUndef => NaN
  | VNull => Int 0
  | VBool b => Int (if b then 1 else 0)
  | VNum n => n
  | _ => host_to_number h v
  end.

(** [x > k] for a number literal [k]; a comparison with [NaN] is false. *)
Definition gt_num (x : number) (k : Z) : bool :=
  match x with NaN => false | Int z => k <? z end.

(** [k.indexOf("JB") === 0] *)
Definition starts_with_JB (k : string) : bool :=
  match String.index 0 "JB" k with
  | Some O => true
  | _ => false
  end.

(** The export of the constants: [for (var k in ejdblib) { if
    (k.indexOf("JB") === 0) { EJDB[k] = ejdblib[k]; } }] followed by
    [EJDB.DEFAULT_OPEN_MODE = DEFAULT_OPEN_MODE], on the enumerable
    properties of [ejdblib] in enumeration order and the properties of the
    function object [EJDB]. *)
Definition export_constants `{Ejdblib} (ejdblib : list (string * value))
    (EJDB : gmap string value) : gmap string value :=
  <["DEFAULT_OPEN_MODE" := VNum (Int DEFAULT_OPEN_MODE)]>
    (fold_left
       (fun acc kv => if starts_with_JB (fst kv) then <[fst kv := snd kv]> acc else acc)
       ejdblib EJDB).

(** [Object.defineProperty(o, name, {value: x, writable: false, ...})] on
    an object that is extensible and lacks the property, as the object a
    [new] expression has just created is: the property is created, and is
    read-only. *)
Definition cell_define_readonly (name : string) (x : value) (c : cell) : cell :=
  MkCell (<[name := x]> (c_props c)) (c_elems c) (c_extensible c) ({[name]} ∪ c_readonly c).

Definition define_readonly `{Engine} (o : value) (name : string) (x : value) : M unit :=
  h <- get_heap ;;
  match o with
  | VRef _ l =>
      let c := cell_at h l in
      if c_extensible c && negb (bool_decide (is_Some (c_props c !! name)))
      then set_heap (<[l := cell_define_readonly name x c]> h)
      else type_error "Cannot define property"
  | _ => type_error "Object.defineProperty called on non-object"
  end.

(** [new EJDB()]: the new object [this], on which the constructor defines
    the read-only property [_impl] holding a new native object. *)
Definition new_EJDB `{Engine} : M value :=
  this <- new_object ;;
  impl <- new_object ;;
  define_readonly this "_impl" impl ;;;
  ret this.

(** Modelled from the spec: [db._impl.open(dbFile, mode[, cb])], absent from
    [ejdb.js] (section 6: "[open(path, mode flags:
    READER|WRITER|CREATE|TRUNCATE) -> handle]"); the callback receives
    [(err)], the parameter of the closure [ejdb.js] passes. *)
Definition impl_open `{Ejdblib} (dbFile mode : value) (cb : cbarg) : M value :=
  log (EvImpl "open" [dbFile; mode] (describe cb)) ;;;
  r <- run_engine eng_open [dbFile; mode] ;;
  if is_async cb then
    deliver cb [match r with Some f => err_value f | None => VNull end] ;;; ret VUndef
  else
    match r with
    | Some f => throw (err_value f)
    | None => ret VUndef
    end.

(** The closure [function (err) { cb(err, db); }] of [EJDB.open]. *)
Definition open_callback `{Engine} (cb db : value) (a : list value) : M unit :=
  call_value cb [arg a 0; db].

(** [EJDB.open = function(dbFile, openMode, cb)] *)
Definition open `{Ejdblib} (args : list value) : M value :=
  let dbFile := arg args 0 in
  let openMode := arg args 1 in
  let cb := arg args 2 in
  db <- new_EJDB ;;
  h <- get_heap ;;
  let mode :=
    if gt_num (to_number h openMode) 0 then openMode
    else VNum (Int DEFAULT_OPEN_MODE) in
  if truthy cb then
    impl_open dbFile mode (CbWrap (open_callback cb db)) ;;;
    ret VUndef
  else
    impl_open dbFile mode (CbVal VUndef) ;;;
    ret db.

(** Modelled from the spec: [this._impl.ensureCollection(cname, copts, cb)],
    absent from [ejdb.js] (section 6: "[ensureCollection(handle, name,
    options)]", an operation without a result). *)
Definition impl_ensureCollection `{Ejdblib} (cname copts : value) (cb : cbarg) : M value :=
  log (EvImpl "ensureCollection" [cname; copts] (describe cb)) ;;;
  r <- run_engine eng_ensureCollection [cname; copts] ;;
  if is_async cb then
    deliver cb [match r with Some f => err_value f | None => VNull end] ;;; ret VUndef
  else
    match r with
    | Some f => throw (err_value f)
    | None => ret VUndef
    end.

(** [EJDB.prototype.ensureCollection = function(cname, copts, cb)] *)
Definition ensureCollection `{Ejdblib} (args : list value) : M value :=
  let cname := arg args 0 in
  let copts := arg args 1 in
  let cb := arg args 2 in
  p <- (if (length args =? 2)%nat && String.eqb (typeof copts) "function"
        then o <- new_object ;; ret (o, copts)
        else ret (copts, cb)) ;;
  let '(copts, cb) := p in
  o <- or_else copts new_object ;;
  impl_ensureCollection cname o (CbVal cb).

(** Modelled from the spec: [this._impl.command(cmd[, cb])], absent from
    [ejdb.js] (section 6: "[command(handle, commandDoc) -> responseDoc]").
    The response reaches [ejdb.js] in a cursor, the parameter [cursor] of
    the closure it passes; the cursor may hold any number of records. *)
Definition impl_command `{Ejdblib} (cmd : value) (cb : cbarg) : M value :=
  log (EvImpl "command" [cmd] (describe cb)) ;;;
  r <- run_engine eng_command [cmd] ;;
  if is_async cb then
    match r with
    | inl f => deliver cb [err_value f]
    | inr records =>
        c <- new_cursor records ;;
        deliver cb [VNull; c]
    end ;;; ret VUndef
  else
    match r with
    | inl f => throw (err_value f)
    | inr records => new_cursor records
    end.

(** The closure [function(err, cursor)] that [command] hands to the
    engine. *)
Definition command_callback `{Engine} (cb : value) (a : list value) : M unit :=
  let err := arg a 0 in
  let cursor := arg a 1 in
  if truthy err then call_value cb [err]
  else
    b <- cursor_next cursor ;;
    if truthy b then
      try_finally
        (o <- cursor_object cursor ;; call_value cb [VNull; o])
        (cursor_close cursor)
    else call_value cb [VNull; VNull].

(** [EJDB.prototype.command = function(cmd, cb)] *)
Definition command `{Ejdblib} (args : list value) : M value :=
  let cmd := arg args 0 in
  let cb := arg args 1 in
  if truthy cb then
    impl_command cmd (CbWrap (command_callback cb)) ;;;
    ret VUndef
  else
    cursor <- impl_command cmd (CbVal VUndef) ;;
    if truthy cursor && String.eqb (typeof cursor) "object" then
      b <- cursor_next cursor ;;
      r <- (if truthy b then cursor_object cursor else ret VNull) ;;
      cursor_close cursor ;;;
      ret r
    else ret VNull.

(** ** The functions that pass their arguments to a native method *)

(** The index constants of [ejdblib] and the engine behind the methods
    [close], [isOpen], [load], [remove], [sync], [setIndex], [dbMeta] and
    [_txctl] of [this._impl], all outside [ejdb.js]: [eng_method name]
    answers a call of the method of that name with a failure, with no
    result, or with a document. *)
Class NativeMethods `{Engine} : Type := {
  JBIDXDROPALL : Z;
  JBIDXOP : Z;
  JBIDXSTR : Z;
  JBIDXISTR : Z;
  JBIDXNUM : Z;
  JBIDXARR : Z;
  JBIDXREBLD : Z;
  JBIDXDROP : Z;
  eng_method : string -> eng_state -> heap -> list value
               -> eng_state * (failure + option json)
}.

(** Modelled from the spec: the methods of [this._impl] to which [ejdb.js]
    passes the caller's arguments as they are, absent from [ejdb.js]
    (section 6: "[close(handle)], [isOpen(handle) -> bool]",
    "[load(handle, collection, OID) -> Document|null]; [remove(handle,
    collection, OID)]", "[setIndex(handle, collection, path, flags{kind,
    drop, rebuild, optimize, dropAll})]", "[txctl(handle, collection, op:
    begin|commit|abort|status)]", "[dbMeta(handle) -> descriptor]";
    section 4.1: [sync] "forces durable flush"; section 7
    for the two calling conventions, as for [impl_save]).  A function in
    callback position receives [(err)], or [(null)] and the result when
    there is one. *)
Definition impl_method `{NativeMethods} (method : string) (args : list value)
    (cb : value) : M value :=
  log (EvImpl method args (DVal cb)) ;;;
  r <- run_engine (eng_method method) args ;;
  if is_async (CbVal cb) then
    match r with
    | inl f => deliver (CbVal cb) [err_value f]
    | inr None => deliver (CbVal cb) [VNull]
    | inr (Some j) =>
        h <- get_heap ;;
        let '(v, h') := materialize j h in
        set_heap h' ;;;
        deliver (CbVal cb) [VNull; v]
    end ;;; ret VUndef
  else
    match r with
    | inl f => throw (err_value f)
    | inr None => ret VUndef
    | inr (Some j) =>
        h <- get_heap ;;
        let '(v, h') := materialize j h in
        set_heap h' ;;; ret v
    end.

(** [this._impl.setIndex(cname, path, flags, cb)] *)
Definition impl_setIndex `{NativeMethods} (cname path : value) (flags : Z)
    (cb : value) : M value :=
  impl_method "setIndex" [cname; path; VNum (Int flags)] cb.

(** [this._impl._txctl(cname, cmd, cb)] *)
Definition impl_txctl `{NativeMethods} (cname : value) (cmd : Z) (cb : value) : M value :=
  impl_method "_txctl" [cname; VNum (Int cmd)] cb.

(** [EJDB.prototype.close = function(cb)] *)
Definition close `{NativeMethods} (args : list value) : M value :=
  let cb := arg args 0 in
  impl_method "close" [] cb.

(** [EJDB.prototype.isOpen = function()] *)
Definition isOpen `{NativeMethods} (args : list value) : M value :=
  impl_method "isOpen" [] VUndef.

(** [EJDB.prototype.load = function(cname, oid, cb)] *)
Definition load `{NativeMethods} (args : list value) : M value :=
  let cname := arg args 0 in
  let oid := arg args 1 in
  let cb := arg args 2 in
  impl_method "load" [cname; oid] cb.

(** [EJDB.prototype.remove = function(cname, oid, cb)] *)
Definition remove `{NativeMethods} (args : list value) : M value :=
  let cname := arg args 0 in
  let oid := arg args 1 in
  let cb := arg args 2 in
  impl_method "remove" [cname; oid] cb.

(** [EJDB.prototype.sync = function(cb)] *)
Definition sync `{NativeMethods} (args : list value) : M value :=
  let cb := arg args 0 in
  impl_method "sync" [] cb.

(** [EJDB.prototype.dropIndexes = function(cname, path, cb)] *)
Definition dropIndexes `{NativeMethods} (args : list value) : M value :=
  impl_setIndex (arg args 0) (arg args 1) JBIDXDROPALL (arg args 2).

(** [EJDB.prototype.optimizeIndexes = function(cname, path, cb)] *)
Definition optimizeIndexes `{NativeMethods} (args : list value) : M value :=
  impl_setIndex (arg args 0) (arg args 1) JBIDXOP (arg args 2).

(** [EJDB.prototype.ensureStringIndex = function(cname, path, cb)] *)
Definition ensureStringIndex `{NativeMethods} (args : list value) : M value :=
  impl_setIndex (arg args 0) (arg args 1) JBIDXSTR (arg args 2).

(** [EJDB.prototype.rebuildStringIndex = function(cname, path, cb)] *)
Definition rebuildStringIndex `{NativeMethods} (args : list value) : M value :=
  impl_setIndex (arg args 0) (arg args 1) (js_bitor JBIDXSTR JBIDXREBLD) (arg args 2).

(** [EJDB.prototype.dropStringIndex = function(cname, path, cb)] *)
Definition dropStringIndex `{NativeMethods} (args : list value) : M value :=
  impl_setIndex (arg args 0) (arg args 1) (js_bitor JBIDXSTR JBIDXDROP) (arg args 2).

(** [EJDB.prototype.ensureIStringIndex = function(cname, path, cb)] *)
Definition ensureIStringIndex `{NativeMethods} (args : list value) : M value :=
  impl_setIndex (arg args 0) (arg args 1) JBIDXISTR (arg args 2).

(** [EJDB.prototype.rebuildIStringIndex = function(cname, path, cb)] *)
Definition rebuildIStringIndex `{NativeMethods} (args : list value) : M value :=
  impl_setIndex (arg args 0) (arg args 1) (js_bitor JBIDXISTR JBIDXREBLD) (arg args 2).

(** [EJDB.prototype.dropIStringIndex = function(cname, path, cb)] *)
Definition dropIStringIndex `{NativeMethods} (args : list value) : M value :=
  impl_setIndex (arg args 0) (arg args 1) (js_bitor JBIDXISTR JBIDXDROP) (arg args 2).

(** [EJDB.prototype.ensureNumberIndex = function(cname, path, cb)] *)
Definition ensureNumberIndex `{NativeMethods} (args : list value) : M value :=
  impl_setIndex (arg args 0) (arg args 1) JBIDXNUM (arg args 2).

(** [EJDB.prototype.rebuildNumberIndex = function(cname, path, cb)] *)
Definition rebuildNumberIndex `{NativeMethods} (args : list value) : M value :=
  impl_setIndex (arg args 0) (arg args 1) (js_bitor JBIDXNUM JBIDXREBLD) (arg args 2).

(** [EJDB.prototype.dropNumberIndex = function(cname, path, cb)] *)
Definition dropNumberIndex `{NativeMethods} (args : list value) : M value :=
  impl_setIndex (arg args 0) (arg args 1) (js_bitor JBIDXNUM JBIDXDROP) (arg args 2).

(** [EJDB.prototype.ensureArrayIndex = function(cname, path, cb)] *)
Definition ensureArrayIndex `{NativeMethods} (args : list value) : M value :=
  impl_setIndex (arg args 0) (arg args 1) JBIDXARR (arg args 2).

(** [EJDB.prototype.rebuildArrayIndex = function(cname, path, cb)] *)
Definition rebuildArrayIndex `{NativeMethods} (args : list value) : M value :=
  impl_setIndex (arg args 0) (arg args 1) (js_bitor JBIDXARR JBIDXREBLD) (arg args 2).

(** [EJDB.prototype.dropArrayIndex = function(cname, path, cb)] *)
Definition dropArrayIndex `{NativeMethods} (args : list value) : M value :=
  impl_setIndex (arg args 0) (arg args 1) (js_bitor JBIDXARR JBIDXDROP) (arg args 2).

(** [EJDB.prototype.getDBMeta = function()] *)
Definition getDBMeta `{NativeMethods} (args : list value) : M value :=
  impl_method "dbMeta" [] VUndef.

(** [EJDB.prototype.beginTransaction = function(cname, cb)] *)
Definition beginTransaction `{NativeMethods} (args : list value) : M value :=
  impl_txctl (arg args 0) 8 (arg args 1).

(** [EJDB.prototype.commitTransaction = function(cname, cb)] *)
Definition commitTransaction `{NativeMethods} (args : list value) : M value :=
  impl_txctl (arg args 0) 10 (arg args 1).

(** [EJDB.prototype.rollbackTransaction = function(cname, cb)] *)
Definition rollbackTransaction `{NativeMethods} (args : list value) : M value :=
  impl_txctl (arg args 0) 9 (arg args 1).

(** [EJDB.prototype.getTransactionStatus = function(cname, cb)] *)
Definition getTransactionStatus `{NativeMethods} (args : list value) : M value :=
  impl_txctl (arg args 0) 11 (arg args 1).

(** These twenty-four functions, by name. *)
Inductive plain_op : Type :=
| PClose | PIsOpen | PLoad | PRemove | PSync
| PDropIndexes | POptimizeIndexes
| PEnsureStringIndex | PRebuildStringIndex | PDropStringIndex
| PEnsureIStringIndex | PRebuildIStringIndex | PDropIStringIndex
| PEnsureNumberIndex | PRebuildNumberIndex | PDropNumberIndex
| PEnsureArrayIndex | PRebuildArrayIndex | PDropArrayIndex
| PGetDBMeta
| PBeginTransaction | PCommitTransaction | PRollbackTransaction | PGetTransactionStatus.

Definition run_plain `{NativeMethods} (p : plain_op) : list value -> M value :=
  match p with
  | PClose => close
  | PIsOpen => isOpen
  | PLoad => load
  | PRemove => remove
  | PSync => sync
  | PDropIndexes => dropIndexes
  | POptimizeIndexes => optimizeIndexes
  | PEnsureStringIndex => ensureStringIndex
  | PRebuildStringIndex => rebuildStringIndex
  | PDropStringIndex => dropStringIndex
  | PEnsureIStringIndex => ensureIStringIndex
  | PRebuildIStringIndex => rebuildIStringIndex
  | PDropIStringIndex => dropIStringIndex
  | PEnsureNumberIndex => ensureNumberIndex
  | PRebuildNumberIndex => rebuildNumberIndex
  | PDropNumberIndex => dropNumberIndex
  | PEnsureArrayIndex => ensureArrayIndex
  | PRebuildArrayIndex => rebuildArrayIndex
  | PDropArrayIndex => dropArrayIndex
  | PGetDBMeta => getDBMeta
  | PBeginTransaction => beginTransaction
  | PCommitTransaction => commitTransaction
  | PRollbackTransaction => rollbackTransaction
  | PGetTransactionStatus => getTransactionStatus
  end.

(** The parameter [cb] of each of them: the first for [close] and [sync],
    the second for the transaction functions, the third for [load],
    [remove] and the index functions; [isOpen] and [getDBMeta] have no
    parameter. *)
Definition plain_cb (p : plain_op) (args : list value) : value :=
  match p with
  | PClose | PSync => arg args 0
  | PIsOpen | PGetDBMeta => VUndef
  | PBeginTransaction | PCommitTransaction | PRollbackTransaction
  | PGetTransactionStatus => arg args 1
  | _ => arg args 2
  end.

(** The native method each of them calls. *)
Definition plain_method (p : plain_op) : string :=
  match p with
  | PClose => "close"
  | PIsOpen => "isOpen"
  | PLoad => "load"
  | PRemove => "remove"
  | PSync => "sync"
  | PGetDBMeta => "dbMeta"
  | PBeginTransaction | PCommitTransaction | PRollbackTransaction
  | PGetTransactionStatus => "_txctl"
  | _ => "setIndex"
  end.

(** The arguments each of them hands to that method ahead of the
    callback. *)
Definition plain_args `{NativeMethods} (p : plain_op) (args : list value) : list value :=
  let index (flags : Z) := [arg args 0; arg args 1; VNum (Int flags)] in
  let tx (cmd : Z) := [arg args 0; VNum (Int cmd)] in
  match p with
  | PClose | PIsOpen | PSync | PGetDBMeta => []
  | PLoad | PRemove => [arg args 0; arg args 1]
  | PDropIndexes => index JBIDXDROPALL
  | POptimizeIndexes => index JBIDXOP
  | PEnsureStringIndex => index JBIDXSTR
  | PRebuildStringIndex => index (js_bitor JBIDXSTR JBIDXREBLD)
  | PDropStringIndex => index (js_bitor JBIDXSTR JBIDXDROP)
  | PEnsureIStringIndex => index JBIDXISTR
  | PRebuildIStringIndex => index (js_bitor JBIDXISTR JBIDXREBLD)
  | PDropIStringIndex => index (js_bitor JBIDXISTR JBIDXDROP)
  | PEnsureNumberIndex => index JBIDXNUM
  | PRebuildNumberIndex => index (js_bitor JBIDXNUM JBIDXREBLD)
  | PDropNumberIndex => index (js_bitor JBIDXNUM JBIDXDROP)
  | PEnsureArrayIndex => index JBIDXARR
  | PRebuildArrayIndex => index (js_bitor JBIDXARR JBIDXREBLD)
  | PDropArrayIndex => index (js_bitor JBIDXARR JBIDXDROP)
  | PBeginTransaction => tx 8
  | PCommitTransaction => tx 10
  | PRollbackTransaction => tx 9
  | PGetTransactionStatus => tx 11
  end.

(** The callback and the options of [ensureCollection], and the callback
    and the [prune] of [dropCollection], once each has looked at the number
    of its arguments. *)
Definition ensureCollection_cb (args : list value) : value :=
  if (length args =? 2)%nat && String.eqb (typeof (arg args 1)) "function"
  then arg args 1 else arg args 2.

Definition ensureCollection_copts (args : list value) : value :=
  if (length args =? 2)%nat && String.eqb (typeof (arg args 1)) "function"
  then VUndef else arg args 1.

Definition dropCollection_cb (args : list value) : value :=
  if (length args =? 2)%nat then arg args 1 else arg args 2.

Definition dropCollection_prune (args : list value) : value :=
  if (length args =? 2)%nat then VBool false else arg args 1.

(** The example engine, completed. *)
Module DemoLib.

(** Any path but the empty one can be opened. *)
Definition demo_open (e : nat) (h : heap) (args : list value) : nat * option failure :=
  match arg args 0 with
  | VStr s =>
      if String.eqb s "" then (e, Some (Failure "IOError" "cannot open database"))
      else (e, None)
  | _ => (e, Some (Failure "TypeError" "database path must be a string"))
  end.

Definition demo_ensureCollection (e : nat) (h : heap) (args : list value)
    : nat * option failure :=
  match arg args 0 with
  | VStr _ => (e, None)
  | _ => (e, Some (Failure "TypeError" "collection name must be a string"))
  end.

Definition response : json :=
  JObj [("log", JStr "done"); ("error", JNull); ("errorCode", JNum 0)].

(** A command object is answered by one response document, [null] by no
    document, anything else fails. *)
Definition demo_command (e : nat) (h : heap) (args : list value)
    : nat * (failure + list json) :=
  match arg args 0 with
  | VRef KObj _ => (e, inr [response])
  | VNull => (e, inr [])
  | _ => (e, inl (Failure "TypeError" "command must be an object"))
  end.

(** No example passes a string or an object where a number is read. *)
#[export] Instance demo_lib : @Ejdblib Demo.demo_engine :=
  @Build_Ejdblib Demo.demo_engine 2 4 (fun _ _ => NaN)
    demo_open demo_ensureCollection demo_command.

(** [isOpen] and [dbMeta] answer with a document, [close] and [sync] with
    nothing; the other methods refuse a collection name that is not a
    string, [load] answers with the record of Anna, the rest with
    nothing. *)
Definition demo_method (name : string) (e : nat) (h : heap) (args : list value)
    : nat * (failure + option json) :=
  if String.eqb name "isOpen" then (e, inr (Some (JBool true)))
  else if String.eqb name "dbMeta" then (e, inr (Some (JObj [("file", JStr "db")])))
  else if String.eqb name "close" || String.eqb name "sync" then (e, inr None)
  else
    match arg args 0 with
    | VStr _ => (e, inr (if String.eqb name "load" then Some Demo.anna else None))
    | _ => (e, inl (Failure "TypeError" "collection name must be a string"))
    end.

#[export] Instance demo_native : @NativeMethods Demo.demo_engine :=
  @Build_NativeMethods Demo.demo_engine 1 2 4 8 16 32 64 128 demo_method.

(** The properties of the native library, as [for .. in] lists them. *)
Definition demo_ejdblib : list (string * value) :=
  [("NodeEJDB", VRef KFun 10);
   ("JBOREADER", VNum (Int 1)); ("JBOWRITER", VNum (Int 2));
   ("JBOCREAT", VNum (Int 4)); ("JBQRYCOUNT", VNum (Int 1));
   ("_JB", VNum (Int 7))].

End DemoLib.

(** * Theorems *)

Local Open Scope list_scope.

Section Wrapper.
Context `{EN : Engine}.

(** ** Running the monad *)

Lemma bind_ok {A B} (m : M A) (f : A -> M B) s a s' :
  m s = (Ok a, s') -> bind m f s = f a s'.
Proof. intros Hm. unfold bind. now rewrite Hm. Qed.

Lemma bind_throw {A B} (m : M A) (f : A -> M B) s e s' :
  m s = (Throw e, s') -> bind m f s = (Throw e, s').
Proof. intros Hm. unfold bind. now rewrite Hm. Qed.

Lemma heap_lookup_insert_eq (h : heap) (l : loc) (c : cell) : <[l := c]> h !! l = Some c.
Proof. apply lookup_insert_eq. Qed.

Lemma heap_lookup_insert_ne (h : heap) (l l' : loc) (c : cell) :
  l <> l' -> <[l := c]> h !! l' = h !! l'.
Proof. apply lookup_insert_ne. Qed.

Lemma heap_alloc_spec (c : cell) (h : heap) :
  exists l, heap_alloc c h = (l, <[l := c]> h) /\ h !! l = None.
Proof.
  exists (fresh (dom h)). split; [reflexivity|].
  apply not_elem_of_dom. apply is_fresh.
Qed.

Lemma alloc_spec (k : kind) (c : cell) (s : state) :
  exists l, st_heap s !! l = None /\
    alloc k c s = (Ok (VRef k l),
                   {| st_heap := <[l := c]> (st_heap s); st_cursors := st_cursors s;
                      st_engine := st_engine s; st_trace := st_trace s |}).
Proof.
  destruct (heap_alloc_spec c (st_heap s)) as (l & Hl & Hfresh).
  exists l. split; [exact Hfresh|].
  unfold alloc, bind, get_heap, set_heap, ret. cbn. now rewrite Hl.
Qed.


(** ** [EJDB.isValidOID] *)

Lemma char_to_number_small (c : ascii) :
  match char_to_number c with
  | NaN => True
  | Int z => z <= 9
  end.
Proof.
  unfold char_to_number.
  destruct (_ && _) eqn:Hd.
  - apply andb_prop in Hd as [_ H2]. apply Z.leb_le in H2. lia.
  - destruct (is_js_space c); [lia | exact I].
Qed.

Lemma oid_loop_cond_false (s : string) (i : nat) : oid_loop_cond s i = false.
Proof.
  unfold oid_loop_cond, index_to_number.
  destruct (str_index s i) as [c|]; [|reflexivity].
  pose proof (char_to_number_small c) as Hc.
  destruct (char_to_number c) as [|z]; [reflexivity|].
  cbn. apply orb_false_iff. split; apply andb_false_iff; left; apply Z.leb_gt; lia.
Qed.

(** The loop stops at once, whatever the string. *)
Lemma oid_loop_stops (s : string) (fuel : nat) : oid_loop s 0 (S fuel) = Some 0%nat.
Proof. cbn. now rewrite oid_loop_cond_false. Qed.

(** [isValidOID] always returns, and always returns [false]. *)
Lemma isValidOID_always_false (v : value) : isValidOID v = Some false.
Proof.
  destruct v; try reflexivity.
  unfold isValidOID. destruct (negb _); [reflexivity|].
  now rewrite oid_loop_stops.
Qed.

(** ** Callbacks and deferred delivery *)

Lemma add_trace_nil s : add_trace [] s = s.
Proof. destruct s. unfold add_trace. cbn. now rewrite app_nil_r. Qed.

Lemma add_trace_app evs1 evs2 s :
  add_trace evs2 (add_trace evs1 s) = add_trace (evs1 ++ evs2) s.
Proof. unfold add_trace. cbn. now rewrite app_assoc. Qed.

(** Applying a caller's value only extends the trace. *)
Lemma call_value_spec (f : value) (args : list value) (s : state) :
  exists r evs, call_value f args s = (r, add_trace evs s).
Proof.
  destruct f as [| | | | | |k l];
    try (exists (Throw (VErr "TypeError" "not a function")), [];
         now rewrite add_trace_nil).
  destruct k;
    try (exists (Throw (VErr "TypeError" "not a function")), [];
         now rewrite add_trace_nil).
  cbn. unfold bind, log. cbn.
  destruct (user_fn l args) as [e|].
  - now exists (Throw e), [EvCall l args].
  - now exists (Ok tt), [EvCall l args].
Qed.

(** Delivery to a value of the caller or to the wrapper's empty function
    returns normally and only extends the trace. *)
Lemma deliver_spec (cb : cbarg) (args : list value) (s : state) :
  (forall k, cb <> CbWrap k) ->
  exists evs, deliver cb args s = (Ok tt, add_trace evs s).
Proof.
  intros Hcb. unfold deliver. destruct cb as [v| |k]; cbn.
  - destruct (call_value_spec v args s) as (r & evs & ->).
    destruct r as [[]|e].
    + now exists evs.
    + exists (evs ++ [EvUncaught e]). unfold log. cbn.
      unfold add_trace. cbn. now rewrite app_assoc.
  - exists []. now rewrite add_trace_nil.
  - now destruct (Hcb k).
Qed.

Lemma deliver_ok (cb : cbarg) (args : list value) (s : state) :
  deliver cb args s = (Ok tt, snd (deliver cb args s)).
Proof.
  unfold deliver. destruct (invoke cb args s) as [[[]|e] s']; reflexivity.
Qed.

Lemma deliver_wrap (k : list value -> M unit) (args : list value) (s : state) :
  deliver (CbWrap k) args s =
    match k args s with
    | (Ok _, s') => (Ok tt, s')
    | (Throw e, s') => (Ok tt, add_trace [EvUncaught e] s')
    end.
Proof. unfold deliver. cbn. now destruct (k args s) as [[[]|e] s']. Qed.

Lemma call_function_run (f : loc) (args : list value) (s : state) :
  call_value (VRef KFun f) args s =
    (match user_fn f args with Some e => Throw e | None => Ok tt end,
     add_trace [EvCall f args] s).
Proof.
  cbn. unfold bind, log. cbn. now destruct (user_fn f args).
Qed.

(** Applying a value of the caller leaves in the trace the application, or
    nothing when the value is not a function. *)
Lemma call_value_events (f : value) (args : list value) (s : state) :
  exists r evs,
    call_value f args s = (r, add_trace evs s)
    /\ (evs = [] \/ exists l, f = VRef KFun l /\ evs = [EvCall l args]).
Proof.
  destruct f as [| | | | | |k l];
    try (exists (Throw (VErr "TypeError" "not a function")), [];
         rewrite add_trace_nil; split; [reflexivity|now left]).
  destruct k;
    try (exists (Throw (VErr "TypeError" "not a function")), [];
         rewrite add_trace_nil; split; [reflexivity|now left]).
  rewrite call_function_run. eexists _, _. split; [reflexivity|]. right. eauto.
Qed.

Lemma callback_events_call (f : value) (args : list value) (evs : list event) :
  evs = [] \/ (exists l, f = VRef KFun l /\ evs = [EvCall l args]) ->
  Forall callback_event evs.
Proof.
  intros [->|(l & _ & ->)]; [constructor|].
  constructor; [exact I|constructor].
Qed.

(** ** [dropCollection] and [removeCollection] *)

(** The native [removeCollection], called with a value of the caller or the
    wrapper's empty function: one engine call on the given arguments, then
    delivery; it returns [undefined] or throws. *)
Lemma impl_removeCollection_spec (cname prune : value) (cb : cbarg) (s : state) :
  (forall k, cb <> CbWrap k) ->
  exists r evs,
    impl_removeCollection cname prune cb s =
      (r, {| st_heap := st_heap s; st_cursors := st_cursors s;
             st_engine := fst (eng_removeCollection (st_engine s) (st_heap s) [cname; prune]);
             st_trace := st_trace s
               ++ EvImpl "removeCollection" [cname; prune] (describe cb) :: evs |})
    /\ (r = Ok VUndef \/ (is_async cb = false /\ exists e, r = Throw e)).
Proof.
  intros Hcb. unfold impl_removeCollection, bind, log, run_engine. cbn.
  destruct (eng_removeCollection _ _ _) as [e' r]. cbn.
  destruct (is_async cb) eqn:Hasync.
  - match goal with |- context [deliver cb ?a ?st] =>
      destruct (deliver_spec cb a st Hcb) as (evs & ->) end.
    exists (Ok VUndef), evs. split; [|now left].
    unfold add_trace, ret. cbn. now rewrite <- app_assoc.
  - destruct r as [f|].
    + exists (Throw (err_value f)), []. split; [reflexivity|]. right. eauto.
    + exists (Ok VUndef), []. split; [reflexivity|now left].
Qed.

(** What [dropCollection] hands to the native method in callback position
    is never a closure of the wrapper. *)
Lemma dropCollection_unfold (args : list value) :
  exists prune cb,
    dropCollection args = impl_removeCollection (arg args 0) (VBool (truthy prune)) cb
    /\ (forall k, cb <> CbWrap k)
    /\ (length args = 2%nat -> prune = VBool false /\
          cb = if negb (truthy (arg args 1)) then CbNoop else CbVal (arg args 1)).
Proof.
  unfold dropCollection.
  destruct (length args =? 2)%nat eqn:Hlen.
  - exists (VBool false), (if negb (truthy (arg args 1)) then CbNoop else CbVal (arg args 1)).
    split; [reflexivity|]. split; [|easy].
    intros k. now destruct (negb _).
  - exists (arg args 1), (if negb (truthy (arg args 2)) then CbNoop else CbVal (arg args 2)).
    split; [reflexivity|]. split.
    + intros k. now destruct (negb _).
    + intros Hl. apply Nat.eqb_neq in Hlen. contradiction.
Qed.

(** C7: [dropCollection(cname, cb)] with a function [cb] calls the engine
    with [prune] equal to [false] and hands it [cb]; and in every call of
    [dropCollection] the [prune] argument that reaches the engine is a
    boolean. *)
Theorem dropCollection_prune_forwarded :
  (forall (cname : value) (f : loc) (s : state),
     exists evs s',
       dropCollection [cname; VRef KFun f] s = (Ok VUndef, s')
       /\ st_trace s' = st_trace s
            ++ EvImpl "removeCollection" [cname; VBool false] (DVal (VRef KFun f)) :: evs
       /\ st_engine s' =
            fst (eng_removeCollection (st_engine s) (st_heap s) [cname; VBool false]))
  /\ (forall (args : list value) (s : state),
        exists b d evs r s',
          dropCollection args s = (r, s')
          /\ st_trace s' = st_trace s
               ++ EvImpl "removeCollection" [arg args 0; VBool b] d :: evs
          /\ st_engine s' =
               fst (eng_removeCollection (st_engine s) (st_heap s) [arg args 0; VBool b])).
Proof.
  split.
  - intros cname f s.
    destruct (impl_removeCollection_spec cname (VBool false) (CbVal (VRef KFun f)) s)
      as (r & evs & Hrun & Hr); [discriminate|].
    change (dropCollection [cname; VRef KFun f] s)
      with (impl_removeCollection cname (VBool false) (CbVal (VRef KFun f)) s).
    rewrite Hrun. destruct Hr as [->|[Hasync _]]; [|discriminate].
    exists evs. eexists. split; [reflexivity|]. split; reflexivity.
  - intros args s.
    destruct (dropCollection_unfold args) as (prune & cb & -> & Hcb & _).
    destruct (impl_removeCollection_spec (arg args 0) (VBool (truthy prune)) cb s Hcb)
      as (r & evs & Hrun & _).
    exists (truthy prune), (describe cb), evs, r. eexists.
    split; [exact Hrun|]. split; reflexivity.
Qed.

(** C8: [removeCollection] behaves exactly as [dropCollection] on the same
    argument list: same normalisation of [prune] and [cb], same engine call,
    same deliveries and same returned value. *)
Theorem removeCollection_as_dropCollection (args : list value) (s : state) :
  removeCollection args s = dropCollection args s.
Proof.
  unfold removeCollection.
  destruct (dropCollection_unfold args) as (prune & cb & Hd & Hcb & _).
  rewrite Hd.
  destruct (impl_removeCollection_spec (arg args 0) (VBool (truthy prune)) cb s Hcb)
    as (r & evs & Hrun & Hr).
  unfold bind. rewrite Hrun.
  destruct Hr as [->|(_ & e & ->)]; reflexivity.
Qed.

(** ** [parseQueryArgs] *)

Lemma only_allocates_refl (s : state) : only_allocates s s.
Proof. unfold only_allocates. auto. Qed.

Lemma only_allocates_trans (s1 s2 s3 : state) :
  only_allocates s1 s2 -> only_allocates s2 s3 -> only_allocates s1 s3.
Proof.
  intros (Ht1 & He1 & Hc1 & Hh1) (Ht2 & He2 & Hc2 & Hh2).
  unfold only_allocates. repeat split; try congruence. auto.
Qed.

Lemma only_allocates_fresh (s s' : state) (l : loc) :
  only_allocates s s' -> st_heap s' !! l = None -> st_heap s !! l = None.
Proof.
  intros (_ & _ & _ & Hh) Hl.
  destruct (st_heap s !! l) as [c|] eqn:Hs; [|reflexivity].
  apply Hh in Hs. congruence.
Qed.

Lemma slot_ok_later (sup : option loc) (k : kind) (v : value) (s0 s1 s2 s3 : state) :
  only_allocates s0 s1 -> slot_ok sup k v s1 s2 -> only_allocates s2 s3 ->
  slot_ok sup k v s0 s3.
Proof.
  intros H01 Hslot H23. destruct sup as [l|]; [exact Hslot|].
  destruct Hslot as (l & -> & Hnone & Hsome).
  exists l. split; [reflexivity|]. split.
  - eapply only_allocates_fresh; eauto.
  - now apply H23.
Qed.

Lemma alloc_only_allocates (k : kind) (c : cell) (s : state) :
  exists l s', alloc k c s = (Ok (VRef k l), s')
    /\ st_heap s !! l = None /\ st_heap s' = <[l := c]> (st_heap s)
    /\ only_allocates s s'.
Proof.
  destruct (alloc_spec k c s) as (l & Hfresh & Hrun).
  exists l. eexists. split; [exact Hrun|]. split; [exact Hfresh|]. split; [reflexivity|].
  unfold only_allocates. cbn. repeat split.
  intros l' c' Hl'. rewrite heap_lookup_insert_ne; [exact Hl'|congruence].
Qed.

(** One slot of the canonical tuple. *)
Lemma slot_run (sup : option loc) (k : kind) (s : state) :
  exists v s',
    match sup with Some l => ret (VRef k l) | None => alloc k empty_cell end s = (Ok v, s')
    /\ slot_ok sup k v s s' /\ only_allocates s s'.
Proof.
  destruct sup as [l|].
  - exists (VRef k l), s. cbn. split; [reflexivity|]. split; [reflexivity|].
    apply only_allocates_refl.
  - destruct (alloc_only_allocates k empty_cell s) as (l & s' & Hrun & Hfresh & Hheap & Hal).
    exists (VRef k l), s'. split; [exact Hrun|]. split; [|exact Hal].
    exists l. split; [reflexivity|]. split; [exact Hfresh|].
    rewrite Hheap. apply lookup_insert_eq.
Qed.

(** On every documented call shape the code computes the documented tuple. *)
Lemma parseQueryArgs_shape (sh : query_shape) (cb : option loc) :
  parseQueryArgs (shape_args sh cb) = canonical_tuple sh cb.
Proof. destruct sh, cb; reflexivity. Qed.

(** [parseQueryArgs] on a documented call shape, slot by slot. *)
Lemma parseQueryArgs_shape_spec (sh : query_shape) (cb : option loc) (s : state) :
  exists qa s',
    parseQueryArgs (shape_args sh cb) s = (Ok qa, s')
    /\ qa_cname qa = VStr (shape_cname sh)
    /\ slot_ok (shape_qobj sh) KObj (qa_qobj qa) s s'
    /\ slot_ok (shape_orarr sh) KArr (qa_orarr qa) s s'
    /\ slot_ok (shape_hints sh) KObj (qa_hints qa) s s'
    /\ qa_cb qa = cb_value cb
    /\ only_allocates s s'.
Proof.
  rewrite parseQueryArgs_shape.
  unfold canonical_tuple.
  destruct (slot_run (shape_qobj sh) KObj s) as (q & s1 & Hq & Hsq & Ha1).
  destruct (slot_run (shape_orarr sh) KArr s1) as (o & s2 & Ho & Hso & Ha2).
  destruct (slot_run (shape_hints sh) KObj s2) as (h & s3 & Hh & Hsh & Ha3).
  exists (QA (VStr (shape_cname sh)) q o h (cb_value cb)), s3.
  split.
  - unfold new_object, new_array.
    erewrite bind_ok by exact Hq.
    erewrite bind_ok by exact Ho.
    erewrite bind_ok by exact Hh.
    reflexivity.
  - cbn. split; [reflexivity|].
    split; [eapply slot_ok_later; [apply only_allocates_refl|exact Hsq|];
            eapply only_allocates_trans; eauto|].
    split; [eapply slot_ok_later; [exact Ha1|exact Hso|exact Ha3]|].
    split; [eapply slot_ok_later; [eapply only_allocates_trans; eauto|exact Hsh|];
            apply only_allocates_refl|].
    split; [reflexivity|].
    eapply only_allocates_trans; [|exact Ha3].
    eapply only_allocates_trans; eauto.
Qed.

(** C1: on each documented call shape, with or without callback,
    [parseQueryArgs] returns the tuple [[cname, qobj, orarr, hints, cb]]:
    supplied components sit in their slots, an omitted [qobj] or [hints] is
    a new [{}], an omitted [orarr] a new [[]], an omitted [cb] is [null];
    nothing else in the store changes. *)
Theorem parseQueryArgs_canonical (sh : query_shape) (cb : option loc) (s : state) :
  parseQueryArgs (shape_args sh cb) s = canonical_tuple sh cb s
  /\ exists qa s',
       parseQueryArgs (shape_args sh cb) s = (Ok qa, s')
       /\ qa_cname qa = VStr (shape_cname sh)
       /\ slot_ok (shape_qobj sh) KObj (qa_qobj qa) s s'
       /\ slot_ok (shape_orarr sh) KArr (qa_orarr qa) s s'
       /\ slot_ok (shape_hints sh) KObj (qa_hints qa) s s'
       /\ qa_cb qa = cb_value cb
       /\ only_allocates s s'.
Proof.
  split.
  - now rewrite parseQueryArgs_shape.
  - apply parseQueryArgs_shape_spec.
Qed.

(** ** [save] and its [postprocess] *)

Lemma with_heap_id (s : state) : with_heap (st_heap s) s = s.
Proof. now destruct s. Qed.

Lemma strict_eq_true (a b : value) : strict_eq a b = true -> a = b.
Proof.
  unfold strict_eq. intros H.
  destruct a as [| | |[|?]| | |]; destruct b as [| | |[|?]| | |];
    try discriminate; now apply bool_decide_eq_true in H.
Qed.

Lemma cell_at_insert_eq (h : heap) (l : loc) (c : cell) : cell_at (<[l := c]> h) l = c.
Proof. unfold cell_at. now rewrite heap_lookup_insert_eq. Qed.

Lemma cell_at_insert_ne (h : heap) (l l' : loc) (c : cell) :
  l <> l' -> cell_at (<[l := c]> h) l' = cell_at h l'.
Proof. intros Hne. unfold cell_at. now rewrite heap_lookup_insert_ne. Qed.

(** Storing a property changes no element list. *)
Lemma cell_set_elems (h : heap) (d l : loc) (name : string) (x : value) :
  c_elems (cell_at (<[d := cell_set name x (cell_at h d)]> h) l) = c_elems (cell_at h l).
Proof.
  destruct (decide (d = l)) as [->|Hne].
  - now rewrite cell_at_insert_eq.
  - now rewrite cell_at_insert_ne.
Qed.

(** What is stored on an [Error] instance is apart from the objects. *)
Lemma lookup_error_insert (n m : string) (c : cell) (h : heap) (l : loc) :
  error_insert n m c h !! l = h !! l.
Proof. reflexivity. Qed.

Lemma cell_at_error_insert (n m : string) (c : cell) (h : heap) (l : loc) :
  cell_at (error_insert n m c h) l = cell_at h l.
Proof. reflexivity. Qed.

(** An object that took an assignment takes the next one to that name. *)
Lemma can_write_cell_set (c : cell) (name : string) (x : value) :
  can_write c name = true -> can_write (cell_set name x c) name = true.
Proof.
  unfold can_write. cbn [cell_set c_props c_readonly c_extensible].
  intros H. apply andb_prop in H as [Hro _]. rewrite Hro. cbn [andb].
  rewrite lookup_insert_eq. apply orb_true_iff. left.
  apply bool_decide_eq_true. eauto.
Qed.

(** A new ordinary object is as writable as no object at all. *)
Lemma can_write_fresh (h : heap) (lo l : loc) (props : gmap string value)
    (elems : list value) (name : string) :
  h !! lo = None ->
  can_write (cell_at (<[lo := Cell props elems]> h) l) name = can_write (cell_at h l) name.
Proof.
  intros Hfresh. destruct (decide (lo = l)) as [->|Hne].
  - rewrite cell_at_insert_eq. unfold cell_at. rewrite Hfresh. cbn [default].
    unfold can_write. cbn [c_readonly c_extensible empty_cell].
    now rewrite !orb_true_r.
  - now rewrite cell_at_insert_ne.
Qed.

(** What one assignment [so["_id"] = x] does to the store. *)
Lemma heap_set_id (h : heap) (so x : value) (h1 : heap) :
  heap_set_prop h so "_id" x = Some h1 ->
  (forall l, c_elems (cell_at h1 l) = c_elems (cell_at h l))
  /\ (forall l, can_write (cell_at h1 l) "_id" = can_write (cell_at h l) "_id")
  /\ (forall l, (forall kd, so <> VRef kd l) -> h1 !! l = h !! l)
  /\ (forall l, can_write (cell_at h l) "_id" = false -> h1 !! l = h !! l)
  /\ (forall kd d, so = VRef kd d -> can_write (cell_at h d) "_id" = true ->
        id_of h1 d = x).
Proof.
  intros Hset.
  assert (Hsame : h1 = h ->
    (forall l, c_elems (cell_at h1 l) = c_elems (cell_at h l))
    /\ (forall l, can_write (cell_at h1 l) "_id" = can_write (cell_at h l) "_id")
    /\ (forall l, (forall kd, so <> VRef kd l) -> h1 !! l = h !! l)
    /\ (forall l, can_write (cell_at h l) "_id" = false -> h1 !! l = h !! l))
    by (intros ->; auto).
  destruct so as [| |b|n|str|en em|kd d]; cbn [heap_set_prop] in Hset; try discriminate.
  1-3: injection Hset as <-; destruct (Hsame eq_refl) as (H1 & H2 & H3 & H4);
       repeat (split; [assumption|]); intros ? ? ?; discriminate.
  - cbv zeta in Hset. injection Hset as <-.
    split; [|split; [|split; [|split]]].
    + intros l. now destruct (can_write _ _).
    + intros l. now destruct (can_write (error_cell _ _ _) _).
    + intros l _. now destruct (can_write _ _).
    + intros l _. now destruct (can_write _ _).
    + intros ? ? ?. discriminate.
  - cbv zeta in Hset. injection Hset as <-.
    destruct (can_write (cell_at h d) "_id") eqn:Hw.
    + split; [|split; [|split; [|split]]].
      * intros l. apply cell_set_elems.
      * intros l. destruct (decide (d = l)) as [->|Hne].
        -- rewrite cell_at_insert_eq, Hw. now apply can_write_cell_set.
        -- now rewrite cell_at_insert_ne.
      * intros l Hl. rewrite heap_lookup_insert_ne; [reflexivity|].
        intros ->. now apply (Hl kd).
      * intros l Hl. rewrite heap_lookup_insert_ne; [reflexivity|].
        intros ->. congruence.
      * intros kd' d' [= <- <-] _. unfold id_of. rewrite cell_at_insert_eq.
        cbn [cell_set c_props]. now rewrite lookup_insert_eq.
    + repeat (split; [now auto|]). intros kd' d' [= <- <-] Hw'. congruence.
Qed.

(** One iteration of the loop of [postprocess] on the element [so] and the
    identifier [oid]: afterwards an object [so] that takes the assignment
    carries [oid], one that refuses it is as before, and only the cell of
    [so] may differ. *)
Lemma postprocess_iteration (jl ol : loc) (i : nat) (s : state) :
  let so := nth i (c_elems (cell_at (st_heap s) jl)) VUndef in
  let oid := nth i (c_elems (cell_at (st_heap s) ol)) VUndef in
  exists h1,
    postprocess_loop (VRef KArr jl) (VRef KArr ol) (S i) s
      = postprocess_loop (VRef KArr jl) (VRef KArr ol) i (with_heap h1 s)
    /\ (forall l, c_elems (cell_at h1 l) = c_elems (cell_at (st_heap s) l))
    /\ (forall l, can_write (cell_at h1 l) "_id" = can_write (cell_at (st_heap s) l) "_id")
    /\ (forall l, (forall kd, so <> VRef kd l) -> h1 !! l = st_heap s !! l)
    /\ (forall l, can_write (cell_at (st_heap s) l) "_id" = false -> h1 !! l = st_heap s !! l)
    /\ (forall kd d, so = VRef kd d -> can_write (cell_at (st_heap s) d) "_id" = true ->
          id_of h1 d = oid).
Proof.
  intros so oid. cbn [postprocess_loop].
  unfold bind, get_index, get_prop, set_prop, get_heap, set_heap, ret, type_error, throw.
  cbn -[postprocess_loop heap_set_prop heap_get_prop]. fold so. clearbody so.
  remember (nth i (c_elems (cell_at (st_heap s) ol)) VUndef) as x eqn:Hx.
  subst oid.
  assert (Hkeep : postprocess_loop (VRef KArr jl) (VRef KArr ol) i s
                  = postprocess_loop (VRef KArr jl) (VRef KArr ol) i (with_heap (st_heap s) s))
    by now rewrite with_heap_id.
  destruct (loose_null so) eqn:Hnull; cbn -[postprocess_loop heap_set_prop heap_get_prop].
  { exists (st_heap s). split; [exact Hkeep|]. repeat (split; [now auto|]).
    intros kd d Hso. rewrite Hso in Hnull. discriminate. }
  destruct (heap_get_prop (st_heap s) so "_id") as [cur|] eqn:Hcur;
    [|destruct so; discriminate].
  rewrite <- Hx.
  destruct (strict_eq cur x) eqn:Heq; cbn -[postprocess_loop heap_set_prop heap_get_prop].
  { exists (st_heap s). split; [exact Hkeep|]. repeat (split; [now auto|]).
    intros kd d Hso _. apply strict_eq_true in Heq.
    rewrite Hso in Hcur. cbn in Hcur. injection Hcur as <-. exact Heq. }
  rewrite <- Hx.
  destruct (heap_set_prop (st_heap s) so "_id" x) as [h1|] eqn:Hset;
    [|destruct so; discriminate].
  exists h1. split; [reflexivity|]. now apply heap_set_id.
Qed.

(** The whole loop over positions [n - 1 .. 0] runs to completion; an
    object occurring first at position [i < n] that takes the assignment
    ends with the [i]-th identifier, one that refuses it is as before, and
    objects not in the array below [n] are untouched. *)
Lemma postprocess_loop_spec (jl ol : loc) (n : nat) (s : state) :
  let docs := c_elems (cell_at (st_heap s) jl) in
  let oids := c_elems (cell_at (st_heap s) ol) in
  exists h',
    postprocess_loop (VRef KArr jl) (VRef KArr ol) n s = (Ok tt, with_heap h' s)
    /\ (forall l, c_elems (cell_at h' l) = c_elems (cell_at (st_heap s) l))
    /\ (forall l, can_write (cell_at h' l) "_id" = can_write (cell_at (st_heap s) l) "_id")
    /\ (forall l, (forall j kd, (j < n)%nat -> nth j docs VUndef <> VRef kd l) ->
                  h' !! l = st_heap s !! l)
    /\ (forall l, can_write (cell_at (st_heap s) l) "_id" = false -> h' !! l = st_heap s !! l)
    /\ (forall i kd d, (i < n)%nat -> nth i docs VUndef = VRef kd d ->
          (forall j kd', (j < i)%nat -> nth j docs VUndef <> VRef kd' d) ->
          can_write (cell_at (st_heap s) d) "_id" = true ->
          id_of h' d = nth i oids VUndef).
Proof.
  revert s. induction n as [|n IH]; intros s docs oids.
  - exists (st_heap s). cbn. rewrite with_heap_id.
    split; [reflexivity|]. split; [reflexivity|]. split; [reflexivity|].
    split; [reflexivity|]. split; [reflexivity|]. lia.
  - destruct (postprocess_iteration jl ol n s)
      as (h1 & Hrun & Helems & Hcw & Hframe & Hro & Hid).
    destruct (IH (with_heap h1 s)) as (h2 & Hrun2 & Helems2 & Hcw2 & Hframe2 & Hro2 & Hid2).
    cbn [st_heap with_heap] in *.
    exists h2. split; [now rewrite Hrun, Hrun2|].
    split; [intros l; now rewrite Helems2, Helems|].
    split; [intros l; now rewrite Hcw2, Hcw|].
    rewrite !Helems in *. fold docs oids in Hframe, Hid, Hframe2, Hid2.
    split; [|split].
    + intros l Hl. rewrite Hframe2, Hframe; [reflexivity| |].
      * intros kd. apply Hl. lia.
      * intros j kd Hj. apply Hl. lia.
    + intros l Hl. rewrite Hro2, Hro; [reflexivity|exact Hl|]. now rewrite Hcw.
    + intros i kd d Hi Hdoc Hfirst Hw.
      destruct (decide (i = n)) as [->|Hne].
      * unfold id_of, cell_at. rewrite Hframe2 by exact Hfirst.
        now apply (Hid kd).
      * apply (Hid2 i kd); [lia|exact Hdoc|exact Hfirst|]. now rewrite Hcw.
Qed.

Lemma or_else_spec (v : value) (k : kind) (c : cell) (s : state) :
  exists o s1, or_else v (alloc k c) s = (Ok o, s1) /\ only_allocates s s1
    /\ truthy o = true.
Proof.
  unfold or_else. destruct (truthy v) eqn:Hv.
  - exists v, s. split; [reflexivity|]. split; [apply only_allocates_refl|exact Hv].
  - destruct (alloc_only_allocates k c s) as (l & s' & Hrun & _ & _ & Hal).
    exists (VRef k l), s'. split; [exact Hrun|]. split; [exact Hal|reflexivity].
Qed.

(** Creating the default object changes the writability of nothing. *)
Lemma or_else_can_write (v : value) (s : state) (o : value) (s1 : state)
    (l : loc) (name : string) :
  or_else v new_object s = (Ok o, s1) ->
  can_write (cell_at (st_heap s1) l) name = can_write (cell_at (st_heap s) l) name.
Proof.
  unfold or_else, new_object. destruct (truthy v).
  - intros [= _ <-]. reflexivity.
  - destruct (alloc_spec KObj empty_cell s) as (lo & Hfresh & ->).
    intros [= _ <-]. cbn [st_heap]. now apply can_write_fresh.
Qed.

(** An object that refuses an assignment is an object of the store. *)
Lemma refusing_is_Some (h : heap) (l : loc) (name : string) :
  can_write (cell_at h l) name = false -> is_Some (h !! l).
Proof.
  unfold cell_at. destruct (h !! l) as [c|]; [eauto|].
  unfold can_write. cbn. now rewrite orb_true_r.
Qed.

(** The native [save] called without a callback, the engine accepting. *)
Lemma impl_save_sync (cname jsarr o : value) (s : state) e' (oids : list value) :
  eng_save (st_engine s) (st_heap s) [cname; jsarr; o] = (e', inr oids) ->
  exists lo, st_heap s !! lo = None /\
    impl_save cname jsarr o (CbVal VUndef) s =
      (Ok (VRef KArr lo),
       {| st_heap := <[lo := Cell ∅ oids]> (st_heap s); st_cursors := st_cursors s;
          st_engine := e';
          st_trace := st_trace s ++ [EvImpl "save" [cname; jsarr; o] (DVal VUndef)] |}).
Proof.
  intros Heng.
  destruct (heap_alloc_spec (Cell ∅ oids) (st_heap s)) as (lo & Hlo & Hfresh).
  exists lo. split; [exact Hfresh|].
  unfold impl_save, bind, log, run_engine. cbn. rewrite Heng. cbn.
  unfold new_array, alloc, bind, get_heap, set_heap, ret. cbn. now rewrite Hlo.
Qed.

(** The native [save] called with a closure of the wrapper, the engine
    accepting: the closure receives [(null, oids)] once the call returned. *)
Lemma impl_save_async (cname jsarr o : value) (k : list value -> M unit)
    (s : state) e' (oids : list value) :
  eng_save (st_engine s) (st_heap s) [cname; jsarr; o] = (e', inr oids) ->
  exists lo, st_heap s !! lo = None /\
    impl_save cname jsarr o (CbWrap k) s =
      let s2 := {| st_heap := <[lo := Cell ∅ oids]> (st_heap s); st_cursors := st_cursors s;
                   st_engine := e';
                   st_trace := st_trace s ++ [EvImpl "save" [cname; jsarr; o] DWrap] |} in
      match k [VNull; VRef KArr lo] s2 with
      | (Ok _, s3) => (Ok VUndef, s3)
      | (Throw e, s3) => (Ok VUndef, add_trace [EvUncaught e] s3)
      end.
Proof.
  intros Heng.
  destruct (heap_alloc_spec (Cell ∅ oids) (st_heap s)) as (lo & Hlo & Hfresh).
  exists lo. split; [exact Hfresh|].
  unfold impl_save, bind, log, run_engine. cbn. rewrite Heng. cbn.
  unfold new_array, alloc, bind, get_heap, set_heap, ret. cbn. rewrite Hlo. cbn.
  unfold deliver. cbn.
  destruct (k _ _) as [[[]|e] s3]; reflexivity.
Qed.

(** [postprocess] on two arrays runs to completion and stamps every object
    of the document array that takes the assignment with the identifier of
    its first position. *)
Lemma postprocess_spec (jl ol : loc) (s : state) :
  let docs := c_elems (cell_at (st_heap s) jl) in
  let oids := c_elems (cell_at (st_heap s) ol) in
  exists h',
    postprocess (VRef KArr jl) (VRef KArr ol) s = (Ok tt, with_heap h' s)
    /\ (forall l, c_elems (cell_at h' l) = c_elems (cell_at (st_heap s) l))
    /\ (forall l, (forall j kd, nth j docs VUndef <> VRef kd l) -> h' !! l = st_heap s !! l)
    /\ (forall l, can_write (cell_at (st_heap s) l) "_id" = false -> h' !! l = st_heap s !! l)
    /\ (forall i kd d, nth i docs VUndef = VRef kd d -> first_occurrence docs i d ->
          can_write (cell_at (st_heap s) d) "_id" = true ->
          id_of h' d = nth i oids VUndef).
Proof.
  intros docs oids.
  destruct (postprocess_loop_spec jl ol (length docs) s)
    as (h' & Hrun & Helems & _ & Hframe & Hro & Hid).
  exists h'. split; [|split; [exact Helems|split; [|split; [exact Hro|]]]].
  - unfold postprocess, bind, get_heap. cbn. exact Hrun.
  - intros l Hl. apply Hframe. intros j kd _. apply Hl.
  - intros i kd d Hdoc Hfirst Hw. apply (Hid i kd); [|exact Hdoc|exact Hfirst|exact Hw].
    destruct (Nat.lt_ge_cases i (length docs)) as [Hlt|Hge]; [exact Hlt|].
    fold docs in Hdoc. rewrite nth_overflow in Hdoc by exact Hge. discriminate.
Qed.

(** [postprocess] right after the native layer has stored the engine's
    identifiers in a new array at [lo]. *)
Lemma postprocess_after_alloc (l lo : loc) (s1 : state) (c : cell)
    (oids : list value) e' (tr : list event) :
  st_heap s1 !! l = Some c ->
  st_heap s1 !! lo = None ->
  let s2 := {| st_heap := <[lo := Cell ∅ oids]> (st_heap s1); st_cursors := st_cursors s1;
               st_engine := e'; st_trace := tr |} in
  exists h',
    postprocess (VRef KArr l) (VRef KArr lo) s2 = (Ok tt, with_heap h' s2)
    /\ c_elems (cell_at h' lo) = oids
    /\ c_elems (cell_at h' l) = c_elems c
    /\ (forall d, can_write (cell_at (st_heap s1) d) "_id" = false ->
          h' !! d = st_heap s1 !! d)
    /\ (forall i kd d, nth i (c_elems c) VUndef = VRef kd d ->
          first_occurrence (c_elems c) i d ->
          can_write (cell_at (st_heap s1) d) "_id" = true ->
          id_of h' d = nth i oids VUndef).
Proof.
  intros Hl Hlo s2.
  assert (Hne : lo <> l) by congruence.
  destruct (postprocess_spec l lo s2) as (h' & Hrun & Helems & _ & Hro & Hid).
  cbn [st_heap s2] in Helems, Hid, Hro.
  rewrite cell_at_insert_eq in Hid. rewrite cell_at_insert_ne in Hid by exact Hne.
  assert (Hc : cell_at (st_heap s1) l = c) by (unfold cell_at; now rewrite Hl).
  rewrite Hc in Hid. cbn [c_elems] in Hid.
  exists h'. split; [exact Hrun|]. split; [|split; [|split]].
  - rewrite Helems. now rewrite cell_at_insert_eq.
  - rewrite Helems. rewrite cell_at_insert_ne by exact Hne. now rewrite Hc.
  - intros d Hw. rewrite Hro by (now rewrite (can_write_fresh _ _ _ _ _ _ Hlo)).
    apply heap_lookup_insert_ne. intros ->.
    apply refusing_is_Some in Hw as [c' Hc']. congruence.
  - intros i kd d Hdoc Hfirst Hw. apply (Hid i kd d Hdoc Hfirst).
    now rewrite (can_write_fresh _ _ _ _ _ _ Hlo).
Qed.

(** [save] on an array of documents, the engine accepting with [oids]:
    the outcome in both calling modes. *)
Lemma save_array_spec (args : list value) (l : loc) (s : state)
    (o : value) (s1 : state) e' (oids : list value) :
  arg args 1 = VRef KArr l ->
  is_Some (st_heap s !! l) ->
  or_else (save_opts args) new_object s = (Ok o, s1) ->
  eng_save (st_engine s1) (st_heap s1) [arg args 0; VRef KArr l; o] = (e', inr oids) ->
  let docs := c_elems (cell_at (st_heap s) l) in
  let sync := loose_null (save_cb args) in
  exists lo s' evs,
    save args s = (Ok (if sync then VRef KArr l else VUndef), s')
    /\ st_heap s1 !! lo = None
    /\ c_elems (cell_at (st_heap s') lo) = oids
    /\ c_elems (cell_at (st_heap s') l) = docs
    /\ (forall d, can_write (cell_at (st_heap s) d) "_id" = false ->
          st_heap s' !! d = st_heap s !! d)
    /\ (forall i kd d, nth i docs VUndef = VRef kd d -> first_occurrence docs i d ->
          can_write (cell_at (st_heap s) d) "_id" = true ->
          id_of (st_heap s') d = nth i oids VUndef)
    /\ st_trace s' = st_trace s
         ++ EvImpl "save" [arg args 0; VRef KArr l; o] (if sync then DVal VUndef else DWrap)
         :: evs
    /\ (if sync then evs = []
        else forall f, save_cb args = VRef KFun f ->
               exists evs', evs = EvCall f [VNull; VRef KArr lo] :: evs').
Proof.
  intros Harr [c Hl] Hopts Heng docs sync.
  pose proof (fun d => or_else_can_write _ _ _ _ d "_id" Hopts) as Hcw.
  destruct (or_else_spec (save_opts args) KObj empty_cell s) as (o' & s1' & Hopts' & Hal & _).
  unfold new_object in Hopts. rewrite Hopts in Hopts'. injection Hopts' as <- <-.
  destruct Hal as (Htr1 & Hen1 & Hcu1 & Hh1).
  assert (Hl1 : st_heap s1 !! l = Some c) by now apply Hh1.
  assert (Hdocs : docs = c_elems c) by (unfold docs, cell_at; now rewrite Hl).
  assert (Hro1 : forall d (h' : heap), can_write (cell_at (st_heap s) d) "_id" = false ->
                   h' !! d = st_heap s1 !! d -> h' !! d = st_heap s !! d).
  { intros d h' Hw ->. apply refusing_is_Some in Hw as [c' Hc'].
    rewrite Hc'. now apply Hh1. }
  unfold save. rewrite Harr. cbn [truthy isArray negb].
  unfold save_cb, save_opts in *.
  rewrite (bind_ok _ _ s (VRef KArr l) s) by reflexivity.
  assert (Hsync_case :
    exists lo s' evs,
      (oids0 <- impl_save (arg args 0) (VRef KArr l) o (CbVal VUndef);;
       postprocess (VRef KArr l) oids0;;; ret (VRef KArr l)) s1 = (Ok (VRef KArr l), s')
      /\ st_heap s1 !! lo = None
      /\ c_elems (cell_at (st_heap s') lo) = oids
      /\ c_elems (cell_at (st_heap s') l) = docs
      /\ (forall d, can_write (cell_at (st_heap s) d) "_id" = false ->
            st_heap s' !! d = st_heap s !! d)
      /\ (forall i kd d, nth i docs VUndef = VRef kd d -> first_occurrence docs i d ->
            can_write (cell_at (st_heap s) d) "_id" = true ->
            id_of (st_heap s') d = nth i oids VUndef)
      /\ st_trace s' = st_trace s
           ++ EvImpl "save" [arg args 0; VRef KArr l; o] (DVal VUndef) :: evs
      /\ evs = []).
  { destruct (impl_save_sync _ _ _ _ _ _ Heng) as (lo & Hlo & Hrun).
    destruct (postprocess_after_alloc l lo s1 c oids e'
                (st_trace s1 ++ [EvImpl "save" [arg args 0; VRef KArr l; o] (DVal VUndef)])
                Hl1 Hlo) as (h' & Hpost & Ho & Hd & Hro & Hid).
    exists lo. eexists. exists [].
    split.
    { rewrite (bind_ok _ _ _ _ _ Hrun). rewrite (bind_ok _ _ _ _ _ Hpost). reflexivity. }
    cbn [with_heap st_heap st_trace ret snd]. rewrite Hdocs, Htr1.
    split; [exact Hlo|]. split; [exact Ho|]. split; [exact Hd|].
    split; [intros d Hw; apply (Hro1 d h' Hw), Hro; now rewrite Hcw|].
    split; [intros i kd d Hdoc Hfirst Hw; apply (Hid i kd d Hdoc Hfirst); now rewrite Hcw|].
    split; reflexivity. }
  assert (Hasync_case : forall cb,
    exists lo s' evs,
      impl_save (arg args 0) (VRef KArr l) o (CbWrap (save_callback (VRef KArr l) cb)) s1
        = (Ok VUndef, s')
      /\ st_heap s1 !! lo = None
      /\ c_elems (cell_at (st_heap s') lo) = oids
      /\ c_elems (cell_at (st_heap s') l) = docs
      /\ (forall d, can_write (cell_at (st_heap s) d) "_id" = false ->
            st_heap s' !! d = st_heap s !! d)
      /\ (forall i kd d, nth i docs VUndef = VRef kd d -> first_occurrence docs i d ->
            can_write (cell_at (st_heap s) d) "_id" = true ->
            id_of (st_heap s') d = nth i oids VUndef)
      /\ st_trace s' = st_trace s
           ++ EvImpl "save" [arg args 0; VRef KArr l; o] DWrap :: evs
      /\ (forall f, cb = VRef KFun f ->
            exists evs', evs = EvCall f [VNull; VRef KArr lo] :: evs')).
  { intros cb.
    destruct (impl_save_async _ _ _ (save_callback (VRef KArr l) cb) _ _ _ Heng)
      as (lo & Hlo & Hrun).
    destruct (postprocess_after_alloc l lo s1 c oids e'
                (st_trace s1 ++ [EvImpl "save" [arg args 0; VRef KArr l; o] DWrap])
                Hl1 Hlo) as (h' & Hpost & Ho & Hd & Hro & Hid).
    cbv zeta in Hrun.
    match type of Hrun with context [save_callback _ cb ?a ?st] =>
      assert (Hk : save_callback (VRef KArr l) cb a st
                   = call_value cb [VNull; VRef KArr lo] (with_heap h' st))
        by (unfold save_callback; cbn [arg nth truthy];
            now rewrite (bind_ok _ _ _ _ _ Hpost));
      rewrite Hk in Hrun; clear Hk
    end.
    match type of Hrun with context [call_value cb ?a ?st] =>
      destruct (call_value_spec cb a st) as (r & evs & Hcall);
      pose proof (call_function_run) as Hfn;
      specialize (fun f => Hfn f a st) end.
    rewrite Hcall in Hrun.
    assert (Hfacts : forall s', st_heap s' = h' ->
      c_elems (cell_at (st_heap s') lo) = oids
      /\ c_elems (cell_at (st_heap s') l) = docs
      /\ (forall d, can_write (cell_at (st_heap s) d) "_id" = false ->
            st_heap s' !! d = st_heap s !! d)
      /\ (forall i kd d, nth i docs VUndef = VRef kd d -> first_occurrence docs i d ->
            can_write (cell_at (st_heap s) d) "_id" = true ->
            id_of (st_heap s') d = nth i oids VUndef)).
    { intros s' ->. rewrite Hdocs. split; [exact Ho|]. split; [exact Hd|].
      split; [intros d Hw; apply (Hro1 d h' Hw), Hro; now rewrite Hcw|].
      intros i kd d Hdoc Hfirst Hw; apply (Hid i kd d Hdoc Hfirst); now rewrite Hcw. }
    exists lo.
    destruct r as [[]|e].
    - eexists. exists evs. split; [exact Hrun|]. split; [exact Hlo|].
      destruct (Hfacts (add_trace evs (with_heap h'
                  {| st_heap := <[lo := Cell ∅ oids]> (st_heap s1);
                     st_cursors := st_cursors s1; st_engine := e';
                     st_trace := st_trace s1
                       ++ [EvImpl "save" [arg args 0; VRef KArr l; o] DWrap] |}))
                  eq_refl) as (F1 & F2 & F3 & F4).
      split; [exact F1|]. split; [exact F2|]. split; [exact F3|]. split; [exact F4|].
      cbn [add_trace with_heap st_trace]. rewrite Htr1, <- app_assoc.
      split; [reflexivity|].
      intros f ->. rewrite Hfn in Hcall. injection Hcall as _ Hevs.
      apply app_inv_head in Hevs. subst evs. eauto.
    - eexists. exists (evs ++ [EvUncaught e]). split; [exact Hrun|]. split; [exact Hlo|].
      destruct (Hfacts (add_trace [EvUncaught e] (add_trace evs (with_heap h'
                  {| st_heap := <[lo := Cell ∅ oids]> (st_heap s1);
                     st_cursors := st_cursors s1; st_engine := e';
                     st_trace := st_trace s1
                       ++ [EvImpl "save" [arg args 0; VRef KArr l; o] DWrap] |})))
                  eq_refl) as (F1 & F2 & F3 & F4).
      split; [exact F1|]. split; [exact F2|]. split; [exact F3|]. split; [exact F4|].
      cbn [add_trace with_heap st_trace]. rewrite Htr1, <- !app_assoc.
      split; [reflexivity|].
      intros f ->. rewrite Hfn in Hcall. injection Hcall as _ Hevs.
      apply app_inv_head in Hevs. subst evs. eauto. }
  destruct (String.eqb (typeof (arg args 2)) "function") eqn:Hfun;
    fold sync; destruct sync eqn:Hsync.
  all: unfold new_object; rewrite (bind_ok _ _ _ _ _ Hopts).
  all: try exact Hsync_case.
  all: apply Hasync_case.
Qed.

(** C3: in synchronous mode [save] returns the very array of documents it
    was given (its elements are the documents), while the identifiers the
    engine assigned sit in another, new array that is not returned. *)
Theorem save_sync_returns_documents (args : list value) (l : loc) (s : state)
    (o : value) (s1 : state) e' (oids : list value) :
  arg args 1 = VRef KArr l ->
  is_Some (st_heap s !! l) ->
  loose_null (save_cb args) = true ->
  or_else (save_opts args) new_object s = (Ok o, s1) ->
  eng_save (st_engine s1) (st_heap s1) [arg args 0; VRef KArr l; o] = (e', inr oids) ->
  exists lo s',
    save args s = (Ok (VRef KArr l), s')
    /\ elems_of (st_heap s') (VRef KArr l) = elems_of (st_heap s) (VRef KArr l)
    /\ lo <> l
    /\ elems_of (st_heap s') (VRef KArr lo) = oids.
Proof.
  intros Harr Hl Hsync Hopts Heng.
  destruct (save_array_spec args l s o s1 e' oids Harr Hl Hopts Heng)
    as (lo & s' & evs & Hrun & Hlo & Ho & Hd & _).
  rewrite Hsync in Hrun.
  exists lo, s'. split; [exact Hrun|]. split; [exact Hd|]. split; [|exact Ho].
  intros ->. destruct Hl as [c Hl].
  destruct (or_else_spec (save_opts args) KObj empty_cell s) as (o' & s1' & Hopts' & Hal & _).
  unfold new_object in Hopts. rewrite Hopts in Hopts'. injection Hopts' as <- <-.
  destruct Hal as (_ & _ & _ & Hh). apply Hh in Hl. congruence.
Qed.

(** C4 (amended): after a successful [save] of an array of documents, in
    synchronous and in callback mode, every object of the array that takes
    the assignment of [_id] carries as [_id] the identifier the engine
    produced for the first position at which that object occurs (when no
    object occurs twice, the identifier of its own position); an object
    that refuses the assignment, a frozen one for instance, is exactly as
    it was. *)
Theorem save_stamps_first_occurrence (args : list value) (l : loc) (s : state)
    (o : value) (s1 : state) e' (oids : list value) :
  arg args 1 = VRef KArr l ->
  is_Some (st_heap s !! l) ->
  or_else (save_opts args) new_object s = (Ok o, s1) ->
  eng_save (st_engine s1) (st_heap s1) [arg args 0; VRef KArr l; o] = (e', inr oids) ->
  let docs := elems_of (st_heap s) (VRef KArr l) in
  exists r s',
    save args s = (Ok r, s')
    /\ r = (if loose_null (save_cb args) then VRef KArr l else VUndef)
    /\ elems_of (st_heap s') (VRef KArr l) = docs
    /\ forall i kd d,
         nth i docs VUndef = VRef kd d ->
         first_occurrence docs i d ->
         if can_write (cell_at (st_heap s) d) "_id"
         then id_of (st_heap s') d = nth i oids VUndef
         else st_heap s' !! d = st_heap s !! d.
Proof.
  intros Harr Hl Hopts Heng docs.
  destruct (save_array_spec args l s o s1 e' oids Harr Hl Hopts Heng)
    as (lo & s' & evs & Hrun & _ & _ & Hd & Hro & Hid & _).
  eexists. exists s'. split; [exact Hrun|]. split; [reflexivity|].
  split; [exact Hd|].
  intros i kd d Hdoc Hfirst.
  destruct (can_write (cell_at (st_heap s) d) "_id") eqn:Hw.
  - now apply (Hid i kd).
  - now apply Hro.
Qed.

(** ** What [save] does around its engine call *)

Lemma with_heap_same (s : state) : with_heap (st_heap s) s = s.
Proof. now destruct s. Qed.

Lemma with_heap_twice (h h' : heap) (s : state) :
  with_heap h' (with_heap h s) = with_heap h' s.
Proof. reflexivity. Qed.

Lemma get_index_state (v : value) (i : nat) (s : state) :
  exists r, get_index v i s = (r, s).
Proof.
  unfold get_index, bind, get_heap. cbn.
  destruct (heap_get_index _ _ _); eexists; reflexivity.
Qed.

Lemma get_prop_state (v : value) (name : string) (s : state) :
  exists r, get_prop v name s = (r, s).
Proof.
  unfold get_prop, bind, get_heap. cbn.
  destruct (heap_get_prop _ _ _); eexists; reflexivity.
Qed.

Lemma set_prop_state (v : value) (name : string) (x : value) (s : state) :
  exists r h', set_prop v name x s = (r, with_heap h' s).
Proof.
  unfold set_prop, bind, get_heap. cbn.
  destruct (heap_set_prop _ _ _ _) as [h'|].
  - now exists (Ok tt), h'.
  - eexists _, (st_heap s). now rewrite with_heap_same.
Qed.

(** Whatever the two values are, the loop of [postprocess] touches the
    store only: no engine call, no event, no cursor. *)
Lemma postprocess_loop_state (jsarr oids : value) (n : nat) (s : state) :
  exists r h', postprocess_loop jsarr oids n s = (r, with_heap h' s).
Proof.
  revert s. induction n as [|i IH]; intros s.
  - exists (Ok tt), (st_heap s). now rewrite with_heap_same.
  - cbn [postprocess_loop]. unfold bind at 1.
    destruct (get_index_state jsarr i s) as ([so|e] & ->);
      [|exists (Throw e), (st_heap s); now rewrite with_heap_same].
    unfold bind at 1.
    match goal with |- context [match ?m s with _ => _ end] =>
      assert (Hstep : exists r h', m s = (r, with_heap h' s)) end.
    { destruct (negb (loose_null so));
        [|exists (Ok tt), (st_heap s); now rewrite with_heap_same].
      unfold bind at 1. destruct (get_prop_state so "_id" s) as ([cur|e] & ->);
        [|exists (Throw e), (st_heap s); now rewrite with_heap_same].
      unfold bind at 1. destruct (get_index_state oids i s) as ([oid|e] & Hoid); rewrite Hoid;
        [|exists (Throw e), (st_heap s); now rewrite with_heap_same].
      destruct (negb (strict_eq cur oid));
        [|exists (Ok tt), (st_heap s); now rewrite with_heap_same].
      unfold bind. rewrite Hoid. apply set_prop_state. }
    destruct Hstep as ([[]|e] & h' & ->); [|now exists (Throw e), h'].
    destruct (IH (with_heap h' s)) as (r & h'' & ->). now exists r, h''.
Qed.

Lemma postprocess_state (jsarr oids : value) (s : state) :
  exists r h', postprocess jsarr oids s = (r, with_heap h' s).
Proof. unfold postprocess, bind, get_heap. cbn. apply postprocess_loop_state. Qed.

(** The closure of [save]: it touches the store and applies the caller's
    value once; given an error it applies it to that error and leaves the
    store alone. *)
Lemma save_callback_run (jsarr cb : value) (a : list value) (s : state) :
  exists r h' evs,
    save_callback jsarr cb a s = (r, add_trace evs (with_heap h' s))
    /\ Forall callback_event evs
    /\ (truthy (arg a 0) = true ->
        h' = st_heap s
        /\ forall cbl, cb = VRef KFun cbl ->
             evs = [EvCall cbl [arg a 0]]
             /\ r = match user_fn cbl [arg a 0] with Some e => Throw e | None => Ok tt end).
Proof.
  unfold save_callback. destruct (truthy (arg a 0)) eqn:Herr.
  - destruct (call_value_events cb [arg a 0] s) as (r & evs & Hrun & Hevs).
    exists r, (st_heap s), evs. rewrite with_heap_same.
    split; [exact Hrun|]. split; [now apply (callback_events_call cb [arg a 0])|].
    intros _. split; [reflexivity|]. intros cbl ->.
    rewrite call_function_run in Hrun. injection Hrun as <- Htr.
    apply app_inv_head in Htr. now subst evs.
  - unfold bind. destruct (postprocess_state jsarr (arg a 1) s) as ([[]|e] & h' & ->).
    + destruct (call_value_events cb [VNull; arg a 1] (with_heap h' s)) as (r & evs & Hrun & Hevs).
      exists r, h', evs. split; [exact Hrun|].
      split; [now apply (callback_events_call cb [VNull; arg a 1])|]. discriminate.
    + exists (Throw e), h', []. rewrite add_trace_nil. split; [reflexivity|].
      split; [constructor|discriminate].
Qed.

(** [save] of a document or an array of documents: the array it hands to
    the engine, the single engine call, and what follows it.  When the
    engine refuses, the store stays as it was at the call, and the failure
    is thrown (no callback) or handed to the callback. *)
Lemma save_run (args : list value) (s : state) (jsarr : value) (sa : state)
    (o : value) (s1 : state) :
  truthy (arg args 1) = true ->
  (if negb (isArray (arg args 1)) then new_array [arg args 1] else ret (arg args 1)) s
    = (Ok jsarr, sa) ->
  or_else (save_opts args) new_object sa = (Ok o, s1) ->
  let call := [arg args 0; jsarr; o] in
  let answer := eng_save (st_engine s) (st_heap s1) call in
  exists r h' evs,
    save args s
      = (r, after_call h' (fst answer)
              (EvImpl "save" call (if loose_null (save_cb args) then DVal VUndef else DWrap)
               :: evs) s)
    /\ Forall callback_event evs
    /\ heap_extends (st_heap s) (st_heap s1)
    /\ forall f, snd answer = inl f ->
         h' = st_heap s1
         /\ (loose_null (save_cb args) = true -> r = Throw (err_value f) /\ evs = [])
         /\ (forall cbl, save_cb args = VRef KFun cbl ->
               r = Ok VUndef
               /\ exists evs', evs = EvCall cbl [err_value f] :: evs'
                    /\ (evs' = [] \/ exists e, evs' = [EvUncaught e])).
Proof.
  intros Hdoc Hwrap Hopts call answer.
  assert (Hsa : only_allocates s sa).
  { destruct (isArray (arg args 1)); cbn [negb] in Hwrap.
    - injection Hwrap as _ <-. apply only_allocates_refl.
    - destruct (alloc_only_allocates KArr (Cell ∅ [arg args 1]) s)
        as (l & sa' & Hrun & _ & _ & Hal).
      unfold new_array in Hwrap. rewrite Hrun in Hwrap. now injection Hwrap as _ <-. }
  assert (Hs1 : only_allocates sa s1).
  { destruct (or_else_spec (save_opts args) KObj empty_cell sa) as (o' & s1' & Hrun & Hal & _).
    unfold new_object in Hopts. rewrite Hrun in Hopts. now injection Hopts as _ <-. }
  destruct (only_allocates_trans _ _ _ Hsa Hs1) as (Htr & Hen & Hcu & Hext).
  unfold save. rewrite Hdoc. cbn [negb]. rewrite (bind_ok _ _ _ _ _ Hwrap).
  fold (save_cb args) (save_opts args).
  replace (if String.eqb (typeof (arg args 2)) "function" then (arg args 2, VNull)
           else (arg args 3, arg args 2))
    with (save_cb args, save_opts args)
    by (unfold save_cb, save_opts; now destruct (String.eqb _ _)).
  cbv beta iota.
  destruct (loose_null (save_cb args)) eqn:Hcb.
  - rewrite (bind_ok _ _ _ _ _ Hopts).
    unfold bind at 1. unfold impl_save.
    change (is_async (CbVal VUndef)) with false. cbv iota.
    unfold bind, log, run_engine.
    cbn [st_heap st_engine st_trace st_cursors describe].
    rewrite Hen. fold call. fold answer. destruct answer as [e' [f|oids]] eqn:Hans; cbn [fst snd].
    + exists (Throw (err_value f)), (st_heap s1), [].
      split; [unfold after_call; now rewrite Htr, Hcu|].
      split; [constructor|]. split; [exact Hext|].
      intros f' [= <-]. split; [reflexivity|]. split; [now split|].
      intros cbl Hfun. rewrite Hfun in Hcb. discriminate.
    + unfold new_array.
      match goal with |- context [alloc KArr ?c ?st] =>
        destruct (alloc_spec KArr c st) as (lo & _ & ->) end.
      match goal with |- context [postprocess ?j ?v ?st] =>
        destruct (postprocess_state j v st) as (r & h' & ->) end.
      exists (match r with Ok _ => Ok jsarr | Throw e => Throw e end), h', [].
      split; [destruct r; unfold after_call, with_heap, ret; cbn; now rewrite Htr, Hcu|].
      split; [constructor|]. split; [exact Hext|]. discriminate.
  - rewrite (bind_ok _ _ _ _ _ Hopts).
    unfold impl_save, bind, log, run_engine.
    cbn [st_heap st_engine st_trace st_cursors is_async describe].
    rewrite Hen. fold call. fold answer. destruct answer as [e' [f|oids]] eqn:Hans; cbn [fst snd].
    + rewrite deliver_wrap.
      match goal with |- context [save_callback ?j ?c ?a ?st] =>
        destruct (save_callback_run j c a st) as (r & h' & evs & -> & Hevs & Herr) end.
      cbn [arg nth err_value truthy] in Herr. destruct (Herr eq_refl) as (-> & Hfun).
      exists (Ok VUndef), (st_heap s1),
        (match r with Ok _ => evs | Throw e => evs ++ [EvUncaught e] end).
      split.
      { destruct r; unfold after_call, add_trace, with_heap, ret; cbn;
          rewrite Htr, Hcu, <- ?app_assoc; reflexivity. }
      split.
      { destruct r; [exact Hevs|]. apply Forall_app. split; [exact Hevs|].
        constructor; [exact I|constructor]. }
      split; [exact Hext|].
      intros f' [= <-]. split; [reflexivity|]. split; [discriminate|].
      intros cbl Hfun'. destruct (Hfun cbl Hfun') as (-> & ->).
      split; [reflexivity|]. destruct (user_fn cbl _) as [e|]; eauto.
    + unfold new_array.
      match goal with |- context [alloc KArr ?c ?st] =>
        destruct (alloc_spec KArr c st) as (lo & _ & ->) end.
      rewrite deliver_wrap.
      match goal with |- context [save_callback ?j ?c ?a ?st] =>
        destruct (save_callback_run j c a st) as (r & h' & evs & -> & Hevs & _) end.
      exists (Ok VUndef), h',
        (match r with Ok _ => evs | Throw e => evs ++ [EvUncaught e] end).
      split.
      { destruct r; unfold after_call, add_trace, with_heap, ret; cbn;
          rewrite Htr, Hcu, <- ?app_assoc; reflexivity. }
      split.
      { destruct r; [exact Hevs|]. apply Forall_app. split; [exact Hevs|].
        constructor; [exact I|constructor]. }
      split; [exact Hext|]. discriminate.
Qed.

(** [save] when the engine refuses the call it makes: thrown without a
    callback, handed to the callback when it is a function. *)
Lemma save_failure (args : list value) (s : state) (jsarr : value) (sa : state)
    (o : value) (s1 : state) (f : failure) :
  truthy (arg args 1) = true ->
  (if negb (isArray (arg args 1)) then new_array [arg args 1] else ret (arg args 1)) s
    = (Ok jsarr, sa) ->
  or_else (save_opts args) new_object sa = (Ok o, s1) ->
  let call := [arg args 0; jsarr; o] in
  snd (eng_save (st_engine s) (st_heap s1) call) = inl f ->
  (loose_null (save_cb args) = true ->
   failure_thrown (save args) s (EvImpl "save" call (DVal VUndef)) f)
  /\ (forall cbl, save_cb args = VRef KFun cbl ->
        failure_delivered (save args) s (EvImpl "save" call DWrap) cbl f []).
Proof.
  intros Hdoc Hwrap Hopts call Hfail.
  destruct (save_run args s jsarr sa o s1 Hdoc Hwrap Hopts)
    as (r & h' & evs & Hrun & _ & _ & Hrefused).
  destruct (Hrefused f Hfail) as (-> & Hsync & Hasync). split.
  - intros Hcb. destruct (Hsync Hcb) as (-> & ->). rewrite Hcb in Hrun.
    eexists. split; [exact Hrun|reflexivity].
  - intros cbl Hcb. destruct (Hasync cbl Hcb) as (-> & evs' & -> & Hevs).
    rewrite Hcb in Hrun. cbn [loose_null] in Hrun.
    eexists _, evs'. split; [exact Hrun|]. split; [reflexivity|exact Hevs].
Qed.

(** C10: with a [null] or [undefined] document argument [save] returns a
    new empty array at once, with no engine call, no callback and no error;
    and a document that is not an array is first wrapped into a new
    one-element array, after which [save] proceeds exactly as a call on
    that array: the engine is called once, on the collection name, that
    array, which holds the document and nothing else, and the options. *)
Theorem save_null_and_single_document :
  (forall (args : list value) (s : state),
     loose_null (arg args 1) = true ->
     exists l,
       st_heap s !! l = None
       /\ save args s = (Ok (VRef KArr l), with_heap (<[l := Cell ∅ []]> (st_heap s)) s))
  /\ (forall (cname doc : value) (rest : list value) (s : state),
        truthy doc = true ->
        isArray doc = false ->
        save (cname :: doc :: rest) s
          = bind (new_array [doc]) (fun arr => save (cname :: arr :: rest)) s
        /\ exists l,
             st_heap s !! l = None
             /\ save (cname :: doc :: rest) s
                = save (cname :: VRef KArr l :: rest)
                    (with_heap (<[l := Cell ∅ [doc]]> (st_heap s)) s))
  /\ (forall (cname doc : value) (rest : list value) (s : state),
        truthy doc = true ->
        isArray doc = false ->
        exists l o s1 r s' evs,
          st_heap s !! l = None
          /\ or_else (save_opts (cname :: doc :: rest)) new_object
                (with_heap (<[l := Cell ∅ [doc]]> (st_heap s)) s) = (Ok o, s1)
          /\ elems_of (st_heap s1) (VRef KArr l) = [doc]
          /\ save (cname :: doc :: rest) s = (r, s')
          /\ st_trace s' = st_trace s
               ++ EvImpl "save" [cname; VRef KArr l; o]
                    (if loose_null (save_cb (cname :: doc :: rest)) then DVal VUndef
                     else DWrap)
               :: evs
          /\ Forall callback_event evs
          /\ st_engine s'
               = fst (eng_save (st_engine s) (st_heap s1) [cname; VRef KArr l; o])).
Proof.
  split; [|split].
  - intros args s Hnull.
    destruct (alloc_spec KArr (Cell ∅ []) s) as (l & Hfresh & Hrun).
    exists l. split; [exact Hfresh|].
    unfold save. destruct (arg args 1); try discriminate; exact Hrun.
  - intros cname doc rest s Htruthy Harr.
    destruct (alloc_spec KArr (Cell ∅ [doc]) s) as (l & Hfresh & Hrun).
    assert (Heq : save (cname :: doc :: rest) s
                  = save (cname :: VRef KArr l :: rest)
                      (with_heap (<[l := Cell ∅ [doc]]> (st_heap s)) s)).
    { unfold save. cbn [arg nth]. rewrite Htruthy, Harr. cbn [negb truthy isArray].
      unfold new_array. rewrite (bind_ok _ _ _ _ _ Hrun). reflexivity. }
    split.
    + rewrite Heq. unfold new_array. now rewrite (bind_ok _ _ _ _ _ Hrun).
    + exists l. split; [exact Hfresh|exact Heq].
  - intros cname doc rest s Htruthy Harr.
    destruct (alloc_spec KArr (Cell ∅ [doc]) s) as (l & Hfresh & Hrun).
    destruct (or_else_spec (save_opts (cname :: doc :: rest)) KObj empty_cell
                (with_heap (<[l := Cell ∅ [doc]]> (st_heap s)) s))
      as (o & s1 & Hopts & (_ & _ & _ & Hext) & _).
    destruct (save_run (cname :: doc :: rest) s (VRef KArr l)
                (with_heap (<[l := Cell ∅ [doc]]> (st_heap s)) s) o s1)
      as (r & h' & evs & Hsave & Hevs & _); [exact Htruthy| |exact Hopts|].
    { cbn [arg nth]. rewrite Harr. exact Hrun. }
    cbn [arg nth] in Hsave.
    exists l, o, s1, r. eexists _, evs. split; [exact Hfresh|]. split; [exact Hopts|].
    split.
    { cbn [elems_of]. unfold cell_at.
      rewrite (Hext l (Cell ∅ [doc])); [reflexivity|]. apply heap_lookup_insert_eq. }
    split; [exact Hsave|]. split; [reflexivity|]. split; [exact Hevs|reflexivity].
Qed.

(** ** The query functions *)

(** Whatever the argument list, a tuple returned by [parseQueryArgs] has
    the collection name first and truthy values in its three middle slots,
    and parsing only allocates. *)
Lemma parseQueryArgs_inv (args : list value) (s : state) (qa : query_args) (s1 : state) :
  parseQueryArgs args s = (Ok qa, s1) ->
  typeof (arg args 0) = "string"
  /\ qa_cname qa = arg args 0
  /\ truthy (qa_qobj qa) = true
  /\ truthy (qa_orarr qa) = true
  /\ truthy (qa_hints qa) = true
  /\ only_allocates s s1.
Proof.
  unfold parseQueryArgs.
  destruct (String.eqb (typeof (arg args 0)) "string") eqn:Hname; cbn [negb];
    [|discriminate].
  apply String.eqb_eq in Hname.
  match goal with
  | |- context [match ?t with (_, _) => _ end] =>
      destruct t as [[orarr hints] cb]
  end.
  match goal with
  | |- context [or_else ?v new_object] =>
      destruct (or_else_spec v KObj empty_cell s) as (q & sa & Hq & Ha & Htq)
  end.
  destruct (or_else_spec orarr KArr (Cell ∅ []) sa) as (o & sb & Ho & Hb & Hto).
  destruct (or_else_spec hints KObj empty_cell sb) as (h & sc & Hh & Hc & Hth).
  unfold new_object, new_array.
  rewrite (bind_ok _ _ _ _ _ Hq), (bind_ok _ _ _ _ _ Ho), (bind_ok _ _ _ _ _ Hh).
  intros [= <- <-]. cbn.
  repeat split; auto.
  all: try (apply (only_allocates_trans s sa sc); [exact Ha|];
            apply (only_allocates_trans sa sb sc); assumption).
Qed.

Lemma typeof_function (v : value) :
  String.eqb (typeof v) "function" = true -> exists l, v = VRef KFun l.
Proof. destruct v as [| | | | | |[] l]; cbn; try discriminate. eauto. Qed.

(** The [cb] slot of the parsed tuple holds [null] or a function. *)
Lemma parseQueryArgs_cb (args : list value) (s : state) (qa : query_args) (s1 : state) :
  parseQueryArgs args s = (Ok qa, s1) ->
  qa_cb qa = VNull \/ exists cbl, qa_cb qa = VRef KFun cbl.
Proof.
  unfold parseQueryArgs.
  destruct (negb (String.eqb (typeof (arg args 0)) "string")); [discriminate|].
  set (a1 := arg args 1). set (a2 := arg args 2).
  match goal with
  | |- context [match ?t with (_, _) => _ end] =>
      assert (Htuple : snd t = VUndef \/ String.eqb (typeof (snd t)) "function" = true);
      [|destruct t as [[orarr hints] cb]]
  end.
  { destruct (String.eqb (typeof a1) "function") eqn:Hf1;
      destruct (strict_eq a2 VUndef); cbn [negb fst snd]; auto;
      destruct (isArray a2) eqn:Harr; cbn [negb fst snd truthy andb];
      try destruct (String.eqb (typeof a2) "object") eqn:Hobj2; cbn [negb fst snd truthy andb];
      try destruct (truthy a2) eqn:Ht2; cbn [negb fst snd andb];
      repeat match goal with
        | |- context [String.eqb (typeof ?v) ?k] =>
            lazymatch goal with
            | H : String.eqb (typeof v) k = _ |- _ => rewrite H
            | _ => let E := fresh "E" in destruct (String.eqb (typeof v) k) eqn:E
            end; cbn [negb fst snd andb]
        end;
      auto. }
  cbn [snd] in Htuple.
  destruct (or_else_spec (if String.eqb (typeof a1) "function" then VUndef else a1)
              KObj empty_cell s) as (q0 & sa & Hq & _).
  destruct (or_else_spec orarr KArr (Cell ∅ []) sa) as (o0 & sb & Ho & _).
  destruct (or_else_spec hints KObj empty_cell sb) as (h0 & sc & Hh0 & _).
  unfold new_object, new_array.
  rewrite (bind_ok _ _ _ _ _ Hq), (bind_ok _ _ _ _ _ Ho), (bind_ok _ _ _ _ _ Hh0).
  intros [= <- _]. cbn [qa_cb]. unfold js_or.
  destruct Htuple as [->|Hfun]; [now left|].
  apply typeof_function in Hfun as [l ->]. cbn [truthy]. eauto.
Qed.

Lemma new_cursor_spec (records : list json) (s : state) :
  exists lc, st_heap s !! lc = None /\
    new_cursor records s =
      (Ok (VRef KObj lc),
       {| st_heap := <[lc := empty_cell]> (st_heap s);
          st_cursors := <[lc := Cursor records 0 false]> (st_cursors s);
          st_engine := st_engine s; st_trace := st_trace s |}).
Proof.
  destruct (alloc_spec KObj empty_cell s) as (lc & Hfresh & Hrun).
  exists lc. split; [exact Hfresh|].
  unfold new_cursor, new_object. now rewrite (bind_ok _ _ _ _ _ Hrun).
Qed.

(** The native [query] called without a function in callback position:
    one engine call, then the failure is thrown, or the count or a new
    cursor is returned. *)
Lemma impl_query_sync (cname ql flags cbv : value) (s : state) :
  String.eqb (typeof cbv) "function" = false ->
  impl_query cname ql flags (CbVal cbv) s =
    let call := [cname; ql; flags] in
    let er := eng_query (st_engine s) (st_heap s) call in
    let s1 := {| st_heap := st_heap s; st_cursors := st_cursors s; st_engine := fst er;
                 st_trace := st_trace s ++ [EvImpl "query" call (DVal cbv)] |} in
    match snd er with
    | inl f => (Throw (err_value f), s1)
    | inr q =>
        if count_only flags then (Ok (VNum (Int (qr_count q))), s1)
        else new_cursor (qr_records q) s1
    end.
Proof.
  intros Hsync. unfold impl_query, bind, log, run_engine. cbn. rewrite Hsync.
  destruct (eng_query _ _ _) as [e' [f|q]]; cbn; [reflexivity|].
  now destruct (count_only flags).
Qed.

Lemma count_only_flag : JBQRYCOUNT <> 0 -> count_only (VNum (Int JBQRYCOUNT)) = true.
Proof.
  intros Hnz. cbn. rewrite Z.land_diag. apply negb_true_iff. now apply Z.eqb_neq.
Qed.

Lemma count_only_zero : count_only (VNum (Int 0)) = false.
Proof. reflexivity. Qed.

(** Reading a property of a truthy value never fails. *)
Lemma heap_get_prop_truthy (h : heap) (v : value) (name : string) :
  truthy v = true -> exists x, heap_get_prop h v name = Some x.
Proof. destruct v; try discriminate; cbn; eauto. Qed.

(** A property read is not disturbed by a later allocation. *)
Lemma heap_get_prop_alloc (h : heap) (l : loc) (elems : list value) (v : value)
    (name : string) :
  h !! l = None ->
  heap_get_prop (<[l := Cell ∅ elems]> h) v name = heap_get_prop h v name.
Proof.
  intros Hfresh. destruct v as [| | | | | |k d]; try reflexivity. cbn.
  destruct (decide (l = d)) as [->|Hne].
  - rewrite cell_at_insert_eq. unfold cell_at. rewrite Hfresh. reflexivity.
  - now rewrite cell_at_insert_ne.
Qed.

(** [query_list]: a new array [[qobj, ...orarr, hints]]. *)
Lemma query_list_spec (qa : query_args) (s : state) :
  exists lq, st_heap s !! lq = None /\
    query_list qa s =
      (Ok (VRef KArr lq),
       with_heap (<[lq := Cell ∅ ([qa_qobj qa]
                                   ++ concat_item (st_heap s) (qa_orarr qa)
                                   ++ concat_item (st_heap s) (qa_hints qa))]> (st_heap s)) s).
Proof.
  match goal with |- exists lq, _ /\ _ = (_, with_heap (<[_ := ?c]> _) _) =>
    destruct (alloc_spec KArr c s) as (lq & Hfresh & Hrun) end.
  exists lq. split; [exact Hfresh|].
  unfold query_list, concat3, bind, get_heap. cbn. exact Hrun.
Qed.

(** C5: a synchronous [find] (the parsed tuple has no callback) hands the
    engine the flag [JBQRYCOUNT] when the [$onlycount] property of the
    hints object is truthy and the flag [0] otherwise; in the first case it
    returns the matched count as a number, in the second a new open cursor
    over the matched records (and it throws when the engine fails). *)
Theorem find_sync_onlycount (args : list value) (s : state)
    (qa : query_args) (s1 : state) :
  JBQRYCOUNT <> 0 ->
  parseQueryArgs args s = (Ok qa, s1) ->
  qa_cb qa = VNull ->
  exists oc lq r s',
    heap_get_prop (st_heap s1) (qa_hints qa) "$onlycount" = Some oc
    /\ st_heap s1 !! lq = None
    /\ find args s = (r, s')
    /\ let call := [qa_cname qa; VRef KArr lq;
                    VNum (Int (if truthy oc then JBQRYCOUNT else 0))] in
       let h2 := <[lq := Cell ∅ ([qa_qobj qa]
                                  ++ concat_item (st_heap s1) (qa_orarr qa)
                                  ++ concat_item (st_heap s1) (qa_hints qa))]> (st_heap s1) in
       st_trace s' = st_trace s ++ [EvImpl "query" call (DVal VNull)]
       /\ match snd (eng_query (st_engine s) h2 call) with
          | inl f => r = Throw (err_value f)
          | inr q =>
              if truthy oc then r = Ok (VNum (Int (qr_count q)))
              else exists lc,
                     r = Ok (VRef KObj lc)
                     /\ h2 !! lc = None
                     /\ st_cursors s' !! lc = Some (Cursor (qr_records q) 0 false)
          end.
Proof.
  intros Hnz Hparse Hcb.
  destruct (parseQueryArgs_inv _ _ _ _ Hparse) as (_ & _ & _ & _ & Hhints & Hal).
  destruct Hal as (Htr & Hen & _ & _).
  destruct (query_list_spec qa s1) as (lq & Hfresh & Hql).
  destruct (heap_get_prop_truthy (st_heap s1) (qa_hints qa) "$onlycount" Hhints) as (oc & Hoc).
  exists oc, lq.
  unfold find. rewrite (bind_ok _ _ _ _ _ Hparse), (bind_ok _ _ _ _ _ Hql).
  unfold get_prop at 1. unfold bind at 1. unfold bind at 1. unfold get_heap at 1.
  cbn [st_heap with_heap]. rewrite heap_get_prop_alloc by exact Hfresh. rewrite Hoc.
  cbn [ret]. rewrite Hcb, impl_query_sync by reflexivity. cbn zeta.
  cbn [st_heap st_engine st_cursors st_trace with_heap fst snd]. rewrite Hen, Htr.
  destruct (eng_query _ _ _) as [e' [f|q]]; cbn [fst snd].
  - do 2 eexists. split; [reflexivity|]. split; [exact Hfresh|]. split; [reflexivity|].
    cbn. split; reflexivity.
  - destruct (truthy oc) eqn:Htoc.
    + rewrite count_only_flag by exact Hnz.
      do 2 eexists. split; [reflexivity|]. split; [exact Hfresh|]. split; [reflexivity|].
      cbn. split; reflexivity.
    + rewrite count_only_zero.
      match goal with |- context [new_cursor ?rs ?st] =>
        destruct (new_cursor_spec rs st) as (lc & Hlc & ->) end.
      do 2 eexists. split; [reflexivity|]. split; [exact Hfresh|]. split; [reflexivity|].
      cbn. split; [reflexivity|]. exists lc. split; [reflexivity|]. split; [exact Hlc|].
      apply lookup_insert_eq.
Qed.

Lemma bind_ret {A} (m : M A) (s : state) : bind m ret s = m s.
Proof. unfold bind, ret. now destruct (m s) as [[a|e] s']. Qed.

(** A collection name that is not a string: [parseQueryArgs] throws before
    it looks at anything else and leaves the state as it was. *)
Lemma parseQueryArgs_throws (args : list value) (s : state) :
  typeof (arg args 0) <> "string" ->
  parseQueryArgs args s = (Throw cname_error, s).
Proof.
  intros Hname. unfold parseQueryArgs.
  destruct (String.eqb (typeof (arg args 0)) "string") eqn:Heq; [|reflexivity].
  apply String.eqb_eq in Heq. contradiction.
Qed.

(** Every query function is: parse, prepare, one call of the native
    [query] on a new query list, and (but for a synchronous [findOne])
    nothing after it. *)
Lemma query_op_call (op : query_op) (args : list value) (s : state)
    (qa : query_args) (s1 : state) :
  parseQueryArgs args s = (Ok qa, s1) ->
  exists lq k,
    let h1 := op_heap op (st_heap s1) qa in
    h1 !! lq = None
    /\ run_op op args s
       = bind (impl_query (qa_cname qa) (VRef KArr lq) (op_flags op h1 qa)
                 (op_cbarg op (qa_cb qa))) k
           (with_heap (<[lq := Cell ∅ (query_items h1 qa)]> h1) s1)
    /\ ((op = OpFindOne /\ truthy (qa_cb qa) = false)
        \/ forall v s', k v s' = (Ok v, s')).
Proof.
  intros Hparse.
  destruct (parseQueryArgs_inv _ _ _ _ Hparse) as (_ & _ & _ & _ & Hhints & _).
  destruct op; cbn [run_op op_cbarg op_heap op_flags]; unfold query_items.
  - unfold find. rewrite (bind_ok _ _ _ _ _ Hparse).
    destruct (query_list_spec qa s1) as (lq & Hfresh & Hql).
    rewrite (bind_ok _ _ _ _ _ Hql).
    destruct (heap_get_prop_truthy (st_heap s1) (qa_hints qa) "$onlycount" Hhints) as (oc & Hoc).
    unfold get_prop at 1. unfold bind at 1. unfold bind at 1. unfold get_heap at 1.
    cbn [st_heap with_heap]. rewrite heap_get_prop_alloc by exact Hfresh. rewrite Hoc.
    cbn [ret default].
    exists lq, ret. split; [exact Hfresh|]. split; [now rewrite bind_ret|].
    right. reflexivity.
  - unfold findOne. rewrite (bind_ok _ _ _ _ _ Hparse).
    assert (Hset : exists h', heap_set_prop (st_heap s1) (qa_hints qa) "$max" (VNum (Int 1)) = Some h').
    { destruct (qa_hints qa); try discriminate; cbn; eauto. }
    destruct Hset as (h' & Hset).
    unfold set_prop at 1. unfold bind at 1. unfold bind at 1. unfold get_heap at 1.
    rewrite Hset. cbn [set_heap default].
    destruct (truthy (qa_cb qa)) eqn:Hcb.
    + match goal with |- context [bind (query_list qa) _ ?st] =>
        destruct (query_list_spec qa st) as (lq & Hfresh & Hql) end.
      rewrite (bind_ok _ _ _ _ _ Hql).
      exists lq, ret. split; [exact Hfresh|]. split; [now rewrite bind_ret|].
      right. reflexivity.
    + match goal with |- context [bind (query_list qa) _ ?st] =>
        destruct (query_list_spec qa st) as (lq & Hfresh & Hql) end.
      rewrite (bind_ok _ _ _ _ _ Hql).
      exists lq. eexists. split; [exact Hfresh|]. split; [reflexivity|].
      left. split; reflexivity.
  - unfold update. rewrite (bind_ok _ _ _ _ _ Hparse).
    destruct (query_list_spec qa s1) as (lq & Hfresh & Hql).
    destruct (truthy (qa_cb qa)) eqn:Hcb; rewrite (bind_ok _ _ _ _ _ Hql);
      exists lq, ret; (split; [exact Hfresh|]); (split; [now rewrite bind_ret|]);
      right; reflexivity.
  - unfold count. rewrite (bind_ok _ _ _ _ _ Hparse).
    destruct (query_list_spec qa s1) as (lq & Hfresh & Hql).
    destruct (truthy (qa_cb qa)) eqn:Hcb; rewrite (bind_ok _ _ _ _ _ Hql);
      exists lq, ret; (split; [exact Hfresh|]); (split; [now rewrite bind_ret|]);
      right; reflexivity.
Qed.

(** The native [query] when the engine fails: thrown to a synchronous
    caller, handed to the callback otherwise. *)
Lemma impl_query_fail (cname ql flags : value) (cb : cbarg) (s : state) (f : failure) :
  snd (eng_query (st_engine s) (st_heap s) [cname; ql; flags]) = inl f ->
  impl_query cname ql flags cb s =
    let s1 := {| st_heap := st_heap s; st_cursors := st_cursors s;
                 st_engine := fst (eng_query (st_engine s) (st_heap s) [cname; ql; flags]);
                 st_trace := st_trace s ++ [EvImpl "query" [cname; ql; flags] (describe cb)] |} in
    if is_async cb then (Ok VUndef, snd (deliver cb [err_value f] s1))
    else (Throw (err_value f), s1).
Proof.
  intros Hfail. unfold impl_query, bind, log, run_engine. cbn.
  destruct (eng_query _ _ _) as [e' r]. cbn in Hfail. subst r. cbn.
  destruct (is_async cb); [|reflexivity].
  now rewrite deliver_ok.
Qed.

(** With a function [cbl] as callback, what reaches the native [query] in
    callback position passes an engine failure on to [cbl], first. *)
Lemma op_cbarg_failure (op : query_op) (cbl : loc) (f : failure) (s : state) :
  is_async (op_cbarg op (VRef KFun cbl)) = true
  /\ invoke (op_cbarg op (VRef KFun cbl)) [err_value f] s
     = call_value (VRef KFun cbl) (err_value f :: failure_rest op) s.
Proof. destruct op; split; reflexivity. Qed.

(** A function of the caller, applied in deferred position. *)
Lemma deferred_call (cbl : loc) (args : list value) (s : state) :
  exists evs,
    (match call_value (VRef KFun cbl) args s with
     | (Ok _, s') => (Ok tt, s')
     | (Throw e, s') => log (EvUncaught e) s'
     end) = (Ok tt, add_trace (EvCall cbl args :: evs) s)
    /\ (evs = [] \/ exists e, evs = [EvUncaught e]).
Proof.
  rewrite call_function_run. destruct (user_fn cbl args) as [e|].
  - exists [EvUncaught e]. split; [|eauto].
    unfold log, add_trace. cbn. now rewrite <- app_assoc.
  - exists []. split; [reflexivity|now left].
Qed.

(** The four query functions, on any argument list that
    [parseQueryArgs] accepts, when the engine fails on the call they
    make: thrown when [parseQueryArgs] found no callback, handed to the
    callback it found otherwise. *)
Lemma query_failure (op : query_op) (args : list value) (s : state)
    (qa : query_args) (s1 : state) :
  parseQueryArgs args s = (Ok qa, s1) ->
  exists lq,
    let h1 := op_heap op (st_heap s1) qa in
    let h2 := <[lq := Cell ∅ (query_items h1 qa)]> h1 in
    let call := [qa_cname qa; VRef KArr lq; op_flags op h1 qa] in
    h1 !! lq = None
    /\ (qa_cb qa = VNull \/ exists cbl, qa_cb qa = VRef KFun cbl)
    /\ forall f, snd (eng_query (st_engine s) h2 call) = inl f ->
         (qa_cb qa = VNull ->
          failure_thrown (run_op op args) s (EvImpl "query" call (DVal VNull)) f)
         /\ (forall cbl, qa_cb qa = VRef KFun cbl ->
               failure_delivered (run_op op args) s
                 (EvImpl "query" call (describe (op_cbarg op (qa_cb qa))))
                 cbl f (failure_rest op)).
Proof.
  intros Hparse.
  destruct (parseQueryArgs_inv _ _ _ _ Hparse) as (_ & _ & _ & _ & _ & Htr & Hen & _ & _).
  destruct (query_op_call op _ _ _ _ Hparse) as (lq & k & Hfresh & Hrun & Hk).
  cbv zeta in Hfresh, Hrun.
  exists lq. cbv zeta. split; [exact Hfresh|].
  split; [exact (parseQueryArgs_cb _ _ _ _ Hparse)|].
  intros f Hfail. rewrite <- Hen in Hfail.
  pose proof (impl_query_fail (qa_cname qa) (VRef KArr lq)
                (op_flags op (op_heap op (st_heap s1) qa) qa) (op_cbarg op (qa_cb qa))
                (with_heap (<[lq := Cell ∅ (query_items (op_heap op (st_heap s1) qa) qa)]>
                              (op_heap op (st_heap s1) qa)) s1) f Hfail) as Himpl.
  cbv zeta in Himpl. split.
  - intros Hcb. rewrite Hcb in *.
    assert (Hsync : is_async (op_cbarg op VNull) = false
                    /\ describe (op_cbarg op VNull) = DVal VNull)
      by (destruct op; split; reflexivity).
    destruct Hsync as (Hsync & Hdesc). rewrite Hsync, Hdesc in Himpl.
    unfold failure_thrown. rewrite Hrun, (bind_throw _ _ _ _ _ Himpl).
    eexists. split; [reflexivity|]. cbn. now rewrite Htr.
  - intros cbl Hcb. rewrite Hcb in *.
    destruct Hk as [[_ Hk]|Hk]; [discriminate|].
    match type of Himpl with context [deliver _ _ ?st] =>
      destruct (op_cbarg_failure op cbl f st) as (Hasync & Hinv);
      destruct (deferred_call cbl (err_value f :: failure_rest op) st) as (evs & Hcall & Hevs)
    end.
    rewrite Hasync in Himpl. unfold deliver in Himpl. rewrite Hinv, Hcall in Himpl.
    cbn [snd] in Himpl.
    unfold failure_delivered. rewrite Hrun, (bind_ok _ _ _ _ _ Himpl), Hk.
    eexists _, evs. split; [reflexivity|]. split; [|exact Hevs].
    cbn. rewrite Htr, <- app_assoc. reflexivity.
Qed.

(** ** Cursors and [findOne] *)

(** Induction on document trees, with the hypothesis on every item of an
    array and on every field value of an object. *)
Lemma json_nested_ind (P : json -> Prop) :
  P JNull ->
  (forall b, P (JBool b)) ->
  (forall z, P (JNum z)) ->
  (forall s, P (JStr s)) ->
  (forall items, Forall P items -> P (JArr items)) ->
  (forall fields, Forall (fun p => P (snd p)) fields -> P (JObj fields)) ->
  forall j, P j.
Proof.
  intros HNull HBool HNum HStr HArr HObj.
  fix IH 1. intros [| b | z | s | items | fields].
  - exact HNull.
  - apply HBool.
  - apply HNum.
  - apply HStr.
  - apply HArr. induction items as [|x rest IHrest]; constructor; [apply IH|exact IHrest].
  - apply HObj. induction fields as [|[name x] rest IHrest]; constructor;
      [apply IH|exact IHrest].
Qed.

Lemma heap_extends_refl (h : heap) : heap_extends h h.
Proof. now intros l c. Qed.

Lemma heap_extends_trans (h1 h2 h3 : heap) :
  heap_extends h1 h2 -> heap_extends h2 h3 -> heap_extends h1 h3.
Proof. intros H12 H23 l c Hl. auto. Qed.

Lemma heap_alloc_extends (c : cell) (h : heap) :
  heap_extends h (snd (heap_alloc c h)).
Proof.
  destruct (heap_alloc_spec c h) as (l & -> & Hfresh). cbn.
  intros l' c' Hl'. rewrite heap_lookup_insert_ne; [exact Hl'|congruence].
Qed.

(** Building a record as JavaScript objects only adds cells. *)
Lemma materialize_extends (j : json) :
  forall h, heap_extends h (snd (materialize j h)).
Proof.
  induction j as [| b | z | s | items IHitems | fields IHfields] using json_nested_ind;
    intros h; try apply heap_extends_refl.
  - cbn [materialize].
    match goal with |- context [?g items h] => is_fix g; set (go := g) end.
    assert (Hgo : forall h0, heap_extends h0 (snd (go items h0))).
    { induction IHitems as [|x rest Hx _ IHrest]; intros h0; [apply heap_extends_refl|].
      cbn. specialize (Hx h0). destruct (materialize x h0) as [v h1].
      specialize (IHrest h1). destruct (go rest h1) as [vs h2]. cbn in *.
      eapply heap_extends_trans; eauto. }
    specialize (Hgo h). destruct (go items h) as [vs h1]. cbn in Hgo.
    pose proof (heap_alloc_extends (Cell ∅ vs) h1) as Hal.
    destruct (heap_alloc _ h1) as [l h2]. cbn in *.
    eapply heap_extends_trans; eauto.
  - cbn [materialize].
    match goal with |- context [?g fields ∅ h] => is_fix g; set (go := g) end.
    assert (Hgo : forall ps h0, heap_extends h0 (snd (go fields ps h0))).
    { induction IHfields as [|[name x] rest Hx _ IHrest]; intros ps h0;
        [apply heap_extends_refl|].
      cbn. cbn in Hx. specialize (Hx h0). destruct (materialize x h0) as [v h1].
      specialize (IHrest (<[name := v]> ps) h1). cbn in *.
      eapply heap_extends_trans; eauto. }
    specialize (Hgo ∅ h). destruct (go fields ∅ h) as [ps h1]. cbn in Hgo.
    pose proof (heap_alloc_extends (Cell ps []) h1) as Hal.
    destruct (heap_alloc _ h1) as [l h2]. cbn in *.
    eapply heap_extends_trans; eauto.
Qed.

Lemma cursor_next_empty (lc : loc) (s : state) :
  st_cursors s !! lc = Some (Cursor [] 0 false) ->
  cursor_next (VRef KObj lc) s = (Ok (VBool false), add_trace [EvCursor "next" lc] s).
Proof.
  intros Hc. unfold cursor_next, bind, cursor_of, log. now rewrite Hc.
Qed.

Lemma cursor_next_first (lc : loc) (r0 : json) (rest : list json) (s : state) :
  st_cursors s !! lc = Some (Cursor (r0 :: rest) 0 false) ->
  cursor_next (VRef KObj lc) s =
    (Ok (VBool true),
     {| st_heap := st_heap s;
        st_cursors := <[lc := Cursor (r0 :: rest) 1 false]> (st_cursors s);
        st_engine := st_engine s;
        st_trace := st_trace s ++ [EvCursor "next" lc] |}).
Proof.
  intros Hc. unfold cursor_next, bind, cursor_of, log. now rewrite Hc.
Qed.

Lemma cursor_object_first (lc : loc) (r0 : json) (rest : list json) (s : state) :
  st_cursors s !! lc = Some (Cursor (r0 :: rest) 1 false) ->
  cursor_object (VRef KObj lc) s =
    (Ok (fst (materialize r0 (st_heap s))),
     {| st_heap := snd (materialize r0 (st_heap s));
        st_cursors := st_cursors s;
        st_engine := st_engine s;
        st_trace := st_trace s ++ [EvCursor "object" lc] |}).
Proof.
  intros Hc. unfold cursor_object, bind, cursor_of, log. rewrite Hc. cbn.
  unfold get_heap, set_heap, bind, ret. cbn.
  now destruct (materialize r0 (st_heap s)) as [o h'].
Qed.

Lemma cursor_close_run (lc : loc) (c : cursor) (s : state) :
  st_cursors s !! lc = Some c ->
  cursor_close (VRef KObj lc) s =
    (Ok tt,
     {| st_heap := st_heap s;
        st_cursors := <[lc := Cursor (cu_records c) (cu_pos c) true]> (st_cursors s);
        st_engine := st_engine s;
        st_trace := st_trace s ++ [EvCursor "close" lc] |}).
Proof.
  intros Hc. unfold cursor_close, bind, cursor_of, log. now rewrite Hc.
Qed.

(** The closure of [findOne] on a successful answer with a first record:
    the record is built, the caller's function is applied to it, and only
    then is the cursor closed. *)
Lemma findOne_callback_first (cbl lc : loc) (r0 : json) (rest : list json)
    (count log : value) (s : state) :
  st_cursors s !! lc = Some (Cursor (r0 :: rest) 0 false) ->
  let o := fst (materialize r0 (st_heap s)) in
  findOne_callback (VRef KFun cbl) [VNull; VRef KObj lc; count; log] s =
    (match user_fn cbl [VNull; o] with Some e => Throw e | None => Ok tt end,
     {| st_heap := snd (materialize r0 (st_heap s));
        st_cursors := <[lc := Cursor (r0 :: rest) 1 true]>
                        (<[lc := Cursor (r0 :: rest) 1 false]> (st_cursors s));
        st_engine := st_engine s;
        st_trace := st_trace s
          ++ [EvCursor "next" lc; EvCursor "object" lc;
              EvCall cbl [VNull; o]; EvCursor "close" lc] |}).
Proof.
  intros Hc o. unfold findOne_callback. cbn [arg nth truthy].
  rewrite (bind_ok _ _ _ _ _ (cursor_next_first lc r0 rest s Hc)). cbn [truthy].
  unfold try_finally.
  match goal with |- context [bind (cursor_object _) _ ?st] =>
    assert (Hc1 : st_cursors st !! lc = Some (Cursor (r0 :: rest) 1 false))
      by (cbn; apply lookup_insert_eq);
    rewrite (bind_ok _ _ _ _ _ (cursor_object_first lc r0 rest st Hc1))
  end.
  cbn [st_heap]. fold o. rewrite call_function_run.
  match goal with |- context [cursor_close _ ?st] =>
    assert (Hc2 : st_cursors st !! lc = Some (Cursor (r0 :: rest) 1 false))
      by (cbn; apply lookup_insert_eq);
    rewrite (cursor_close_run lc _ st Hc2)
  end.
  cbn. rewrite <- !app_assoc. reflexivity.
Qed.

(** The closure of [findOne] on a successful answer with no record: the
    caller's function is applied to [(null, null)]. *)
Lemma findOne_callback_none (cbl lc : loc) (count log : value) (s : state) :
  st_cursors s !! lc = Some (Cursor [] 0 false) ->
  findOne_callback (VRef KFun cbl) [VNull; VRef KObj lc; count; log] s =
    (match user_fn cbl [VNull; VNull] with Some e => Throw e | None => Ok tt end,
     add_trace [EvCursor "next" lc; EvCall cbl [VNull; VNull]] s).
Proof.
  intros Hc. unfold findOne_callback. cbn [arg nth truthy].
  rewrite (bind_ok _ _ _ _ _ (cursor_next_empty lc s Hc)). cbn [truthy].
  rewrite call_function_run, add_trace_app. reflexivity.
Qed.

Lemma hints_updated_extends (h h2 h3 : heap) (lh : loc) (ch : cell) :
  hints_updated h h2 lh ch -> heap_extends h2 h3 -> hints_updated h h3 lh ch.
Proof.
  intros (Hlh & Hframe) Hext. split; [now apply Hext|].
  intros l c Hne Hl. apply Hext. now apply Hframe.
Qed.

(** The native [query] called with a closure of the wrapper, the engine
    answering with records: the closure receives a new open cursor. *)
Lemma impl_query_async_cursor (cname ql flags : value) (k : list value -> M unit)
    (s : state) (q : qresult) :
  snd (eng_query (st_engine s) (st_heap s) [cname; ql; flags]) = inr q ->
  count_only flags = false ->
  exists lc, st_heap s !! lc = None /\
    impl_query cname ql flags (CbWrap k) s =
      (Ok VUndef,
       snd (deliver (CbWrap k) [VNull; VRef KObj lc; VNum (Int (qr_count q)); qr_log q]
              {| st_heap := <[lc := empty_cell]> (st_heap s);
                 st_cursors := <[lc := Cursor (qr_records q) 0 false]> (st_cursors s);
                 st_engine := fst (eng_query (st_engine s) (st_heap s) [cname; ql; flags]);
                 st_trace := st_trace s ++ [EvImpl "query" [cname; ql; flags] DWrap] |})).
Proof.
  intros Hok Hflags. unfold impl_query, bind, log, run_engine. cbn.
  destruct (eng_query _ _ _) as [e' r]. cbn in Hok. subst r. cbn. rewrite Hflags.
  match goal with |- context [new_cursor ?rs ?st] =>
    destruct (new_cursor_spec rs st) as (lc & Hlc & Hrun) end.
  exists lc. split; [exact Hlc|]. rewrite Hrun. cbn [st_heap st_cursors st_engine st_trace].
  now rewrite deliver_ok.
Qed.

(** The native [query] called synchronously, the engine answering with
    records: a new open cursor is returned. *)
Lemma impl_query_sync_cursor (cname ql flags : value) (s : state) (q : qresult) :
  snd (eng_query (st_engine s) (st_heap s) [cname; ql; flags]) = inr q ->
  count_only flags = false ->
  exists lc, st_heap s !! lc = None /\
    impl_query cname ql flags (CbVal VNull) s =
      (Ok (VRef KObj lc),
       {| st_heap := <[lc := empty_cell]> (st_heap s);
          st_cursors := <[lc := Cursor (qr_records q) 0 false]> (st_cursors s);
          st_engine := fst (eng_query (st_engine s) (st_heap s) [cname; ql; flags]);
          st_trace := st_trace s ++ [EvImpl "query" [cname; ql; flags] (DVal VNull)] |}).
Proof.
  intros Hok Hflags. rewrite impl_query_sync by reflexivity. cbv zeta.
  rewrite Hok, Hflags.
  match goal with |- context [new_cursor ?rs ?st] =>
    destruct (new_cursor_spec rs st) as (lc & Hlc & Hrun) end.
  exists lc. split; [exact Hlc|]. exact Hrun.
Qed.

Lemma insert_fresh_extends (h : heap) (l : loc) (c : cell) :
  h !! l = None -> heap_extends h (<[l := c]> h).
Proof.
  intros Hfresh l' c' Hl'. rewrite heap_lookup_insert_ne; [exact Hl'|congruence].
Qed.

Ltac simpl_state :=
  unfold with_heap, add_trace in *;
  cbn [st_heap st_cursors st_engine st_trace fst snd] in *.

(** C9 (amended): on every argument list in which [parseQueryArgs] finds a
    hints object of the caller, [findOne] assigns [1] to the [$max]
    property of that very object, which changes it unless the object
    refuses the assignment (a frozen object, for instance, stays as it
    was), and changes no other property of any object that existed before
    the call; without a callback the cursor it created is closed before the
    first matched object, or [null], is returned; with a callback and a
    matched record the caller's function is applied to the first matched
    object while the cursor is still open, and the cursor is closed
    afterwards. *)
Theorem findOne_hints_and_cursor (args : list value) (s : state)
    (qa : query_args) (s1 : state) (k : kind) (lh : loc) (ch : cell) :
  parseQueryArgs args s = (Ok qa, s1) ->
  qa_hints qa = VRef k lh ->
  st_heap s !! lh = Some ch ->
  exists r s' lq h1 h2 evs,
    findOne args s = (r, s')
    /\ hints_updated (st_heap s) (st_heap s') lh ch
    /\ hints_updated (st_heap s) h2 lh ch
    /\ (heap_set_prop (st_heap s1) (qa_hints qa) "$max" (VNum (Int 1)) = Some h1
        /\ h1 !! lq = None
        /\ h2 = <[lq := Cell ∅ ([qa_qobj qa]
                                 ++ concat_item h1 (qa_orarr qa)
                                 ++ concat_item h1 (qa_hints qa))]> h1)
    /\ let call := [qa_cname qa; VRef KArr lq; VNum (Int 0)] in
       st_trace s' = st_trace s
         ++ EvImpl "query" call (if truthy (qa_cb qa) then DWrap else DVal (qa_cb qa))
         :: evs
       /\ match snd (eng_query (st_engine s) h2 call) with
          | inl f => True
          | inr q =>
              exists lc,
                h2 !! lc = None /\
                match qa_cb qa, qr_records q with
                | VNull, [] =>
                    r = Ok VNull
                    /\ evs = [EvCursor "next" lc; EvCursor "close" lc]
                    /\ st_cursors s' !! lc = Some (Cursor [] 0 true)
                | VNull, r0 :: rest =>
                    r = Ok (fst (materialize r0 (<[lc := empty_cell]> h2)))
                    /\ evs = [EvCursor "next" lc; EvCursor "object" lc; EvCursor "close" lc]
                    /\ st_cursors s' !! lc = Some (Cursor (r0 :: rest) 1 true)
                | VRef KFun cbl, r0 :: rest =>
                    r = Ok VUndef
                    /\ (exists evs',
                          evs = [EvCursor "next" lc; EvCursor "object" lc;
                                 EvCall cbl [VNull; fst (materialize r0 (<[lc := empty_cell]> h2))];
                                 EvCursor "close" lc] ++ evs')
                    /\ st_cursors s' !! lc = Some (Cursor (r0 :: rest) 1 true)
                | _, _ => True
                end
          end.
Proof.
  intros Hparse Hhints Hlh.
  destruct (parseQueryArgs_inv _ _ _ _ Hparse) as (_ & _ & _ & _ & _ & Hal).
  pose proof (parseQueryArgs_cb _ _ _ _ Hparse) as Hcb.
  destruct Hal as (Htr & Hen & Hcu & Hh).
  pose proof (Hh _ _ Hlh) as Hlh1.
  unfold findOne. rewrite (bind_ok _ _ _ _ _ Hparse).
  rewrite Hhints.
  assert (Hcell : cell_at (st_heap s1) lh = ch) by (unfold cell_at; now rewrite Hlh1).
  set (h1 := if can_write ch "$max"
             then <[lh := cell_set "$max" (VNum (Int 1)) ch]> (st_heap s1)
             else st_heap s1).
  assert (Hset : heap_set_prop (st_heap s1) (VRef k lh) "$max" (VNum (Int 1)) = Some h1).
  { cbn [heap_set_prop]. now rewrite Hcell. }
  unfold set_prop at 1. unfold bind at 1. unfold bind at 1. unfold get_heap at 1.
  rewrite Hset. cbn [set_heap].
  assert (Hup1 : hints_updated (st_heap s) h1 lh ch).
  { unfold hints_updated, h1. destruct (can_write ch "$max").
    - split; [apply heap_lookup_insert_eq|].
      intros l c Hne Hl. rewrite heap_lookup_insert_ne by congruence. now apply Hh.
    - split; [exact Hlh1|]. intros l c _ Hl. now apply Hh. }
  clearbody h1.
  match goal with |- context [_ ?st = (_, _)] =>
    destruct (query_list_spec qa st) as (lq & Hfresh & Hql) end.
  simpl_state. rewrite Hen, Htr in *. rewrite Hhints in Hql.
  set (h2 := <[lq := _]> h1) in *.
  assert (Hpin : Some h1 = Some h1
                 /\ h1 !! lq = None
                 /\ h2 = <[lq := Cell ∅ ([qa_qobj qa]
                                          ++ concat_item h1 (qa_orarr qa)
                                          ++ concat_item h1 (VRef k lh))]> h1).
  { split; [reflexivity|]. split; [exact Hfresh|reflexivity]. }
  assert (Hup2 : hints_updated (st_heap s) h2 lh ch).
  { eapply hints_updated_extends; [exact Hup1|]. now apply insert_fresh_extends. }
  destruct (eng_query (st_engine s) h2 [qa_cname qa; VRef KArr lq; VNum (Int 0)])
    as [e' ans] eqn:Heng.
  destruct Hcb as [Hcb|[cbl Hcb]]; rewrite Hcb; cbn [truthy];
    rewrite (bind_ok _ _ _ _ _ Hql); [rename Hcb into Hsync|]; cycle 1.
  - (* callback mode *)
    destruct ans as [f|q].
    + match goal with |- context [impl_query ?c ?l ?fl ?k ?st] =>
        pose proof (impl_query_fail c l fl k st f) as Hrun end.
      simpl_state.
      rewrite Heng in Hrun. specialize (Hrun eq_refl).
      cbn [is_async describe fst] in Hrun.
      rewrite deliver_wrap in Hrun.
      change (findOne_callback (VRef KFun cbl) [err_value f])
        with (call_value (VRef KFun cbl) [err_value f]) in Hrun.
      rewrite call_function_run in Hrun. simpl_state.
      rewrite Hrun.
      destruct (user_fn cbl _); simpl_state;
        (do 2 eexists; exists lq, h1, h2; eexists; split; [reflexivity|]);
        simpl_state; rewrite <- ?app_assoc;
        (split; [exact Hup2|]); (split; [exact Hup2|]); (split; [exact Hpin|]); (split; [reflexivity|]);
        rewrite Heng; exact I.
    + match goal with |- context [impl_query ?c ?l ?fl (CbWrap ?k) ?st] =>
        destruct (impl_query_async_cursor c l fl k st q) as (lc & Hlc & Hrun) end.
      { simpl_state. now rewrite Heng. }
      { reflexivity. }
      simpl_state. rewrite Heng in Hrun.
      rewrite deliver_wrap in Hrun. simpl_state.
      rewrite Hrun. clear Hrun.
      destruct (qr_records q) as [|r0 rest] eqn:Hrecs.
      * rewrite findOne_callback_none by (simpl_state; apply lookup_insert_eq).
        destruct (user_fn cbl _); simpl_state;
          (do 2 eexists; exists lq, h1, h2; eexists; split; [reflexivity|]);
          simpl_state; rewrite <- ?app_assoc;
          (split; [eapply hints_updated_extends;
                     [exact Hup2|now apply insert_fresh_extends]|]);
          (split; [exact Hup2|]); (split; [exact Hpin|]); (split; [reflexivity|]);
          rewrite Heng; exists lc; rewrite Hrecs; (split; [exact Hlc|exact I]).
      * rewrite (findOne_callback_first cbl lc r0 rest) by (simpl_state; apply lookup_insert_eq).
        simpl_state.
        assert (Hext : heap_extends h2 (snd (materialize r0 (<[lc := empty_cell]> h2)))).
        { apply (heap_extends_trans _ (<[lc := empty_cell]> h2));
            [now apply insert_fresh_extends|apply materialize_extends]. }
        destruct (user_fn cbl _); simpl_state;
          (do 2 eexists; exists lq, h1, h2; eexists; split; [reflexivity|]);
          simpl_state; rewrite <- ?app_assoc;
          (split; [eapply hints_updated_extends; [exact Hup2|exact Hext]|]);
          (split; [exact Hup2|]); (split; [exact Hpin|]); (split; [reflexivity|]);
          rewrite Heng; exists lc; rewrite Hrecs; (split; [exact Hlc|]);
          (split; [reflexivity|]); (split; [|apply lookup_insert_eq]);
          eexists; cbn; reflexivity.
  - (* synchronous mode *)
    destruct ans as [f|q].
    + match goal with |- context [bind (impl_query ?c ?l ?fl ?k) _ ?st] =>
        pose proof (impl_query_fail c l fl k st f) as Hrun end.
      simpl_state.
      rewrite Heng in Hrun. specialize (Hrun eq_refl).
      cbn [is_async describe fst typeof String.eqb] in Hrun.
      rewrite (bind_throw _ _ _ _ _ Hrun).
      do 2 eexists. exists lq, h1, h2. eexists. split; [reflexivity|].
      simpl_state.
      split; [exact Hup2|]. split; [exact Hup2|]. split; [exact Hpin|]. split; [reflexivity|].
      rewrite Heng. exact I.
    + match goal with |- context [bind (impl_query ?c ?l ?fl _) _ ?st] =>
        destruct (impl_query_sync_cursor c l fl st q) as (lc & Hlc & Hrun) end.
      { simpl_state. now rewrite Heng. }
      { reflexivity. }
      simpl_state. rewrite Heng in Hrun.
      simpl_state. rewrite (bind_ok _ _ _ _ _ Hrun). clear Hrun.
      change (truthy (VRef KObj lc) && String.eqb (typeof (VRef KObj lc)) "object")
        with true.
      cbv iota.
      destruct (qr_records q) as [|r0 rest] eqn:Hrecs.
      * rewrite (bind_ok _ _ _ _ _ (cursor_next_empty lc _ (lookup_insert_eq _ _ _))).
        cbn [truthy].
        rewrite (bind_ok _ _ _ VNull _ eq_refl).
        match goal with |- context [bind (cursor_close _) _ ?st] =>
          rewrite (bind_ok _ _ _ _ _
                     (cursor_close_run lc (Cursor [] 0 false) st (lookup_insert_eq _ _ _)))
        end.
        simpl_state.
        do 2 eexists. exists lq, h1, h2. eexists. split; [reflexivity|].
        simpl_state. rewrite <- ?app_assoc.
        split; [eapply hints_updated_extends;
                  [exact Hup2|now apply insert_fresh_extends]|].
        split; [exact Hup2|]. split; [exact Hpin|]. split; [reflexivity|].
        rewrite Heng. exists lc. rewrite Hrecs. split; [exact Hlc|].
        split; [reflexivity|]. split; [reflexivity|]. apply lookup_insert_eq.
      * rewrite (bind_ok _ _ _ _ _
                   (cursor_next_first lc r0 rest _ (lookup_insert_eq _ _ _))).
        cbn [truthy].
        match goal with |- context [bind (cursor_object _) _ ?st] =>
          rewrite (bind_ok _ _ _ _ _
                     (cursor_object_first lc r0 rest st (lookup_insert_eq _ _ _)))
        end.
        match goal with |- context [bind (cursor_close _) _ ?st] =>
          rewrite (bind_ok _ _ _ _ _
                     (cursor_close_run lc (Cursor (r0 :: rest) 1 false) st
                        (lookup_insert_eq _ _ _)))
        end.
        simpl_state.
        assert (Hext : heap_extends h2 (snd (materialize r0 (<[lc := empty_cell]> h2)))).
        { apply (heap_extends_trans _ (<[lc := empty_cell]> h2));
            [now apply insert_fresh_extends|apply materialize_extends]. }
        do 2 eexists. exists lq, h1, h2. eexists. split; [reflexivity|].
        simpl_state. rewrite <- ?app_assoc.
        split; [eapply hints_updated_extends; [exact Hup2|exact Hext]|].
        split; [exact Hup2|]. split; [exact Hpin|]. split; [reflexivity|].
        rewrite Heng. exists lc. rewrite Hrecs. split; [exact Hlc|].
        split; [reflexivity|]. split; [reflexivity|]. apply lookup_insert_eq.
Qed.

(** * Further properties of the wrapper *)

(** ** Frame conditions, step by step *)

Lemma changes_only_refl (P : loc -> string -> Prop) (h : heap) : changes_only P h h.
Proof. intros l c Hl. exists c. auto. Qed.

Lemma changes_only_trans (P : loc -> string -> Prop) (h1 h2 h3 : heap) :
  changes_only P h1 h2 -> changes_only P h2 h3 -> changes_only P h1 h3.
Proof.
  intros H12 H23 l c Hl.
  destruct (H12 l c Hl) as (c2 & Hl2 & He2 & Hp2).
  destruct (H23 l c2 Hl2) as (c3 & Hl3 & He3 & Hp3).
  exists c3. split; [exact Hl3|]. split; [intuition congruence|].
  intros name Hn. rewrite Hp3, Hp2; auto.
Qed.

Lemma changes_only_extends (P : loc -> string -> Prop) (h h' : heap) :
  heap_extends h h' -> changes_only P h h'.
Proof. intros Hext l c Hl. exists c. auto. Qed.

(** Nothing allowed to change: every cell is kept as it is. *)
Lemma changes_nothing_extends (h h' : heap) :
  changes_only (fun _ _ => False) h h' -> heap_extends h h'.
Proof.
  intros Hch l c Hl. destruct (Hch l c Hl) as (c' & Hl' & (He & Hx & Hr) & Hp).
  rewrite Hl'. f_equal. destruct c as [p e x r], c' as [p' e' x' r']. cbn in *.
  subst e' x' r'. f_equal.
  apply map_eq. intros name. apply Hp. tauto.
Qed.

(** A property store is within the frame when the frame lets that
    property of that object change. *)
Lemma preserves_set_prop (P : loc -> string -> Prop) (v : value) (name : string) (x : value) :
  (forall k l, v = VRef k l -> P l name) ->
  preserves (changes_only P) (set_prop v name x).
Proof.
  intros HP s. unfold set_prop, bind, get_heap.
  cbn [st_heap]. destruct v as [| | | |str|en em|k d]; cbn [heap_set_prop];
    try apply changes_only_refl.
  - cbv zeta. destruct (can_write _ _); [|apply changes_only_refl].
    intros l c Hl. exists c. cbn [set_heap snd st_heap]. rewrite lookup_error_insert. auto.
  - cbv zeta. destruct (can_write _ _); [|apply changes_only_refl].
    cbn [set_heap snd st_heap].
    intros l c Hl. destruct (decide (d = l)) as [->|Hne].
    + exists (cell_set name x (cell_at (st_heap s) l)).
      rewrite heap_lookup_insert_eq. split; [reflexivity|].
      unfold cell_at. rewrite Hl. cbn. split; [auto|].
      intros n Hn. rewrite lookup_insert_ne; [reflexivity|].
      intros <-. apply Hn. now apply (HP k).
    + exists c. rewrite heap_lookup_insert_ne by exact Hne. auto.
Qed.

Section Frame.
Variable R : heap -> heap -> Prop.
Hypothesis R_refl : forall h, R h h.
Hypothesis R_trans : forall h1 h2 h3, R h1 h2 -> R h2 h3 -> R h1 h3.
Hypothesis R_extends : forall h h', heap_extends h h' -> R h h'.

Lemma preserves_same_heap {A} (m : M A) :
  (forall s, st_heap (snd (m s)) = st_heap s) -> preserves R m.
Proof. intros Hm s. rewrite Hm. apply R_refl. Qed.

Lemma preserves_ret {A} (a : A) : preserves R (ret a).
Proof. now apply preserves_same_heap. Qed.

Lemma preserves_throw {A} (e : value) : preserves R (throw (A := A) e).
Proof. now apply preserves_same_heap. Qed.

Lemma preserves_log (ev : event) : preserves R (log ev).
Proof. now apply preserves_same_heap. Qed.

Lemma preserves_bind {A B} (m : M A) (f : A -> M B) :
  preserves R m -> (forall a, preserves R (f a)) -> preserves R (bind m f).
Proof.
  intros Hm Hf s. unfold bind. specialize (Hm s).
  destruct (m s) as [[a|e] s1]; cbn in *; [|exact Hm].
  eapply R_trans; [exact Hm|apply Hf].
Qed.

Lemma preserves_if {A} (b : bool) (m1 m2 : M A) :
  preserves R m1 -> preserves R m2 -> preserves R (if b then m1 else m2).
Proof. now destruct b. Qed.

Lemma preserves_alloc (k : kind) (c : cell) : preserves R (alloc k c).
Proof.
  intros s. destruct (alloc_only_allocates k c s) as (l & s' & Hrun & _ & _ & _ & _ & _ & Hext).
  rewrite Hrun. apply R_extends. exact Hext.
Qed.

Lemma preserves_or_else (v : value) (mk : M value) :
  preserves R mk -> preserves R (or_else v mk).
Proof. intros Hmk. unfold or_else. apply preserves_if; [apply preserves_ret|exact Hmk]. Qed.

Lemma preserves_get_prop (v : value) (name : string) : preserves R (get_prop v name).
Proof.
  apply preserves_same_heap. intros s. unfold get_prop, bind, get_heap. cbn.
  now destruct (heap_get_prop (st_heap s) v name).
Qed.

Lemma preserves_get_index (v : value) (i : nat) : preserves R (get_index v i).
Proof.
  apply preserves_same_heap. intros s. unfold get_index, bind, get_heap. cbn.
  now destruct (heap_get_index (st_heap s) v i).
Qed.

Lemma preserves_call_value (f : value) (args : list value) : preserves R (call_value f args).
Proof.
  apply preserves_same_heap. intros s.
  destruct (call_value_spec f args s) as (r & evs & ->). reflexivity.
Qed.

Lemma preserves_try_finally {A} (body : M A) (fin : M unit) :
  preserves R body -> preserves R fin -> preserves R (try_finally body fin).
Proof.
  intros Hb Hf s. unfold try_finally. specialize (Hb s).
  destruct (body s) as [r s1]. specialize (Hf s1). cbn in *.
  destruct (fin s1) as [[[]|e] s2]; cbn in *; eapply R_trans; eauto.
Qed.

Lemma preserves_cursor_of (v : value) : preserves R (cursor_of v).
Proof.
  apply preserves_same_heap. intros s. unfold cursor_of.
  destruct v as [| | | | | |[] l]; try reflexivity.
  now destruct (st_cursors s !! l).
Qed.

Lemma preserves_set_cursor (l : loc) (c : cursor) : preserves R (set_cursor l c).
Proof. now apply preserves_same_heap. Qed.

Lemma preserves_cursor_next (v : value) : preserves R (cursor_next v).
Proof.
  unfold cursor_next. apply preserves_bind; [apply preserves_cursor_of|].
  intros [l c]. apply preserves_bind; [apply preserves_log|]. intros _.
  apply preserves_if; [apply preserves_throw|].
  apply preserves_if; [|apply preserves_ret].
  apply preserves_bind; [apply preserves_set_cursor|]. intros _. apply preserves_ret.
Qed.

Lemma preserves_materialize (j : json) :
  preserves R (h <- get_heap ;; let '(o, h') := materialize j h in set_heap h' ;;; ret o).
Proof.
  intros s. unfold bind, get_heap, set_heap, ret. cbn.
  pose proof (materialize_extends j (st_heap s)) as Hext.
  destruct (materialize j (st_heap s)) as [o h']. cbn in *. now apply R_extends.
Qed.

Lemma preserves_cursor_object (v : value) : preserves R (cursor_object v).
Proof.
  unfold cursor_object. apply preserves_bind; [apply preserves_cursor_of|].
  intros [l c]. apply preserves_bind; [apply preserves_log|]. intros _.
  apply preserves_if; [apply preserves_throw|].
  destruct (cu_pos c) as [|i]; [apply preserves_ret|].
  destruct (nth_error (cu_records c) i) as [j|]; [|apply preserves_ret].
  apply preserves_materialize.
Qed.

Lemma preserves_cursor_close (v : value) : preserves R (cursor_close v).
Proof.
  unfold cursor_close. apply preserves_bind; [apply preserves_cursor_of|].
  intros [l c]. apply preserves_bind; [apply preserves_log|]. intros _.
  apply preserves_set_cursor.
Qed.

Lemma preserves_new_cursor (records : list json) : preserves R (new_cursor records).
Proof.
  unfold new_cursor, new_object. apply preserves_bind; [apply preserves_alloc|].
  intros [| | | | | |k l]; try apply preserves_ret.
  apply preserves_bind; [apply preserves_set_cursor|]. intros _. apply preserves_ret.
Qed.

Lemma preserves_run_engine {T}
    (f : eng_state -> heap -> list value -> eng_state * T) (args : list value) :
  preserves R (run_engine f args).
Proof.
  apply preserves_same_heap. intros s. unfold run_engine.
  now destruct (f (st_engine s) (st_heap s) args).
Qed.

Lemma cb_preserves_val (v : value) : cb_preserves R (CbVal v).
Proof. intros args. apply preserves_call_value. Qed.

Lemma cb_preserves_noop : cb_preserves R CbNoop.
Proof. intros args. apply preserves_ret. Qed.

Lemma preserves_deliver (cb : cbarg) (args : list value) :
  cb_preserves R cb -> preserves R (deliver cb args).
Proof.
  intros Hcb s. unfold deliver. specialize (Hcb args s).
  destruct (invoke cb args s) as [[[]|e] s1]; cbn in *; exact Hcb.
Qed.

Lemma preserves_impl_query (cname ql flags : value) (cb : cbarg) :
  cb_preserves R cb -> preserves R (impl_query cname ql flags cb).
Proof.
  intros Hcb. unfold impl_query.
  apply preserves_bind; [apply preserves_log|]. intros _.
  apply preserves_bind; [apply preserves_run_engine|]. intros [f|q].
  - apply preserves_if; [|apply preserves_throw].
    apply preserves_bind; [now apply preserves_deliver|]. intros _. apply preserves_ret.
  - apply preserves_if.
    + apply preserves_bind; [|intros _; apply preserves_ret].
      apply preserves_if; [now apply preserves_deliver|].
      apply preserves_bind; [apply preserves_new_cursor|]. intros c.
      now apply preserves_deliver.
    + apply preserves_if; [apply preserves_ret|apply preserves_new_cursor].
Qed.

Lemma preserves_parseQueryArgs (args : list value) : preserves R (parseQueryArgs args).
Proof.
  unfold parseQueryArgs. apply preserves_if; [apply preserves_throw|].
  match goal with
  | |- context [match ?t with (_, _) => _ end] => destruct t as [[orarr hints] cb]
  end.
  apply preserves_bind; [apply preserves_or_else, preserves_alloc|]. intros q.
  apply preserves_bind; [apply preserves_or_else, preserves_alloc|]. intros o.
  apply preserves_bind; [apply preserves_or_else, preserves_alloc|]. intros h.
  apply preserves_ret.
Qed.

Lemma preserves_query_list (qa : query_args) : preserves R (query_list qa).
Proof.
  unfold query_list, concat3. apply preserves_bind.
  - apply preserves_same_heap. reflexivity.
  - intros h. apply preserves_alloc.
Qed.

Lemma cb_preserves_findOne_callback (cb : value) :
  cb_preserves R (CbWrap (findOne_callback cb)).
Proof.
  intros a. cbn [invoke]. unfold findOne_callback.
  apply preserves_if; [apply preserves_call_value|].
  apply preserves_bind; [apply preserves_cursor_next|]. intros b.
  apply preserves_if; [|apply preserves_call_value].
  apply preserves_try_finally; [|apply preserves_cursor_close].
  apply preserves_bind; [apply preserves_cursor_object|]. intros o.
  apply preserves_call_value.
Qed.

Lemma cb_preserves_count_callback (cb : value) :
  cb_preserves R (CbWrap (count_callback cb)).
Proof.
  intros a. cbn [invoke]. unfold count_callback.
  apply preserves_if; apply preserves_call_value.
Qed.

Lemma preserves_find (args : list value) : preserves R (find args).
Proof.
  unfold find. apply preserves_bind; [apply preserves_parseQueryArgs|]. intros qa.
  apply preserves_bind; [apply preserves_query_list|]. intros ql.
  apply preserves_bind; [apply preserves_get_prop|]. intros oc.
  apply preserves_impl_query, cb_preserves_val.
Qed.

Lemma preserves_count_like (cb : value) (qa : query_args) :
  preserves R
    (if truthy cb then
       ql <- query_list qa ;;
       impl_query (qa_cname qa) ql (VNum (Int JBQRYCOUNT)) (CbWrap (count_callback cb))
     else
       ql <- query_list qa ;;
       impl_query (qa_cname qa) ql (VNum (Int JBQRYCOUNT)) (CbVal cb)).
Proof.
  apply preserves_if; (apply preserves_bind; [apply preserves_query_list|]); intros ql;
    apply preserves_impl_query;
    [apply cb_preserves_count_callback|apply cb_preserves_val].
Qed.

Lemma preserves_update (args : list value) : preserves R (update args).
Proof.
  unfold update. apply preserves_bind; [apply preserves_parseQueryArgs|]. intros qa.
  apply preserves_count_like.
Qed.

Lemma preserves_count (args : list value) : preserves R (count args).
Proof.
  unfold count. apply preserves_bind; [apply preserves_parseQueryArgs|]. intros qa.
  apply preserves_count_like.
Qed.

(** What [findOne] does once [$max] is stored. *)
Lemma preserves_findOne_rest (qa : query_args) :
  preserves R
    (if truthy (qa_cb qa) then
       ql <- query_list qa ;;
       impl_query (qa_cname qa) ql (VNum (Int 0)) (CbWrap (findOne_callback (qa_cb qa)))
     else
       ql <- query_list qa ;;
       cursor <- impl_query (qa_cname qa) ql (VNum (Int 0)) (CbVal (qa_cb qa)) ;;
       if truthy cursor && String.eqb (typeof cursor) "object" then
         b <- cursor_next cursor ;;
         r <- (if truthy b then cursor_object cursor else ret VNull) ;;
         cursor_close cursor ;;;
         ret r
       else ret VNull).
Proof.
  apply preserves_if; (apply preserves_bind; [apply preserves_query_list|]); intros ql.
  - apply preserves_impl_query, cb_preserves_findOne_callback.
  - apply preserves_bind; [apply preserves_impl_query, cb_preserves_val|]. intros cursor.
    apply preserves_if; [|apply preserves_ret].
    apply preserves_bind; [apply preserves_cursor_next|]. intros b.
    apply preserves_bind;
      [apply preserves_if; [apply preserves_cursor_object|apply preserves_ret]|].
    intros r. apply preserves_bind; [apply preserves_cursor_close|]. intros _.
    apply preserves_ret.
Qed.

(** [postprocess] and [save], for a frame that allows storing [_id]. *)
Hypothesis R_id : forall v x, preserves R (set_prop v "_id" x).

Lemma preserves_postprocess_loop (jsarr oids : value) (n : nat) :
  preserves R (postprocess_loop jsarr oids n).
Proof.
  induction n as [|i IH]; cbn [postprocess_loop]; [apply preserves_ret|].
  apply preserves_bind; [apply preserves_get_index|]. intros so.
  apply preserves_bind; [|intros _; exact IH].
  apply preserves_if; [|apply preserves_ret].
  apply preserves_bind; [apply preserves_get_prop|]. intros cur.
  apply preserves_bind; [apply preserves_get_index|]. intros oid.
  apply preserves_if; [|apply preserves_ret].
  apply preserves_bind; [apply preserves_get_index|]. intros oid'.
  apply R_id.
Qed.

Lemma preserves_postprocess (jsarr oids : value) : preserves R (postprocess jsarr oids).
Proof.
  unfold postprocess. apply preserves_bind.
  - apply preserves_same_heap. reflexivity.
  - intros h. apply preserves_postprocess_loop.
Qed.

Lemma cb_preserves_save_callback (jsarr cb : value) :
  cb_preserves R (CbWrap (save_callback jsarr cb)).
Proof.
  intros a. cbn [invoke]. unfold save_callback.
  apply preserves_if; [apply preserves_call_value|].
  apply preserves_bind; [apply preserves_postprocess|]. intros _.
  apply preserves_call_value.
Qed.

Lemma preserves_impl_save (cname jsarr opts : value) (cb : cbarg) :
  cb_preserves R cb -> preserves R (impl_save cname jsarr opts cb).
Proof.
  intros Hcb. unfold impl_save.
  apply preserves_bind; [apply preserves_log|]. intros _.
  apply preserves_bind; [apply preserves_run_engine|]. intros [f|oids].
  - apply preserves_if; [|apply preserves_throw].
    apply preserves_bind; [now apply preserves_deliver|]. intros _. apply preserves_ret.
  - apply preserves_if; [|apply preserves_alloc].
    apply preserves_bind; [|intros _; apply preserves_ret].
    apply preserves_bind; [apply preserves_alloc|]. intros arr.
    now apply preserves_deliver.
Qed.

Lemma preserves_save (args : list value) : preserves R (save args).
Proof.
  unfold save. apply preserves_if; [apply preserves_alloc|].
  apply preserves_bind; [apply preserves_if; [apply preserves_alloc|apply preserves_ret]|].
  intros jsarr.
  match goal with
  | |- context [match ?t with (_, _) => _ end] => destruct t as [cb opts]
  end.
  apply preserves_if.
  - apply preserves_bind; [apply preserves_or_else, preserves_alloc|]. intros o.
    apply preserves_bind; [apply preserves_impl_save, cb_preserves_val|]. intros oids.
    apply preserves_bind; [apply preserves_postprocess|]. intros _. apply preserves_ret.
  - apply preserves_bind; [apply preserves_or_else, preserves_alloc|]. intros o.
    apply preserves_impl_save, cb_preserves_save_callback.
Qed.

End Frame.

(** ** Properties of the query functions *)

(** X1: [find], [update] and [count] never change or remove an object that
    existed before the call, whatever the arguments, the engine's answer
    and the calling mode: they only create new objects. *)
Theorem query_functions_keep_objects (args : list value) (s : state) :
  heap_extends (st_heap s) (st_heap (snd (find args s)))
  /\ heap_extends (st_heap s) (st_heap (snd (update args s)))
  /\ heap_extends (st_heap s) (st_heap (snd (count args s))).
Proof.
  split; [|split].
  - apply (preserves_find heap_extends heap_extends_refl heap_extends_trans); auto.
  - apply (preserves_update heap_extends heap_extends_refl heap_extends_trans); auto.
  - apply (preserves_count heap_extends heap_extends_refl heap_extends_trans); auto.
Qed.

Lemma changes_only_keeps (P : loc -> string -> Prop) (h h' : heap) (l : loc) (c : cell) :
  changes_only P h h' -> h !! l = Some c -> (forall name, ~ P l name) -> h' !! l = Some c.
Proof.
  intros Hch Hl HP. destruct (Hch l c Hl) as (c' & Hl' & (He & Hx & Hr) & Hp).
  rewrite Hl'. f_equal. destruct c as [p e x r], c' as [p' e' x' r']. cbn in *.
  subst e' x' r'. f_equal.
  apply map_eq. intros name. apply Hp, HP.
Qed.

(** X2: the only property [findOne] ever writes is [$max] of the object in
    the hints slot of the parsed arguments; and called without a hints
    object ([(cname[, qobj[, orarr]][, cb])]) it leaves every object that
    existed before the call exactly as it was. *)
Theorem findOne_writes_only_max :
  (forall (args : list value) (s : state),
     changes_only
       (fun l name => name = "$max"
          /\ exists qa k, fst (parseQueryArgs args s) = Ok qa /\ qa_hints qa = VRef k l)
       (st_heap s) (st_heap (snd (findOne args s))))
  /\ (forall (sh : query_shape) (cb : option loc) (s : state),
        shape_hints sh = None ->
        heap_extends (st_heap s) (st_heap (snd (findOne (shape_args sh cb) s)))).
Proof.
  assert (Hgen : forall (args : list value) (s : state),
     changes_only
       (fun l name => name = "$max"
          /\ exists qa k, fst (parseQueryArgs args s) = Ok qa /\ qa_hints qa = VRef k l)
       (st_heap s) (st_heap (snd (findOne args s)))).
  { intros args s.
    set (P := fun l name => name = "$max"
          /\ exists qa k, fst (parseQueryArgs args s) = Ok qa /\ qa_hints qa = VRef k l).
    pose proof (preserves_parseQueryArgs (changes_only P) (changes_only_refl P)
                  (changes_only_trans P) (changes_only_extends P) args s) as Hparse.
    unfold findOne, bind at 1.
    destruct (parseQueryArgs args s) as [[qa|e] s1] eqn:Hrun; cbn [snd] in *; [|exact Hparse].
    eapply changes_only_trans; [exact Hparse|].
    match goal with |- changes_only P (st_heap ?s1) (st_heap (snd (?m ?s1))) =>
      enough (Hp : preserves (changes_only P) m) by apply Hp end.
    apply (preserves_bind (changes_only P) (changes_only_trans P)).
    - apply preserves_set_prop. intros k l Hh. split; [reflexivity|].
      exists qa, k. split; [reflexivity|exact Hh].
    - intros _.
      apply (preserves_findOne_rest (changes_only P) (changes_only_refl P)
               (changes_only_trans P) (changes_only_extends P)). }
  split; [exact Hgen|].
  intros sh cb s Hsh l c Hl.
  destruct (parseQueryArgs_shape_spec sh cb s)
    as (qa & s1 & Hparse & _ & _ & _ & Hhints & _ & _).
  rewrite Hsh in Hhints. destruct Hhints as (lh & Hlh & Hfresh & _).
  eapply changes_only_keeps; [apply Hgen|exact Hl|].
  intros name (_ & qa' & k & Hqa & Hk).
  rewrite Hparse in Hqa. cbn in Hqa. injection Hqa as <-.
  rewrite Hlh in Hk. injection Hk as _ <-. congruence.
Qed.

(** X3: whatever the arguments, the engine's answer and the calling mode,
    [save] changes nothing in the objects that existed before the call
    except their [_id] property: no other property, no array element, and
    no object disappears. *)
Theorem save_writes_only_id (args : list value) (s : state) :
  changes_only (fun _ name => name = "_id") (st_heap s) (st_heap (snd (save args s))).
Proof.
  apply (preserves_save _ (changes_only_refl _) (changes_only_trans _)
           (changes_only_extends _)).
  intros v x. apply preserves_set_prop. reflexivity.
Qed.

Lemma or_else_cases (v : value) (k : kind) (c : cell) (s : state) :
  exists o s1, or_else v (alloc k c) s = (Ok o, s1) /\ only_allocates s s1
    /\ ((truthy v = true /\ o = v) \/ (truthy v = false /\ exists l, o = VRef k l)).
Proof.
  unfold or_else. destruct (truthy v) eqn:Hv.
  - exists v, s. split; [reflexivity|]. split; [apply only_allocates_refl|]. now left.
  - destruct (alloc_only_allocates k c s) as (l & s' & Hrun & _ & _ & Hal).
    exists (VRef k l), s'. split; [exact Hrun|]. split; [exact Hal|]. right. eauto.
Qed.

Lemma typeof_eqb_object_not_function (v : value) :
  String.eqb (typeof v) "object" = true -> String.eqb (typeof v) "function" = false.
Proof. destruct v as [| | | | | |[] l]; cbn; congruence. Qed.

(** X4: on every argument list [parseQueryArgs] either throws its
    collection-name error, exactly when the first argument is not a string
    and with the state untouched, or returns a tuple with the collection
    name first, a truthy non-function in the [qobj] slot, an array in the
    [orarr] slot, a truthy value of type ["object"] in the [hints] slot and
    [null] or a function in the [cb] slot, having only created objects. *)
Theorem parseQueryArgs_result (args : list value) (s : state) :
  match parseQueryArgs args s with
  | (Throw e, s') =>
      typeof (arg args 0) <> "string" /\ e = cname_error /\ s' = s
  | (Ok qa, s') =>
      typeof (arg args 0) = "string"
      /\ qa_cname qa = arg args 0
      /\ truthy (qa_qobj qa) = true
      /\ typeof (qa_qobj qa) <> "function"
      /\ isArray (qa_orarr qa) = true
      /\ truthy (qa_hints qa) = true
      /\ typeof (qa_hints qa) = "object"
      /\ (qa_cb qa = VNull \/ typeof (qa_cb qa) = "function")
      /\ only_allocates s s'
  end.
Proof.
  unfold parseQueryArgs.
  destruct (String.eqb (typeof (arg args 0)) "string") eqn:Hname; cbn [negb].
  2:{ cbn. split; [|split; reflexivity]. intros Heq. rewrite Heq in Hname. discriminate. }
  apply String.eqb_eq in Hname.
  set (a1 := arg args 1). set (a2 := arg args 2).
  (* what the middle of the function leaves in orarr, hints and cb *)
  match goal with
  | |- context [match ?t with (_, _) => _ end] =>
      assert (Htuple : (isArray (fst (fst t)) = true \/ truthy (fst (fst t)) = false)
                       /\ (String.eqb (typeof (snd (fst t))) "object" = true
                           \/ snd (fst t) = VUndef)
                       /\ (snd t = VUndef \/ String.eqb (typeof (snd t)) "function" = true));
      [|destruct t as [[orarr hints] cb]]
  end.
  { destruct (String.eqb (typeof a1) "function") eqn:Hf1;
      destruct (strict_eq a2 VUndef); cbn [negb fst snd]; auto;
      destruct (isArray a2) eqn:Harr; cbn [negb fst snd truthy andb];
      try destruct (String.eqb (typeof a2) "object") eqn:Hobj2; cbn [negb fst snd truthy andb];
      try destruct (truthy a2) eqn:Ht2; cbn [negb fst snd andb];
      repeat match goal with
        | |- context [String.eqb (typeof ?v) ?k] =>
            lazymatch goal with
            | H : String.eqb (typeof v) k = _ |- _ => rewrite H
            | _ => let E := fresh "E" in destruct (String.eqb (typeof v) k) eqn:E
            end; cbn [negb fst snd andb]
        end;
      auto 6. }
  cbn [fst snd] in Htuple. destruct Htuple as (Horarr & Hhints & Hcb).
  destruct (or_else_cases (if String.eqb (typeof a1) "function" then VUndef else a1)
              KObj empty_cell s) as (q & sa & Hq & Ha & Hqc).
  destruct (or_else_cases orarr KArr (Cell ∅ []) sa) as (o & sb & Ho & Hb & Hoc).
  destruct (or_else_cases hints KObj empty_cell sb) as (h & sc & Hh & Hc & Hhc).
  unfold new_object, new_array.
  rewrite (bind_ok _ _ _ _ _ Hq), (bind_ok _ _ _ _ _ Ho), (bind_ok _ _ _ _ _ Hh).
  cbn [ret qa_cname qa_qobj qa_orarr qa_hints qa_cb].
  split; [exact Hname|]. split; [reflexivity|].
  split.
  { destruct Hqc as [[Ht ->]|[_ [l ->]]]; [exact Ht|reflexivity]. }
  split.
  { destruct Hqc as [[Ht ->]|[_ [l ->]]]; [|discriminate].
    destruct (String.eqb (typeof a1) "function") eqn:Hf1; [discriminate|].
    intros Heq. rewrite Heq in Hf1. discriminate. }
  split.
  { destruct Hoc as [[Ht ->]|[_ [l ->]]]; [|reflexivity].
    destruct Horarr as [Harr|Hfalse]; [exact Harr|congruence]. }
  split.
  { destruct Hhc as [[Ht ->]|[_ [l ->]]]; [exact Ht|reflexivity]. }
  split.
  { destruct Hhc as [[Ht ->]|[_ [l ->]]]; [|reflexivity].
    destruct Hhints as [Hobj| ->]; [now apply String.eqb_eq|discriminate]. }
  split.
  { unfold js_or. destruct Hcb as [->|Hfun]; [now left|].
    destruct (truthy cb); [right; now apply String.eqb_eq|now left]. }
  eapply only_allocates_trans; [exact Ha|]. eapply only_allocates_trans; eauto.
Qed.

(** X5: an explicit [undefined] in third position ends the argument list
    for the four query functions: whatever follows it, a callback included,
    is ignored, and the call runs as the two-argument call. *)
Theorem undefined_third_argument_ends_arguments
    (op : query_op) (c q : value) (rest : list value) :
  run_op op (c :: q :: VUndef :: rest) = run_op op [c; q].
Proof.
  assert (Hp : parseQueryArgs (c :: q :: VUndef :: rest) = parseQueryArgs [c; q])
    by reflexivity.
  destruct op; cbn [run_op]; unfold find, findOne, update, count; rewrite Hp; reflexivity.
Qed.

Lemma get_prop_after_alloc (v : value) (name : string) (l : loc) (elems : list value)
    (s : state) (x : value) :
  st_heap s !! l = None ->
  heap_get_prop (st_heap s) v name = Some x ->
  get_prop v name (with_heap (<[l := Cell ∅ elems]> (st_heap s)) s)
    = (Ok x, with_heap (<[l := Cell ∅ elems]> (st_heap s)) s).
Proof.
  intros Hfresh Hx. unfold get_prop, get_heap, bind. cbn [with_heap st_heap].
  rewrite (heap_get_prop_alloc _ _ _ _ _ Hfresh), Hx. reflexivity.
Qed.

(** X6: without a callback, [find] with a truthy [$onlycount] hint is
    [count]: both make the same engine call and give the same result and
    state ([update] as well). *)
Theorem find_onlycount_as_count (args : list value) (s : state)
    (qa : query_args) (s1 : state) (oc : value) :
  parseQueryArgs args s = (Ok qa, s1) ->
  qa_cb qa = VNull ->
  heap_get_prop (st_heap s1) (qa_hints qa) "$onlycount" = Some oc ->
  truthy oc = true ->
  find args s = count args s /\ find args s = update args s.
Proof.
  intros Hp Hcb Hoc Ht.
  assert (Hfind : find args s = count args s).
  { unfold find, count. rewrite !(bind_ok _ _ _ _ _ Hp). rewrite Hcb. cbn [truthy].
    destruct (query_list_spec qa s1) as (lq & Hfresh & Hql).
    rewrite !(bind_ok _ _ _ _ _ Hql).
    rewrite (bind_ok _ _ _ _ _ (get_prop_after_alloc _ _ _ _ _ _ Hfresh Hoc)).
    rewrite Ht. reflexivity. }
  split; [exact Hfind|]. rewrite Hfind. reflexivity.
Qed.

Lemma count_callback_spec (cb : value) (a : list value) (s : state) :
  exists r evs, count_callback cb a s = (r, add_trace evs s).
Proof.
  unfold count_callback. destruct (truthy (arg a 0)); apply call_value_spec.
Qed.

Lemma parseQueryArgs_ok_or_same (args : list value) (s : state) :
  (exists qa s1, parseQueryArgs args s = (Ok qa, s1) /\ only_allocates s s1)
  \/ parseQueryArgs args s = (Throw cname_error, s).
Proof.
  destruct (string_dec (typeof (arg args 0)) "string") as [Hname|Hname];
    [left|right; now apply parseQueryArgs_throws].
  unfold parseQueryArgs. rewrite Hname. cbn [negb].
  change (String.eqb "string" "string") with true. cbv iota. cbn [negb].
  match goal with
  | |- context [match ?t with (_, _) => _ end] => destruct t as [[orarr hints] cb]
  end.
  match goal with |- context [bind (or_else ?v _) _ s] =>
    destruct (or_else_spec v KObj empty_cell s) as (q & sa & Hq & Ha & _) end.
  destruct (or_else_spec orarr KArr (Cell ∅ []) sa) as (o & sb & Ho & Hb & _).
  destruct (or_else_spec hints KObj empty_cell sb) as (h & sc & Hh & Hc & _).
  unfold new_object, new_array.
  rewrite (bind_ok _ _ _ _ _ Hq), (bind_ok _ _ _ _ _ Ho), (bind_ok _ _ _ _ _ Hh).
  eexists _, _. split; [reflexivity|].
  eapply only_allocates_trans; [exact Ha|]. eapply only_allocates_trans; eauto.
Qed.

Lemma falsy_not_function (v : value) :
  truthy v = false -> String.eqb (typeof v) "function" = false.
Proof. destruct v as [| | | | | |[] l]; cbn; congruence. Qed.

(** X7: provided the constant [JBQRYCOUNT] is not zero, [count] and
    [update] never create a cursor, with or without a callback, and what
    they return is [undefined] or a number. *)
Theorem count_update_create_no_cursor (args : list value) (s : state) :
  JBQRYCOUNT <> 0 ->
  (st_cursors (snd (count args s)) = st_cursors s
   /\ match fst (count args s) with
      | Ok v => v = VUndef \/ exists n, v = VNum (Int n)
      | Throw _ => True
      end)
  /\ (st_cursors (snd (update args s)) = st_cursors s
      /\ match fst (update args s) with
         | Ok v => v = VUndef \/ exists n, v = VNum (Int n)
         | Throw _ => True
         end).
Proof.
  intros Hflag.
  assert (Hcount :
    st_cursors (snd (count args s)) = st_cursors s
    /\ match fst (count args s) with
       | Ok v => v = VUndef \/ exists n, v = VNum (Int n)
       | Throw _ => True
       end).
  {
    unfold count.
    destruct (parseQueryArgs_ok_or_same args s) as [(qa & s1 & Hp & _ & _ & Hcur & _)|Hp].
    2:{ rewrite (bind_throw _ _ _ _ _ Hp). now split. }
    rewrite (bind_ok _ _ _ _ _ Hp).
    destruct (query_list_spec qa s1) as (lq & Hfresh & Hql).
    pose proof (falsy_not_function (qa_cb qa)) as Hfalse.
    destruct (truthy (qa_cb qa)) eqn:Ht; rewrite (bind_ok _ _ _ _ _ Hql).
    - unfold impl_query, bind, log, run_engine. cbn [with_heap st_heap st_engine st_cursors st_trace is_async].
      destruct (eng_query _ _ _) as [e' [f|q]]; cbn [fst snd].
      + rewrite deliver_wrap.
        match goal with |- context [count_callback ?c ?a ?st] =>
          destruct (count_callback_spec c a st) as (r & evs & ->) end.
        destruct r; cbn; rewrite <- Hcur; auto.
      + rewrite (count_only_flag Hflag), deliver_wrap.
        match goal with |- context [count_callback ?c ?a ?st] =>
          destruct (count_callback_spec c a st) as (r & evs & ->) end.
        destruct r; cbn; rewrite <- Hcur; auto.
    - rewrite (impl_query_sync _ _ _ _ _ (Hfalse eq_refl)). cbn zeta.
      cbn [with_heap st_heap st_engine st_cursors st_trace].
      destruct (snd (eng_query _ _ _)) as [f|q]; cbn [fst snd st_cursors]; [now split|].
      rewrite (count_only_flag Hflag). cbn [fst snd st_cursors]. split; [exact Hcur|eauto]. }
  split; [exact Hcount|]. exact Hcount.
Qed.

(** X8: [count] and [update] with a callback make one engine call, with
    the count flag and their own closure, and return [undefined]; when the
    engine answers, the caller's function is applied once to
    [(null, count, log)], and when the engine fails to
    [(err, null, undefined)]. *)
Theorem count_callback_delivery (args : list value) (s : state)
    (qa : query_args) (s1 : state) (f : loc) :
  JBQRYCOUNT <> 0 ->
  parseQueryArgs args s = (Ok qa, s1) ->
  qa_cb qa = VRef KFun f ->
  exists lq s' evs,
    st_heap s1 !! lq = None
    /\ count args s = (Ok VUndef, s')
    /\ update args s = (Ok VUndef, s')
    /\ let call := [qa_cname qa; VRef KArr lq; VNum (Int JBQRYCOUNT)] in
       let h2 := <[lq := Cell ∅ ([qa_qobj qa]
                                  ++ concat_item (st_heap s1) (qa_orarr qa)
                                  ++ concat_item (st_heap s1) (qa_hints qa))]> (st_heap s1) in
       st_trace s' = st_trace s
         ++ [EvImpl "query" call DWrap;
             EvCall f match snd (eng_query (st_engine s) h2 call) with
                      | inl fl => [err_value fl; VNull; VUndef]
                      | inr q => [VNull; VNum (Int (qr_count q)); qr_log q]
                      end]
         ++ evs
       /\ (evs = [] \/ exists e, evs = [EvUncaught e]).
Proof.
  intros Hflag Hp Hcb.
  destruct (parseQueryArgs_inv _ _ _ _ Hp) as (_ & _ & _ & _ & _ & Htr & Heng & _ & _).
  destruct (query_list_spec qa s1) as (lq & Hfresh & Hql).
  assert (Hrun : exists s' evs,
    count args s = (Ok VUndef, s')
    /\ let call := [qa_cname qa; VRef KArr lq; VNum (Int JBQRYCOUNT)] in
       let h2 := <[lq := Cell ∅ ([qa_qobj qa]
                                  ++ concat_item (st_heap s1) (qa_orarr qa)
                                  ++ concat_item (st_heap s1) (qa_hints qa))]> (st_heap s1) in
       st_trace s' = st_trace s
         ++ [EvImpl "query" call DWrap;
             EvCall f match snd (eng_query (st_engine s) h2 call) with
                      | inl fl => [err_value fl; VNull; VUndef]
                      | inr q => [VNull; VNum (Int (qr_count q)); qr_log q]
                      end]
         ++ evs
       /\ (evs = [] \/ exists e, evs = [EvUncaught e])).
  { unfold count. rewrite (bind_ok _ _ _ _ _ Hp), Hcb. cbn [truthy].
    rewrite (bind_ok _ _ _ _ _ Hql).
    unfold impl_query, bind, log, run_engine.
    cbn [with_heap st_heap st_engine st_cursors st_trace is_async]. cbn zeta.
    rewrite Heng, Htr.
    destruct (eng_query _ _ _) as [e' [fl|q]]; cbn [fst snd].
    - rewrite deliver_wrap. unfold count_callback. cbn [arg nth err_value truthy].
      rewrite call_function_run.
      destruct (user_fn f _) as [e|]; eexists _, _;
        (split; [reflexivity|]); cbn [add_trace st_trace]; rewrite <- !app_assoc;
        (split; [reflexivity|]); eauto.
    - rewrite (count_only_flag Hflag), deliver_wrap. unfold count_callback.
      cbn [arg nth truthy]. rewrite call_function_run.
      destruct (user_fn f _) as [e|]; eexists _, _;
        (split; [reflexivity|]); cbn [add_trace st_trace]; rewrite <- !app_assoc;
        (split; [reflexivity|]); eauto. }
  destruct Hrun as (s' & evs & Hc & Htrace).
  exists lq, s', evs. split; [exact Hfresh|]. split; [exact Hc|].
  split; [exact Hc|exact Htrace].
Qed.

(** ** Properties of [save] and [dropCollection] *)

(** X9: when the engine refuses the [save] it is asked for, no [_id] is
    stamped: every object that existed before the call is exactly as it
    was, whether the failure is thrown or handed to a callback.  The
    refusal is the engine's answer to the one call [save] makes, on the
    store, the array and the options of that call. *)
Theorem save_failure_keeps_objects (args : list value) (s : state)
    (jsarr : value) (sa : state) (o : value) (s1 : state) (f : failure) :
  truthy (arg args 1) = true ->
  (if negb (isArray (arg args 1)) then new_array [arg args 1] else ret (arg args 1)) s
    = (Ok jsarr, sa) ->
  or_else (save_opts args) new_object sa = (Ok o, s1) ->
  snd (eng_save (st_engine s) (st_heap s1) [arg args 0; jsarr; o]) = inl f ->
  exists r s' evs,
    save args s = (r, s')
    /\ st_trace s' = st_trace s
         ++ EvImpl "save" [arg args 0; jsarr; o]
              (if loose_null (save_cb args) then DVal VUndef else DWrap)
         :: evs
    /\ Forall callback_event evs
    /\ st_heap s' = st_heap s1
    /\ heap_extends (st_heap s) (st_heap s').
Proof.
  intros Hdoc Hwrap Hopts Hfail.
  destruct (save_run args s jsarr sa o s1 Hdoc Hwrap Hopts)
    as (r & h' & evs & Hrun & Hevs & Hext & Hrefused).
  destruct (Hrefused f Hfail) as (-> & _).
  exists r. eexists _, evs. split; [exact Hrun|]. split; [reflexivity|].
  split; [exact Hevs|]. split; [reflexivity|exact Hext].
Qed.

(** X10: a two-argument [dropCollection(cname, x)] never asks the engine
    to prune, whatever [x] is, [true] included: the engine is called once,
    on [(cname, false)], and [x] is taken for the callback when it is
    truthy. *)
Theorem dropCollection_two_arguments_never_prune (cname x : value) (s : state) :
  exists r evs s',
    dropCollection [cname; x] s = (r, s')
    /\ st_trace s' = st_trace s
         ++ EvImpl "removeCollection" [cname; VBool false]
              (if truthy x then DVal x else DNoop) :: evs
    /\ st_engine s'
       = fst (eng_removeCollection (st_engine s) (st_heap s) [cname; VBool false])
    /\ st_heap s' = st_heap s.
Proof.
  unfold dropCollection. cbn [length Nat.eqb arg nth truthy].
  set (cb := if negb (truthy x) then CbNoop else CbVal x).
  assert (Hcb : forall k, cb <> CbWrap k).
  { intros k. subst cb. destruct (truthy x); discriminate. }
  assert (Hd : describe cb = if truthy x then DVal x else DNoop).
  { subst cb. destruct (truthy x); reflexivity. }
  destruct (impl_removeCollection_spec cname (VBool false) cb s Hcb)
    as (r & evs & Hrun & _).
  rewrite Hrun, Hd. eexists r, evs, _. split; [reflexivity|]. repeat split.
Qed.

(** X11: called without a callback, [dropCollection] hands the engine its
    own empty function, so a failure of the engine is lost: the call
    returns [undefined], nothing is thrown and no function of the caller is
    applied. *)
Theorem dropCollection_failure_swallowed (args : list value) (s : state) :
  truthy (if (length args =? 2)%nat then arg args 1 else arg args 2) = false ->
  exists b,
    dropCollection args s
    = (Ok VUndef,
       {| st_heap := st_heap s; st_cursors := st_cursors s;
          st_engine := fst (eng_removeCollection (st_engine s) (st_heap s)
                              [arg args 0; VBool b]);
          st_trace := st_trace s
            ++ [EvImpl "removeCollection" [arg args 0; VBool b] DNoop] |}).
Proof.
  intros Hcb. unfold dropCollection.
  destruct (length args =? 2)%nat; rewrite Hcb; cbn [negb];
    [exists false|exists (truthy (arg args 1))];
    unfold impl_removeCollection, bind, log, run_engine, deliver;
    cbn [st_heap st_engine st_cursors st_trace is_async describe truthy invoke ret];
    destruct (eng_removeCollection _ _ _) as [e' [f|]]; reflexivity.
Qed.

(** A failure of the engine in [dropCollection] and [removeCollection]:
    handed to a function in callback position, lost when the callback is
    falsy (the engine is given the wrapper's empty function), thrown when
    the callback is a truthy value that is not a function. *)
Lemma dropCollection_failure (run : list value -> M value) (args : list value)
    (s : state) (f : failure) :
  run = dropCollection \/ run = removeCollection ->
  let cb := dropCollection_cb args in
  let call := [arg args 0; VBool (truthy (dropCollection_prune args))] in
  snd (eng_removeCollection (st_engine s) (st_heap s) call) = Some f ->
  (forall cbl, cb = VRef KFun cbl ->
     failure_delivered (run args) s (EvImpl "removeCollection" call (DVal cb)) cbl f [])
  /\ (truthy cb = false ->
      failure_dropped (run args) s (EvImpl "removeCollection" call DNoop))
  /\ (truthy cb = true -> typeof cb <> "function" ->
      failure_thrown (run args) s (EvImpl "removeCollection" call (DVal cb)) f).
Proof.
  intros Hrun cb call Hfail.
  assert (Hdrop : dropCollection args
                  = impl_removeCollection (arg args 0)
                      (VBool (truthy (dropCollection_prune args)))
                      (if negb (truthy cb) then CbNoop else CbVal cb)).
  { unfold dropCollection, cb, dropCollection_cb, dropCollection_prune.
    now destruct (length args =? 2)%nat. }
  assert (Himpl : forall c,
            impl_removeCollection (arg args 0) (VBool (truthy (dropCollection_prune args))) c s
            = let s1 := after_call (st_heap s)
                          (fst (eng_removeCollection (st_engine s) (st_heap s) call))
                          [EvImpl "removeCollection" call (describe c)] s in
              if is_async c then (Ok VUndef, snd (deliver c [err_value f] s1))
              else (Throw (err_value f), s1)).
  { intros c. unfold impl_removeCollection, bind, log, run_engine. cbn.
    fold call. destruct (eng_removeCollection _ _ _) as [e' r]. cbn in Hfail. subst r. cbn.
    destruct (is_async c); [|reflexivity]. now rewrite deliver_ok. }
  assert (Hboth : forall r s', dropCollection args s = (r, s') ->
            (r = Ok VUndef \/ exists e, r = Throw e) -> run args s = (r, s')).
  { intros r s' Hd Hr. destruct Hrun as [->| ->]; [exact Hd|].
    unfold removeCollection, bind. rewrite Hd.
    destruct Hr as [->|(e & ->)]; reflexivity. }
  split; [|split].
  - intros cbl Hcb.
    pose proof (Himpl (CbVal cb)) as Hc. cbv zeta in Hc. rewrite Hcb in Hc.
    change (is_async (CbVal (VRef KFun cbl))) with true in Hc. cbv iota in Hc.
    unfold deliver in Hc. cbn [invoke] in Hc.
    match type of Hc with context [call_value _ ?a ?st] =>
      destruct (deferred_call cbl a st) as (evs & Hcall & Hevs) end.
    rewrite Hcall in Hc. cbn [snd describe] in Hc.
    eexists _, evs. split; [|split; [|exact Hevs]].
    + apply Hboth; [|now left]. rewrite Hdrop, Hcb. cbn [truthy negb]. exact Hc.
    + rewrite Hcb. cbn. now rewrite <- app_assoc.
  - intros Hcb.
    pose proof (Himpl CbNoop) as Hc. cbv zeta in Hc.
    change (is_async CbNoop) with true in Hc. cbv iota in Hc.
    change (deliver CbNoop [err_value f]) with (fun st : state => (Ok tt, st)) in Hc.
    cbn [snd describe] in Hc.
    eexists. split.
    + apply Hboth; [|now left]. rewrite Hdrop, Hcb. exact Hc.
    + reflexivity.
  - intros Hcb Hfun.
    pose proof (Himpl (CbVal cb)) as Hc. cbv zeta in Hc.
    assert (Hsync : is_async (CbVal cb) = false).
    { cbn. apply String.eqb_neq. exact Hfun. }
    rewrite Hsync in Hc. cbn [describe] in Hc.
    eexists. split.
    + apply Hboth; [|eauto]. rewrite Hdrop, Hcb. exact Hc.
    + reflexivity.
Qed.

(** ** [EJDB.isValidOID] on every input *)

(** X20: [isValidOID] returns on every input, and never returns [true]: it
    agrees with the documented test (24 lowercase hexadecimal digits)
    exactly on the values that are not valid identifiers. *)
Theorem isValidOID_never_true (v : value) :
  isValidOID v = Some false
  /\ (isValidOID v = Some (spec_isValidOID v) <-> spec_isValidOID v = false).
Proof.
  pose proof (isValidOID_always_false v) as Hv. split; [exact Hv|].
  rewrite Hv. split.
  - intros Heq. injection Heq as Heq. now symmetry.
  - intros ->. reflexivity.
Qed.
End Wrapper.

(** * [EJDB.open], [ensureCollection], [command] and the exported constants *)

Section Library.

Context `{EN : Engine} {LIB : Ejdblib}.

(** ** [EJDB.open] *)

Lemma new_EJDB_spec (s : state) :
  exists ldb limpl,
    st_heap s !! ldb = None
    /\ st_heap s !! limpl = None
    /\ ldb <> limpl
    /\ new_EJDB s =
         (Ok (VRef KObj ldb),
          with_heap (<[ldb := cell_define_readonly "_impl" (VRef KObj limpl) empty_cell]>
                       (<[limpl := empty_cell]> (<[ldb := empty_cell]> (st_heap s)))) s).
Proof.
  unfold new_EJDB, new_object.
  destruct (alloc_spec KObj empty_cell s) as (ldb & Hdb & Hrun1).
  rewrite (bind_ok _ _ _ _ _ Hrun1).
  match goal with |- context [bind (alloc KObj empty_cell) _ ?st] =>
    destruct (alloc_spec KObj empty_cell st) as (limpl & Himpl & Hrun2) end.
  cbn [st_heap st_cursors st_engine st_trace] in Himpl, Hrun2.
  rewrite (bind_ok _ _ _ _ _ Hrun2).
  assert (Hne : ldb <> limpl).
  { intros ->. rewrite heap_lookup_insert_eq in Himpl. discriminate. }
  rewrite heap_lookup_insert_ne in Himpl by exact Hne.
  exists ldb, limpl. repeat split; try assumption.
  unfold define_readonly, bind, get_heap, set_heap, ret, with_heap.
  cbn [st_heap st_cursors st_engine st_trace].
  rewrite cell_at_insert_ne by (intros Heq; apply Hne; now symmetry).
  rewrite cell_at_insert_eq. reflexivity.
Qed.

(** One step of [open]: the objects it creates, the mode it computes, the
    engine call, and then the delivery. *)
Lemma open_run (args : list value) (s : state) :
  exists ldb limpl,
    st_heap s !! ldb = None
    /\ st_heap s !! limpl = None
    /\ ldb <> limpl
    /\ let h2 := <[ldb := cell_define_readonly "_impl" (VRef KObj limpl) empty_cell]>
                   (<[limpl := empty_cell]> (<[ldb := empty_cell]> (st_heap s))) in
       let mode := if gt_num (to_number h2 (arg args 1)) 0 then arg args 1
                   else VNum (Int DEFAULT_OPEN_MODE) in
       let er := eng_open (st_engine s) h2 [arg args 0; mode] in
       let s2 := {| st_heap := h2; st_cursors := st_cursors s; st_engine := fst er;
                    st_trace := st_trace s
                      ++ [EvImpl "open" [arg args 0; mode]
                            (if truthy (arg args 2) then DWrap else DVal VUndef)] |} in
       open args s =
         if truthy (arg args 2) then
           match call_value (arg args 2)
                   [match snd er with Some f => err_value f | None => VNull end;
                    VRef KObj ldb] s2 with
           | (Ok _, s3) => (Ok VUndef, s3)
           | (Throw e, s3) => (Ok VUndef, add_trace [EvUncaught e] s3)
           end
         else
           (match snd er with
            | Some f => Throw (err_value f)
            | None => Ok (VRef KObj ldb)
            end, s2).
Proof.
  destruct (new_EJDB_spec s) as (ldb & limpl & Hdb & Himpl & Hne & Hnew).
  exists ldb, limpl. repeat (split; [assumption|]). cbv zeta.
  unfold open. rewrite (bind_ok _ _ _ _ _ Hnew).
  unfold get_heap at 1. unfold bind at 1. cbn [with_heap st_heap].
  destruct (truthy (arg args 2)).
  - unfold impl_open, bind, log, run_engine.
    cbn [with_heap st_heap st_engine st_cursors st_trace is_async describe].
    destruct (eng_open _ _ _) as [e' r]. cbn [fst snd].
    rewrite deliver_wrap. unfold open_callback. cbn [arg nth].
    destruct (call_value _ _ _) as [[[]|e] s3]; reflexivity.
  - unfold impl_open, bind, log, run_engine.
    cbn [with_heap st_heap st_engine st_cursors st_trace is_async describe typeof String.eqb].
    destruct (eng_open _ _ _) as [e' [f|]]; reflexivity.
Qed.

(** X12: the mode [EJDB.open] hands to the engine is the caller's
    [openMode] itself when that is a number above zero, and
    [DEFAULT_OPEN_MODE] when it is [undefined], [null], [false], [NaN],
    zero or negative; [true] counts as above zero and is handed over as it
    is; for a string or an object it is one of the two. *)
Theorem open_mode_defaulting (args : list value) (s : state) :
  exists mode d evs r s',
    open args s = (r, s')
    /\ st_trace s' = st_trace s ++ EvImpl "open" [arg args 0; mode] d :: evs
    /\ match arg args 1 with
       | VUndef | VNull | VBool false | VNum NaN => mode = VNum (Int DEFAULT_OPEN_MODE)
       | VNum (Int z) => mode = VNum (Int (if 0 <? z then z else DEFAULT_OPEN_MODE))
       | VBool true => mode = VBool true
       | _ => mode = arg args 1 \/ mode = VNum (Int DEFAULT_OPEN_MODE)
       end.
Proof.
  destruct (open_run args s) as (ldb & limpl & _ & _ & _ & Hrun). cbv zeta in Hrun.
  set (mode := if gt_num _ 0 then arg args 1 else VNum (Int DEFAULT_OPEN_MODE)) in Hrun.
  exists mode.
  assert (Hmode :
    match arg args 1 with
    | VUndef | VNull | VBool false | VNum NaN => mode = VNum (Int DEFAULT_OPEN_MODE)
    | VNum (Int z) => mode = VNum (Int (if 0 <? z then z else DEFAULT_OPEN_MODE))
    | VBool true => mode = VBool true
    | _ => mode = arg args 1 \/ mode = VNum (Int DEFAULT_OPEN_MODE)
    end).
  { subst mode.
    destruct (arg args 1) as [| |[]|[|z]| | |k l]; cbn [to_number gt_num]; try reflexivity.
    - destruct (0 <? z); reflexivity.
    - destruct (gt_num _ 0); auto.
    - destruct (gt_num _ 0); auto.
    - destruct (gt_num _ 0); auto. }
  clearbody mode. rewrite Hrun. destruct (truthy (arg args 2)).
  - match goal with |- context [call_value ?c ?a ?st] =>
      destruct (call_value_spec c a st) as (r & evs & ->) end.
    destruct r.
    + exists DWrap, evs. eexists _, _. split; [reflexivity|].
      cbn [add_trace st_trace]. rewrite <- app_assoc. split; [reflexivity|exact Hmode].
    + exists DWrap, (evs ++ [EvUncaught e]). eexists _, _. split; [reflexivity|].
      cbn [add_trace st_trace]. rewrite <- !app_assoc. split; [reflexivity|exact Hmode].
  - exists (DVal VUndef), []. eexists _, _. split; [reflexivity|].
    split; [reflexivity|exact Hmode].
Qed.

(** X13: [EJDB.open] creates a new database object whose [_impl] is a new
    native object and leaves the caller's objects as they were.  Without a
    third argument it applies no function of the caller, even one passed in
    second position: it returns the database object when the engine opens
    the file and throws the engine's failure otherwise.  With a function as
    third argument it returns [undefined] and applies that function once,
    to the failure or [null] and the database object. *)
Theorem open_result (args : list value) (s : state) :
  exists ldb limpl mode r s',
    open args s = (r, s')
    /\ st_heap s !! ldb = None
    /\ st_heap s !! limpl = None
    /\ heap_get_prop (st_heap s') (VRef KObj ldb) "_impl" = Some (VRef KObj limpl)
    /\ heap_extends (st_heap s) (st_heap s')
    /\ let answer := snd (eng_open (st_engine s) (st_heap s') [arg args 0; mode]) in
       if truthy (arg args 2) then
         r = Ok VUndef
         /\ forall f, arg args 2 = VRef KFun f ->
              exists evs,
                st_trace s' = st_trace s
                  ++ EvImpl "open" [arg args 0; mode] DWrap
                  :: EvCall f [match answer with
                               | Some fl => err_value fl
                               | None => VNull
                               end; VRef KObj ldb]
                  :: evs
       else
         r = match answer with
             | Some fl => Throw (err_value fl)
             | None => Ok (VRef KObj ldb)
             end
         /\ st_trace s' = st_trace s ++ [EvImpl "open" [arg args 0; mode] (DVal VUndef)].
Proof.
  destruct (open_run args s) as (ldb & limpl & Hdb & Himpl & Hne & Hrun). cbv zeta in Hrun.
  set (h2 := <[ldb := cell_define_readonly "_impl" (VRef KObj limpl) empty_cell]> _) in Hrun.
  set (mode := if gt_num _ 0 then arg args 1 else VNum (Int DEFAULT_OPEN_MODE)) in Hrun.
  assert (Hprop : heap_get_prop h2 (VRef KObj ldb) "_impl" = Some (VRef KObj limpl)).
  { subst h2. cbn [heap_get_prop]. rewrite cell_at_insert_eq.
    cbn [cell_define_readonly c_props]. now rewrite lookup_insert_eq. }
  assert (Hext : heap_extends (st_heap s) h2).
  { intros l c Hl. subst h2.
    assert (l <> ldb) by (intros ->; congruence).
    assert (l <> limpl) by (intros ->; congruence).
    rewrite !heap_lookup_insert_ne by congruence. exact Hl. }
  clearbody h2 mode. exists ldb, limpl, mode. rewrite Hrun.
  destruct (truthy (arg args 2)) eqn:Hcb.
  - destruct (call_value _ _ _) as [r s3] eqn:Hcall.
    assert (Hs3 : st_heap s3 = h2
                  /\ forall f, arg args 2 = VRef KFun f ->
                       exists evs, st_trace s3 = st_trace s
                         ++ EvImpl "open" [arg args 0; mode] DWrap
                         :: EvCall f [match snd (eng_open (st_engine s) h2 [arg args 0; mode]) with
                                      | Some fl => err_value fl
                                      | None => VNull
                                      end; VRef KObj ldb] :: evs
                         /\ evs = []).
    { split.
      - match type of Hcall with call_value ?c ?a ?st = _ =>
          destruct (call_value_spec c a st) as (r' & evs & Heq) end.
        rewrite Heq in Hcall. injection Hcall as _ <-. reflexivity.
      - intros f Hf. rewrite Hf, call_function_run in Hcall. injection Hcall as _ <-.
        exists []. cbn [add_trace st_trace]. rewrite <- app_assoc. now split. }
    destruct Hs3 as [Hheap Htrace].
    destruct r as [[]|e]; eexists _, _; (split; [reflexivity|]);
      cbn [add_trace st_heap st_trace]; rewrite Hheap;
      (repeat (split; [assumption|])); cbv zeta; (split; [reflexivity|]);
      intros f Hf; destruct (Htrace f Hf) as (evs & -> & ->); eauto.
    eexists. rewrite <- app_assoc. reflexivity.
  - eexists _, _. split; [reflexivity|]. cbn [st_heap st_trace].
    repeat (split; [assumption|]). cbv zeta. split; reflexivity.
Qed.

(** ** [ensureCollection] *)

Lemma bind_ret_left {A B} (a : A) (f : A -> M B) (s : state) : bind (ret a) f s = f a s.
Proof. reflexivity. Qed.

Lemma impl_ensureCollection_spec (cname copts cbv : value) (s : state) :
  exists r evs,
    impl_ensureCollection cname copts (CbVal cbv) s =
      (r, {| st_heap := st_heap s; st_cursors := st_cursors s;
             st_engine := fst (eng_ensureCollection (st_engine s) (st_heap s) [cname; copts]);
             st_trace := st_trace s
               ++ EvImpl "ensureCollection" [cname; copts] (DVal cbv) :: evs |}).
Proof.
  unfold impl_ensureCollection, bind, log, run_engine. cbn.
  destruct (eng_ensureCollection _ _ _) as [e' r]. cbn.
  destruct (String.eqb (typeof cbv) "function").
  - match goal with |- context [deliver ?c ?a ?st] =>
      destruct (deliver_spec c a st) as (evs & ->); [discriminate|] end.
    exists (Ok VUndef), evs. unfold add_trace, ret. cbn. now rewrite <- app_assoc.
  - destruct r as [f|]; eexists _, []; reflexivity.
Qed.

(** X14: whatever it is given, [ensureCollection] makes one engine call
    with options that are truthy: the caller's [copts] when that is truthy
    and not a function standing for the callback, a new empty object
    otherwise; a function in second position is taken for the callback
    only in a call with exactly two arguments.  The caller's objects are
    left as they were. *)
Theorem ensureCollection_options (args : list value) (s : state) :
  exists o cb evs r s',
    ensureCollection args s = (r, s')
    /\ st_trace s' = st_trace s
         ++ EvImpl "ensureCollection" [arg args 0; o] (DVal cb) :: evs
    /\ truthy o = true
    /\ heap_extends (st_heap s) (st_heap s')
    /\ if (length args =? 2)%nat && String.eqb (typeof (arg args 1)) "function"
       then cb = arg args 1
            /\ exists l, o = VRef KObj l /\ st_heap s !! l = None
                         /\ st_heap s' !! l = Some empty_cell
       else cb = arg args 2
            /\ if truthy (arg args 1) then o = arg args 1
               else exists l, o = VRef KObj l /\ st_heap s !! l = None
                              /\ st_heap s' !! l = Some empty_cell.
Proof.
  unfold ensureCollection, new_object.
  destruct ((length args =? 2)%nat && String.eqb (typeof (arg args 1)) "function").
  - destruct (alloc_spec KObj empty_cell s) as (l & Hfresh & Hrun).
    pose proof (bind_ok _ (fun o => ret (o, arg args 1)) _ _ _ Hrun) as Hpair.
    rewrite (bind_ok _ _ _ _ _ Hpair). cbv beta iota.
    unfold or_else. cbn [truthy]. rewrite bind_ret_left.
    match goal with |- context [impl_ensureCollection ?c ?o (CbVal ?v) ?st] =>
      destruct (impl_ensureCollection_spec c o v st) as (r & evs & ->) end.
    exists (VRef KObj l), (arg args 1), evs, r. eexists. split; [reflexivity|].
    cbn [st_heap st_trace]. split; [reflexivity|]. split; [reflexivity|].
    split; [now apply insert_fresh_extends|]. split; [reflexivity|].
    exists l. split; [reflexivity|]. split; [exact Hfresh|apply lookup_insert_eq].
  - rewrite bind_ret_left. cbv beta iota. unfold or_else.
    destruct (truthy (arg args 1)) eqn:Ht.
    + rewrite bind_ret_left.
      match goal with |- context [impl_ensureCollection ?c ?o (CbVal ?v) ?st] =>
        destruct (impl_ensureCollection_spec c o v st) as (r & evs & ->) end.
      exists (arg args 1), (arg args 2), evs, r. eexists. split; [reflexivity|].
      cbn [st_heap st_trace]. split; [reflexivity|]. split; [exact Ht|].
      split; [apply heap_extends_refl|]. split; reflexivity.
    + destruct (alloc_spec KObj empty_cell s) as (l & Hfresh & Hrun).
      rewrite (bind_ok _ _ _ _ _ Hrun).
      match goal with |- context [impl_ensureCollection ?c ?o (CbVal ?v) ?st] =>
        destruct (impl_ensureCollection_spec c o v st) as (r & evs & ->) end.
      exists (VRef KObj l), (arg args 2), evs, r. eexists. split; [reflexivity|].
      cbn [st_heap st_trace]. split; [reflexivity|]. split; [reflexivity|].
      split; [now apply insert_fresh_extends|]. split; [reflexivity|].
      exists l. split; [reflexivity|]. split; [exact Hfresh|apply lookup_insert_eq].
Qed.

(** X15: [ensureCollection(cname, cb)] runs exactly as
    [ensureCollection(cname, x, cb)] for a falsy [x] ([undefined], [null],
    ...): the same new options object, the same engine call, the same
    delivery. *)
Theorem ensureCollection_callback_in_second_position
    (cname x : value) (f : loc) (s : state) :
  truthy x = false ->
  ensureCollection [cname; VRef KFun f] s = ensureCollection [cname; x; VRef KFun f] s.
Proof.
  intros Hx. unfold ensureCollection, new_object.
  cbn [length Nat.eqb arg nth typeof andb].
  change (String.eqb "function" "function") with true. cbv iota.
  destruct (alloc_spec KObj empty_cell s) as (l & Hfresh & Hrun).
  pose proof (bind_ok _ (fun o => ret (o, VRef KFun f)) _ _ _ Hrun) as Hpair.
  rewrite (bind_ok _ _ _ _ _ Hpair), bind_ret_left. cbv beta iota.
  unfold or_else. rewrite Hx. cbn [truthy].
  rewrite bind_ret_left, (bind_ok _ _ _ _ _ Hrun). reflexivity.
Qed.

(** ** [command] *)

(** The closure of [command] is, word for word, the closure of
    [findOne]. *)
Lemma command_callback_as_findOne (cb : value) (a : list value) :
  command_callback cb a = findOne_callback cb a.
Proof. reflexivity. Qed.

Ltac frame_side :=
  first [exact heap_extends_refl | exact heap_extends_trans | exact (fun h h' H => H)].

Ltac frame lem := apply lem; try frame_side.

Lemma preserves_impl_command (cmd : value) (cb : cbarg) :
  cb_preserves heap_extends cb -> preserves heap_extends (impl_command cmd cb).
Proof.
  intros Hcb. unfold impl_command.
  frame preserves_bind; [frame preserves_log|]. intros _.
  frame preserves_bind; [frame preserves_run_engine|]. intros [f|records].
  - frame preserves_if; [|frame preserves_throw].
    frame preserves_bind; [now frame preserves_deliver|]. intros _. frame preserves_ret.
  - frame preserves_if; [|frame preserves_new_cursor].
    frame preserves_bind; [|intros _; frame preserves_ret].
    frame preserves_bind; [frame preserves_new_cursor|]. intros c.
    now frame preserves_deliver.
Qed.

(** X16: [command] leaves every object that existed before the call
    exactly as it was, and with a truthy second argument it returns
    [undefined] whatever the engine answers and whatever the callback
    does. *)
Theorem command_keeps_objects (args : list value) (s : state) :
  heap_extends (st_heap s) (st_heap (snd (command args s)))
  /\ (truthy (arg args 1) = true -> fst (command args s) = Ok VUndef).
Proof.
  split.
  - revert s. change (preserves heap_extends (command args)). unfold command.
    frame preserves_if.
    + frame preserves_bind; [|intros _; frame preserves_ret].
      apply preserves_impl_command. intros a. cbn [invoke].
      rewrite command_callback_as_findOne.
      frame (cb_preserves_findOne_callback heap_extends).
    + frame preserves_bind; [apply preserves_impl_command; frame cb_preserves_val|].
      intros cursor. frame preserves_if; [|frame preserves_ret].
      frame preserves_bind; [frame preserves_cursor_next|]. intros b.
      frame preserves_bind.
      { frame preserves_if; [frame preserves_cursor_object|frame preserves_ret]. }
      intros r. frame preserves_bind; [frame preserves_cursor_close|]. intros _.
      frame preserves_ret.
  - intros Hcb. unfold command. rewrite Hcb.
    unfold impl_command, bind, log, run_engine. cbn [is_async].
    destruct (eng_command _ _ _) as [e' [f|records]]; cbn [fst snd].
    + now rewrite deliver_ok.
    + match goal with |- context [new_cursor ?r ?st] =>
        destruct (new_cursor_spec r st) as (lc & _ & ->) end.
      now rewrite deliver_ok.
Qed.

Lemma impl_command_sync (cmd : value) (s : state) :
  impl_command cmd (CbVal VUndef) s =
    let er := eng_command (st_engine s) (st_heap s) [cmd] in
    let s1 := {| st_heap := st_heap s; st_cursors := st_cursors s; st_engine := fst er;
                 st_trace := st_trace s ++ [EvImpl "command" [cmd] (DVal VUndef)] |} in
    match snd er with
    | inl f => (Throw (err_value f), s1)
    | inr records => new_cursor records s1
    end.
Proof.
  unfold impl_command, bind, log, run_engine.
  cbn [st_heap st_engine st_cursors st_trace describe is_async typeof].
  change (String.eqb "undefined" "function") with false. cbv iota zeta.
  destruct (eng_command _ _ _) as [e' [f|records]]; reflexivity.
Qed.

Lemma impl_command_async (cmd : value) (k : list value -> M unit) (s : state) :
  impl_command cmd (CbWrap k) s =
    let er := eng_command (st_engine s) (st_heap s) [cmd] in
    let s1 := {| st_heap := st_heap s; st_cursors := st_cursors s; st_engine := fst er;
                 st_trace := st_trace s ++ [EvImpl "command" [cmd] DWrap] |} in
    match snd er with
    | inl f => (Ok VUndef, snd (deliver (CbWrap k) [err_value f] s1))
    | inr records =>
        match new_cursor records s1 with
        | (Ok c, s2) => (Ok VUndef, snd (deliver (CbWrap k) [VNull; c] s2))
        | (Throw e, s2) => (Throw e, s2)
        end
    end.
Proof.
  unfold impl_command, bind, log, run_engine.
  cbn [st_heap st_engine st_cursors st_trace describe is_async]. cbv zeta.
  destruct (eng_command _ _ _) as [e' [f|records]]; cbn [fst snd].
  - now rewrite deliver_ok.
  - destruct (new_cursor records _) as [[c|e] s2]; [|reflexivity]. now rewrite deliver_ok.
Qed.

(** X17: without a callback, [command] makes one engine call and throws
    the engine's failure; when the engine answers, it reads the cursor
    once, returns the first record as a new object, or [null] when there
    is none, and has closed the cursor before it returns. *)
Theorem command_sync_result (args : list value) (s : state) :
  truthy (arg args 1) = false ->
  let er := eng_command (st_engine s) (st_heap s) [arg args 0] in
  match snd er with
  | inl f =>
      command args s =
        (Throw (err_value f),
         {| st_heap := st_heap s; st_cursors := st_cursors s; st_engine := fst er;
            st_trace := st_trace s ++ [EvImpl "command" [arg args 0] (DVal VUndef)] |})
  | inr records =>
      exists lc s',
        st_heap s !! lc = None
        /\ command args s =
             (Ok match records with
                 | [] => VNull
                 | r0 :: _ => fst (materialize r0 (<[lc := empty_cell]> (st_heap s)))
                 end, s')
        /\ st_trace s' = st_trace s
             ++ EvImpl "command" [arg args 0] (DVal VUndef)
             :: EvCursor "next" lc
             :: match records with [] => [] | _ :: _ => [EvCursor "object" lc] end
             ++ [EvCursor "close" lc]
        /\ st_cursors s' !! lc
           = Some (Cursor records (match records with [] => 0 | _ :: _ => 1 end) true)
  end.
Proof.
  intros Hcb er. unfold command. rewrite Hcb.
  pose proof (impl_command_sync (arg args 0) s) as Himpl. cbv zeta in Himpl. fold er in Himpl.
  destruct (snd er) as [f|records].
  - now rewrite (bind_throw _ _ _ _ _ Himpl).
  - match type of Himpl with _ = new_cursor ?r ?st =>
      destruct (new_cursor_spec r st) as (lc & Hfresh & Hnew) end.
    rewrite Hnew in Himpl. cbn [st_heap st_cursors st_engine st_trace] in Hfresh, Himpl.
    rewrite (bind_ok _ _ _ _ _ Himpl).
    change (truthy (VRef KObj lc) && String.eqb (typeof (VRef KObj lc)) "object") with true.
    cbv iota. exists lc.
    destruct records as [|r0 rest].
    + match goal with |- context [bind (cursor_next _) _ ?st] =>
        assert (Hc : st_cursors st !! lc = Some (Cursor [] 0 false))
          by (cbn; apply lookup_insert_eq);
        rewrite (bind_ok _ _ _ _ _ (cursor_next_empty lc st Hc))
      end.
      cbn [truthy]. rewrite bind_ret_left.
      match goal with |- context [bind (cursor_close _) _ ?st] =>
        assert (Hc2 : st_cursors st !! lc = Some (Cursor [] 0 false))
          by (cbn; apply lookup_insert_eq);
        rewrite (bind_ok _ _ _ _ _ (cursor_close_run lc _ st Hc2))
      end.
      eexists. split; [exact Hfresh|]. split; [reflexivity|].
      cbn [add_trace st_trace st_cursors cu_records cu_pos ret snd].
      split; [now rewrite <- !app_assoc|apply lookup_insert_eq].
    + match goal with |- context [bind (cursor_next _) _ ?st] =>
        assert (Hc : st_cursors st !! lc = Some (Cursor (r0 :: rest) 0 false))
          by (cbn; apply lookup_insert_eq);
        rewrite (bind_ok _ _ _ _ _ (cursor_next_first lc r0 rest st Hc))
      end.
      cbn [truthy].
      match goal with |- context [bind (cursor_object _) _ ?st] =>
        assert (Hc1 : st_cursors st !! lc = Some (Cursor (r0 :: rest) 1 false))
          by (cbn; apply lookup_insert_eq);
        rewrite (bind_ok _ _ _ _ _ (cursor_object_first lc r0 rest st Hc1))
      end.
      match goal with |- context [bind (cursor_close _) _ ?st] =>
        assert (Hc2 : st_cursors st !! lc = Some (Cursor (r0 :: rest) 1 false))
          by (cbn; apply lookup_insert_eq);
        rewrite (bind_ok _ _ _ _ _ (cursor_close_run lc _ st Hc2))
      end.
      eexists. split; [exact Hfresh|]. split; [reflexivity|].
      cbn [add_trace st_trace st_cursors st_heap cu_records cu_pos ret snd].
      split; [now rewrite <- !app_assoc|apply lookup_insert_eq].
Qed.

(** X18: with a function as callback, [command] returns [undefined] and
    applies the function exactly once: to the engine's failure; or to
    [(null, record)] for the first record, closing the cursor after the
    function has returned or thrown; or to [(null, null)] when the cursor is
    empty, in which case the cursor is left open. *)
Theorem command_callback_result (args : list value) (f : loc) (s : state) :
  arg args 1 = VRef KFun f ->
  let er := eng_command (st_engine s) (st_heap s) [arg args 0] in
  exists s' evs,
    command args s = (Ok VUndef, s')
    /\ (evs = [] \/ exists e, evs = [EvUncaught e])
    /\ match snd er with
       | inl fl =>
           st_trace s' = st_trace s
             ++ [EvImpl "command" [arg args 0] DWrap; EvCall f [err_value fl]] ++ evs
           /\ st_cursors s' = st_cursors s
       | inr [] =>
           exists lc,
             st_heap s !! lc = None
             /\ st_trace s' = st_trace s
                  ++ [EvImpl "command" [arg args 0] DWrap; EvCursor "next" lc;
                      EvCall f [VNull; VNull]] ++ evs
             /\ st_cursors s' !! lc = Some (Cursor [] 0 false)
       | inr (r0 :: rest) =>
           exists lc,
             st_heap s !! lc = None
             /\ st_trace s' = st_trace s
                  ++ [EvImpl "command" [arg args 0] DWrap; EvCursor "next" lc;
                      EvCursor "object" lc;
                      EvCall f [VNull; fst (materialize r0 (<[lc := empty_cell]> (st_heap s)))];
                      EvCursor "close" lc] ++ evs
             /\ st_cursors s' !! lc = Some (Cursor (r0 :: rest) 1 true)
       end.
Proof.
  intros Hcb er. unfold command. rewrite Hcb. cbn [truthy].
  pose proof (impl_command_async (arg args 0) (command_callback (VRef KFun f)) s) as Himpl.
  cbv zeta in Himpl. fold er in Himpl.
  destruct (snd er) as [fl|records].
  - rewrite (bind_ok _ _ _ _ _ Himpl). rewrite deliver_wrap.
    unfold command_callback. cbn [arg nth err_value truthy]. rewrite call_function_run.
    destruct (user_fn f _) as [e|]; eexists _, _; (split; [reflexivity|]);
      cbn [add_trace st_trace st_cursors snd]; rewrite <- ?app_assoc;
      (split; [|split; reflexivity]); eauto.
  - match type of Himpl with context [new_cursor ?r ?st] =>
      destruct (new_cursor_spec r st) as (lc & Hfresh & Hnew) end.
    rewrite Hnew in Himpl. cbn [st_heap st_cursors st_engine st_trace] in Hfresh, Himpl.
    rewrite (bind_ok _ _ _ _ _ Himpl), deliver_wrap.
    change (command_callback (VRef KFun f) [VNull; VRef KObj lc])
      with (findOne_callback (VRef KFun f) [VNull; VRef KObj lc; VUndef; VUndef]).
    destruct records as [|r0 rest].
    + rewrite findOne_callback_none by (cbn; apply lookup_insert_eq).
      destruct (user_fn f _) as [e|]; eexists _, _; (split; [reflexivity|]);
        cbn [add_trace st_trace st_cursors snd]; rewrite <- ?app_assoc;
        (split; [|exists lc; split; [exact Hfresh|split; [reflexivity|]]]);
        first [apply lookup_insert_eq | eauto].
    + rewrite (findOne_callback_first f lc r0 rest) by (cbn; apply lookup_insert_eq).
      cbn [st_heap].
      destruct (user_fn f _) as [e|]; eexists _, _; (split; [reflexivity|]);
        cbn [add_trace st_trace st_cursors snd]; rewrite <- ?app_assoc;
        (split; [|exists lc; split; [exact Hfresh|split; [reflexivity|]]]);
        first [apply lookup_insert_eq | eauto].
Qed.

(** ** The exported constants *)

(** [k.indexOf("JB") === 0] holds exactly of the names that begin with
    ["JB"]. *)
Lemma starts_with_JB_prefix (k : string) :
  starts_with_JB k = true <-> exists rest, k = String "J" (String "B" rest).
Proof.
  unfold starts_with_JB. destruct k as [|a k]; cbn [String.index].
  - split; [discriminate|]. intros [rest Hrest]. discriminate.
  - destruct (String.prefix "JB" (String a k)) eqn:Hp.
    + split; [intros _|reflexivity].
      cbn [String.prefix] in Hp.
      destruct (ascii_dec "J" a) as [<-|]; [|discriminate].
      destruct k as [|b k]; [discriminate|]. cbn [String.prefix] in Hp.
      destruct (ascii_dec "B" b) as [<-|]; [|discriminate]. eauto.
    + split.
      * destruct (String.index 0 "JB" k); discriminate.
      * intros [rest Hrest]. injection Hrest as -> ->.
        destruct rest; vm_compute in Hp; discriminate.
Qed.

Lemma export_loop_keeps (ejdblib : list (string * value)) :
  forall (EJDB : gmap string value) (k : string),
    starts_with_JB k = false \/ k ∉ ejdblib.*1 ->
    fold_left
      (fun acc kv => if starts_with_JB (fst kv) then <[fst kv := snd kv]> acc else acc)
      ejdblib EJDB !! k = EJDB !! k.
Proof.
  induction ejdblib as [|[k0 v0] rest IH]; intros EJDB k Hk; [reflexivity|].
  cbn [fold_left fst snd]. rewrite IH.
  - destruct (starts_with_JB k0) eqn:H0; [|reflexivity].
    apply lookup_insert_ne. intros ->. destruct Hk as [Hk|Hk]; [congruence|].
    apply Hk. cbn. left.
  - destruct Hk as [Hk|Hk]; [now left|]. right. intros Hin. apply Hk. cbn. now right.
Qed.

Lemma export_loop_sets (ejdblib : list (string * value)) :
  forall (EJDB : gmap string value) (k : string) (v : value),
    NoDup ejdblib.*1 ->
    (k, v) ∈ ejdblib ->
    starts_with_JB k = true ->
    fold_left
      (fun acc kv => if starts_with_JB (fst kv) then <[fst kv := snd kv]> acc else acc)
      ejdblib EJDB !! k = Some v.
Proof.
  induction ejdblib as [|[k0 v0] rest IH]; intros EJDB k v Hnd Hin Hjb.
  - now apply elem_of_nil in Hin.
  - cbn [fmap list_fmap fst] in Hnd. apply NoDup_cons in Hnd as [Hfresh Hnd].
    cbn [fold_left fst snd]. apply elem_of_cons in Hin as [Heq|Hin].
    + injection Heq as <- <-. rewrite export_loop_keeps by now right.
      rewrite Hjb. apply lookup_insert_eq.
    + now apply IH.
Qed.

(** X19: after the export of the constants, the function object [EJDB]
    holds every property of the native library whose name begins with
    ["JB"], with the library's value, holds [DEFAULT_OPEN_MODE], and is
    otherwise as before: no other property of the library is copied. *)
Theorem export_constants_lookup (ejdblib : list (string * value))
    (EJDB : gmap string value) :
  NoDup ejdblib.*1 ->
  export_constants ejdblib EJDB !! "DEFAULT_OPEN_MODE"
    = Some (VNum (Int (js_bitor JBOWRITER JBOCREAT)))
  /\ (forall k v, (k, v) ∈ ejdblib ->
        (exists rest, k = String "J" (String "B" rest)) ->
        export_constants ejdblib EJDB !! k = Some v)
  /\ (forall k, k <> "DEFAULT_OPEN_MODE" ->
        (~ (exists rest, k = String "J" (String "B" rest))) \/ k ∉ ejdblib.*1 ->
        export_constants ejdblib EJDB !! k = EJDB !! k).
Proof.
  intros Hnd. unfold export_constants. split; [apply lookup_insert_eq|]. split.
  - intros k v Hin Hjb. apply starts_with_JB_prefix in Hjb.
    rewrite lookup_insert_ne.
    + now apply export_loop_sets.
    + intros <-. discriminate.
  - intros k Hk Hno. rewrite lookup_insert_ne by congruence.
    apply export_loop_keeps. destruct Hno as [Hno|Hno]; [left|now right].
    destruct (starts_with_JB k) eqn:Hjb; [|reflexivity].
    exfalso. apply Hno. now apply starts_with_JB_prefix.
Qed.

End Library.

(** * How a failure of the engine reaches the caller *)

Section Delivery.

Context `{EN : Engine} {LIB : Ejdblib} {NAT : NativeMethods}.

(** [EJDB.open] when the engine cannot open the file. *)
Lemma open_failure (args : list value) (s : state) :
  exists ldb limpl,
    st_heap s !! ldb = None
    /\ st_heap s !! limpl = None
    /\ let h2 := <[ldb := cell_define_readonly "_impl" (VRef KObj limpl) empty_cell]>
                   (<[limpl := empty_cell]> (<[ldb := empty_cell]> (st_heap s))) in
       let mode := if gt_num (to_number h2 (arg args 1)) 0 then arg args 1
                   else VNum (Int DEFAULT_OPEN_MODE) in
       let call := [arg args 0; mode] in
       forall f, snd (eng_open (st_engine s) h2 call) = Some f ->
         (truthy (arg args 2) = false ->
          failure_thrown (open args) s (EvImpl "open" call (DVal VUndef)) f)
         /\ (forall cbl, arg args 2 = VRef KFun cbl ->
               failure_delivered (open args) s (EvImpl "open" call DWrap) cbl f
                 [VRef KObj ldb]).
Proof.
  destruct (open_run args s) as (ldb & limpl & Hdb & Himpl & _ & Hrun).
  exists ldb, limpl. split; [exact Hdb|]. split; [exact Himpl|].
  cbv zeta in *. intros f Hfail. rewrite Hfail in Hrun. split.
  - intros Hcb. rewrite Hcb in Hrun. eexists. split; [exact Hrun|reflexivity].
  - intros cbl Hcb. rewrite Hcb in Hrun. cbn [truthy] in Hrun.
    rewrite call_function_run in Hrun.
    destruct (user_fn cbl _) as [e|].
    + eexists _, [EvUncaught e]. split; [exact Hrun|]. split; [|eauto].
      cbn. now rewrite <- !app_assoc.
    + eexists _, []. split; [exact Hrun|]. split; [|now left].
      cbn. now rewrite <- !app_assoc.
Qed.

(** A native method given a value of the caller in callback position, the
    engine failing on the store [h]. *)
Lemma native_failure (m : M value) (s : state) (call : event) (cb : value)
    (h : heap) (e' : eng_state) (f : failure) :
  m s = (if is_async (CbVal cb)
         then (Ok VUndef, snd (deliver (CbVal cb) [err_value f] (after_call h e' [call] s)))
         else (Throw (err_value f), after_call h e' [call] s)) ->
  (typeof cb <> "function" -> failure_thrown m s call f)
  /\ (forall cbl, cb = VRef KFun cbl -> failure_delivered m s call cbl f []).
Proof.
  intros Hrun. split.
  - intros Hfun.
    assert (Hsync : is_async (CbVal cb) = false) by (cbn; now apply String.eqb_neq).
    rewrite Hsync in Hrun. eexists. split; [exact Hrun|reflexivity].
  - intros cbl ->. change (is_async (CbVal (VRef KFun cbl))) with true in Hrun.
    cbv iota in Hrun. unfold deliver in Hrun. cbn [invoke] in Hrun.
    match type of Hrun with context [call_value _ ?a ?st] =>
      destruct (deferred_call cbl a st) as (evs & Hcall & Hevs) end.
    rewrite Hcall in Hrun. cbn [snd] in Hrun.
    eexists _, evs. split; [exact Hrun|]. split; [|exact Hevs].
    cbn. now rewrite <- app_assoc.
Qed.

(** [ensureCollection] when the engine refuses. *)
Lemma ensureCollection_failure (args : list value) (s : state) :
  exists o h1,
    ((truthy (ensureCollection_copts args) = true
      /\ o = ensureCollection_copts args /\ h1 = st_heap s)
     \/ (truthy (ensureCollection_copts args) = false
         /\ exists l, st_heap s !! l = None /\ o = VRef KObj l
                      /\ h1 = <[l := empty_cell]> (st_heap s)))
    /\ let cb := ensureCollection_cb args in
       let call := [arg args 0; o] in
       forall f, snd (eng_ensureCollection (st_engine s) h1 call) = Some f ->
         (typeof cb <> "function" ->
          failure_thrown (ensureCollection args) s
            (EvImpl "ensureCollection" call (DVal cb)) f)
         /\ (forall cbl, cb = VRef KFun cbl ->
               failure_delivered (ensureCollection args) s
                 (EvImpl "ensureCollection" call (DVal cb)) cbl f []).
Proof.
  assert (Himpl : forall cname o cb (st : state) f,
            snd (eng_ensureCollection (st_engine st) (st_heap st) [cname; o]) = Some f ->
            impl_ensureCollection cname o (CbVal cb) st
            = (if is_async (CbVal cb)
               then (Ok VUndef,
                     snd (deliver (CbVal cb) [err_value f]
                            (after_call (st_heap st)
                               (fst (eng_ensureCollection (st_engine st) (st_heap st) [cname; o]))
                               [EvImpl "ensureCollection" [cname; o] (DVal cb)] st)))
               else (Throw (err_value f),
                     after_call (st_heap st)
                       (fst (eng_ensureCollection (st_engine st) (st_heap st) [cname; o]))
                       [EvImpl "ensureCollection" [cname; o] (DVal cb)] st))).
  { intros cname o cb st f Hfail. unfold impl_ensureCollection, bind, log, run_engine.
    cbn [st_heap st_engine st_cursors st_trace describe].
    destruct (eng_ensureCollection _ _ _) as [e' r]. cbn in Hfail. subst r. cbn [fst snd].
    destruct (is_async (CbVal cb)); [|reflexivity]. now rewrite deliver_ok. }
  unfold ensureCollection_copts, ensureCollection_cb.
  destruct ((length args =? 2)%nat && String.eqb (typeof (arg args 1)) "function") eqn:Hc.
  - destruct (alloc_spec KObj empty_cell s) as (l & Hfresh & Hrun).
    exists (VRef KObj l), (<[l := empty_cell]> (st_heap s)). split.
    { right. split; [reflexivity|]. exists l. now repeat split. }
    cbv zeta. intros f Hfail.
    apply (native_failure _ s _ _ (<[l := empty_cell]> (st_heap s))
             (fst (eng_ensureCollection (st_engine s) (<[l := empty_cell]> (st_heap s))
                     [arg args 0; VRef KObj l])) f).
    unfold ensureCollection, new_object. rewrite Hc.
    pose proof (bind_ok _ (fun o => ret (o, arg args 1)) _ _ _ Hrun) as Hpair.
    rewrite (bind_ok _ _ _ _ _ Hpair). cbv beta iota.
    unfold or_else. cbn [truthy]. rewrite bind_ret_left.
    rewrite (Himpl _ _ _ _ f); [reflexivity|exact Hfail].
  - destruct (truthy (arg args 1)) eqn:Ht.
    + exists (arg args 1), (st_heap s). split; [left; now repeat split|].
      cbv zeta. intros f Hfail.
      apply (native_failure _ s _ _ (st_heap s)
               (fst (eng_ensureCollection (st_engine s) (st_heap s) [arg args 0; arg args 1])) f).
      unfold ensureCollection, new_object. rewrite Hc.
      rewrite bind_ret_left. cbv beta iota. unfold or_else. rewrite Ht.
      rewrite bind_ret_left. rewrite (Himpl _ _ _ _ f Hfail). reflexivity.
    + destruct (alloc_spec KObj empty_cell s) as (l & Hfresh & Hrun).
      exists (VRef KObj l), (<[l := empty_cell]> (st_heap s)). split.
      { right. split; [reflexivity|]. exists l. now repeat split. }
      cbv zeta. intros f Hfail.
      apply (native_failure _ s _ _ (<[l := empty_cell]> (st_heap s))
               (fst (eng_ensureCollection (st_engine s) (<[l := empty_cell]> (st_heap s))
                       [arg args 0; VRef KObj l])) f).
      unfold ensureCollection, new_object. rewrite Hc.
      rewrite bind_ret_left. cbv beta iota. unfold or_else. rewrite Ht.
      rewrite (bind_ok _ _ _ _ _ Hrun).
      rewrite (Himpl _ _ _ _ f); [reflexivity|exact Hfail].
Qed.

(** [command] when the engine fails. *)
Lemma command_failure (args : list value) (s : state) (f : failure) :
  let call := [arg args 0] in
  snd (eng_command (st_engine s) (st_heap s) call) = inl f ->
  (truthy (arg args 1) = false ->
   failure_thrown (command args) s (EvImpl "command" call (DVal VUndef)) f)
  /\ (forall cbl, arg args 1 = VRef KFun cbl ->
        failure_delivered (command args) s (EvImpl "command" call DWrap) cbl f []).
Proof.
  intros call Hfail. unfold failure_thrown, failure_delivered, command. split.
  - intros Hcb. rewrite Hcb. unfold bind at 1. rewrite impl_command_sync. cbv zeta.
    fold call. rewrite Hfail. eexists. split; reflexivity.
  - intros cbl Hcb. rewrite Hcb. cbn [truthy]. unfold bind.
    rewrite impl_command_async. cbv zeta. fold call. rewrite Hfail.
    rewrite deliver_wrap. unfold command_callback. cbn [arg nth err_value truthy].
    rewrite call_function_run. unfold ret.
    destruct (user_fn cbl _) as [e|].
    + eexists _, [EvUncaught e]. split; [reflexivity|]. split; [|eauto].
      cbn. now rewrite <- !app_assoc.
    + eexists _, []. split; [reflexivity|]. split; [|now left].
      cbn. now rewrite <- !app_assoc.
Qed.

(** A native method that takes the caller's arguments as they are, the
    engine failing. *)
Lemma impl_method_failure (method : string) (nargs : list value) (cb : value)
    (s : state) (f : failure) :
  snd (eng_method method (st_engine s) (st_heap s) nargs) = inl f ->
  (typeof cb <> "function" ->
   failure_thrown (impl_method method nargs cb) s (EvImpl method nargs (DVal cb)) f)
  /\ (forall cbl, cb = VRef KFun cbl ->
        failure_delivered (impl_method method nargs cb) s
          (EvImpl method nargs (DVal cb)) cbl f []).
Proof.
  intros Hfail.
  apply (native_failure _ s _ cb (st_heap s)
           (fst (eng_method method (st_engine s) (st_heap s) nargs)) f).
  unfold impl_method, bind, log, run_engine.
  cbn [st_heap st_engine st_cursors st_trace].
  destruct (eng_method _ _ _ _) as [e' r]. cbn in Hfail. subst r. cbn [fst snd].
  destruct (is_async (CbVal cb)); [|reflexivity]. now rewrite deliver_ok.
Qed.

(** Each of the twenty-four functions is one call of its native method on
    its arguments and its callback. *)
Lemma run_plain_call (p : plain_op) (args : list value) :
  run_plain p args = impl_method (plain_method p) (plain_args p args) (plain_cb p args).
Proof. destruct p; reflexivity. Qed.

(** C6 (amended): how each fallible function of the binding hands on a
    failure of the engine, on the store and the arguments of the call it
    actually makes.
    - [find], [findOne], [update], [count]: a collection name that is not
      a string is thrown at once, callback or not, with no engine call.
      Otherwise a failure of the engine is thrown when [parseQueryArgs]
      found no callback and handed to the function it found, as first
      argument, the call returning [undefined]; on the documented call
      shapes it finds the callback that was passed.
    - [save], [EJDB.open], [command]: thrown without a callback, handed to
      the callback function otherwise.
    - [ensureCollection] and the twenty-four functions that pass their
      arguments to one native method: handed to a function in callback
      position, thrown otherwise.
    - [dropCollection], [removeCollection]: handed to a function in
      callback position; with a falsy callback the failure is lost.
    Thrown or handed over, the error carries the kind and message of the
    engine's failure. *)
Theorem query_failure_delivery :
  (forall (op : query_op) (args : list value) (s : state),
     typeof (arg args 0) <> "string" ->
     run_op op args s = (Throw cname_error, s))
  /\ (forall (op : query_op) (args : list value) (s : state)
             (qa : query_args) (s1 : state),
        parseQueryArgs args s = (Ok qa, s1) ->
        exists lq,
          let h1 := op_heap op (st_heap s1) qa in
          let h2 := <[lq := Cell ∅ (query_items h1 qa)]> h1 in
          let call := [qa_cname qa; VRef KArr lq; op_flags op h1 qa] in
          h1 !! lq = None
          /\ (qa_cb qa = VNull \/ exists cbl, qa_cb qa = VRef KFun cbl)
          /\ forall f, snd (eng_query (st_engine s) h2 call) = inl f ->
               (qa_cb qa = VNull ->
                failure_thrown (run_op op args) s (EvImpl "query" call (DVal VNull)) f)
               /\ (forall cbl, qa_cb qa = VRef KFun cbl ->
                     failure_delivered (run_op op args) s
                       (EvImpl "query" call (describe (op_cbarg op (qa_cb qa))))
                       cbl f (failure_rest op)))
  /\ (forall (sh : query_shape) (cb : option loc) (s : state),
        exists qa s1,
          parseQueryArgs (shape_args sh cb) s = (Ok qa, s1) /\ qa_cb qa = cb_value cb)
  /\ (forall (args : list value) (s : state) (jsarr : value) (sa : state)
             (o : value) (s1 : state) (f : failure),
        truthy (arg args 1) = true ->
        (if negb (isArray (arg args 1)) then new_array [arg args 1] else ret (arg args 1)) s
          = (Ok jsarr, sa) ->
        or_else (save_opts args) new_object sa = (Ok o, s1) ->
        let call := [arg args 0; jsarr; o] in
        snd (eng_save (st_engine s) (st_heap s1) call) = inl f ->
        (loose_null (save_cb args) = true ->
         failure_thrown (save args) s (EvImpl "save" call (DVal VUndef)) f)
        /\ (forall cbl, save_cb args = VRef KFun cbl ->
              failure_delivered (save args) s (EvImpl "save" call DWrap) cbl f []))
  /\ (forall (args : list value) (s : state),
        exists ldb limpl,
          st_heap s !! ldb = None
          /\ st_heap s !! limpl = None
          /\ let h2 := <[ldb := cell_define_readonly "_impl" (VRef KObj limpl) empty_cell]>
                         (<[limpl := empty_cell]> (<[ldb := empty_cell]> (st_heap s))) in
             let mode := if gt_num (to_number h2 (arg args 1)) 0 then arg args 1
                         else VNum (Int DEFAULT_OPEN_MODE) in
             let call := [arg args 0; mode] in
             forall f, snd (eng_open (st_engine s) h2 call) = Some f ->
               (truthy (arg args 2) = false ->
                failure_thrown (open args) s (EvImpl "open" call (DVal VUndef)) f)
               /\ (forall cbl, arg args 2 = VRef KFun cbl ->
                     failure_delivered (open args) s (EvImpl "open" call DWrap) cbl f
                       [VRef KObj ldb]))
  /\ (forall (args : list value) (s : state) (f : failure),
        let call := [arg args 0] in
        snd (eng_command (st_engine s) (st_heap s) call) = inl f ->
        (truthy (arg args 1) = false ->
         failure_thrown (command args) s (EvImpl "command" call (DVal VUndef)) f)
        /\ (forall cbl, arg args 1 = VRef KFun cbl ->
              failure_delivered (command args) s (EvImpl "command" call DWrap) cbl f []))
  /\ (forall (args : list value) (s : state),
        exists o h1,
          ((truthy (ensureCollection_copts args) = true
            /\ o = ensureCollection_copts args /\ h1 = st_heap s)
           \/ (truthy (ensureCollection_copts args) = false
               /\ exists l, st_heap s !! l = None /\ o = VRef KObj l
                            /\ h1 = <[l := empty_cell]> (st_heap s)))
          /\ let cb := ensureCollection_cb args in
             let call := [arg args 0; o] in
             forall f, snd (eng_ensureCollection (st_engine s) h1 call) = Some f ->
               (typeof cb <> "function" ->
                failure_thrown (ensureCollection args) s
                  (EvImpl "ensureCollection" call (DVal cb)) f)
               /\ (forall cbl, cb = VRef KFun cbl ->
                     failure_delivered (ensureCollection args) s
                       (EvImpl "ensureCollection" call (DVal cb)) cbl f []))
  /\ (forall (p : plain_op) (args : list value) (s : state) (f : failure),
        let cb := plain_cb p args in
        let call := EvImpl (plain_method p) (plain_args p args) (DVal cb) in
        snd (eng_method (plain_method p) (st_engine s) (st_heap s) (plain_args p args))
          = inl f ->
        (typeof cb <> "function" -> failure_thrown (run_plain p args) s call f)
        /\ (forall cbl, cb = VRef KFun cbl ->
              failure_delivered (run_plain p args) s call cbl f []))
  /\ (forall (run : list value -> M value) (args : list value) (s : state) (f : failure),
        run = dropCollection \/ run = removeCollection ->
        let cb := dropCollection_cb args in
        let call := [arg args 0; VBool (truthy (dropCollection_prune args))] in
        snd (eng_removeCollection (st_engine s) (st_heap s) call) = Some f ->
        (forall cbl, cb = VRef KFun cbl ->
           failure_delivered (run args) s
             (EvImpl "removeCollection" call (DVal cb)) cbl f [])
        /\ (truthy cb = false ->
            failure_dropped (run args) s (EvImpl "removeCollection" call DNoop))
        /\ (truthy cb = true -> typeof cb <> "function" ->
            failure_thrown (run args) s (EvImpl "removeCollection" call (DVal cb)) f)).
Proof.
  split.
  { intros op args s Hname.
    pose proof (parseQueryArgs_throws args s Hname) as Hparse.
    destruct op; cbn [run_op]; unfold find, findOne, update, count;
      now rewrite (bind_throw _ _ _ _ _ Hparse). }
  split; [exact query_failure|].
  split.
  { intros sh cb s.
    destruct (parseQueryArgs_shape_spec sh cb s) as (qa & s1 & Hparse & _ & _ & _ & _ & Hcb & _).
    now exists qa, s1. }
  split; [exact save_failure|].
  split; [exact open_failure|].
  split; [exact command_failure|].
  split; [exact ensureCollection_failure|].
  split.
  { intros p args s f cb call Hfail. subst cb call. rewrite run_plain_call.
    now apply impl_method_failure. }
  intros run args s f Hrun. now apply dropCollection_failure.
Qed.


End Delivery.


(** * The wrapper on the example engine *)

(** ** Sample evaluations *)

Example typeof_samples :
  typeof VNull = "object" /\ typeof (VRef KArr 3) = "object"
  /\ typeof (VRef KFun 10) = "function" /\ typeof (VStr "") = "string".
Proof. repeat split. Qed.

Example isValidOID_samples :
  isValidOID (VNum (Int 24)) = Some false
  /\ isValidOID (VStr "short") = Some false
  /\ isValidOID (VStr "000000000000000000000000") = Some false
  /\ isValidOID (VStr "507F1F77BCF86CD799439011") = Some false.
Proof. repeat split. Qed.

(** An assignment to a frozen object leaves the store as it is; an
    assignment to an ordinary object, or to an [Error] instance, is read
    back. *)
Example set_prop_samples :
  heap_set_prop Frozen.heap1 (VRef KObj 22) "$max" (VNum (Int 1)) = Some Frozen.heap1
  /\ heap_set_prop Frozen.heap1 (VRef KObj 20) "a" (VNum (Int 4)) = Some Frozen.heap1
  /\ (exists h, heap_set_prop Demo.heap0 (VRef KObj 4) "_id" (VStr "x") = Some h
                /\ heap_get_prop h (VRef KObj 4) "_id" = Some (VStr "x"))
  /\ (exists h, heap_set_prop Demo.heap0 (VErr "Error" "e") "_id" (VStr "x") = Some h
                /\ heap_get_prop h (VErr "Error" "e") "_id" = Some (VStr "x")
                /\ heap_get_prop h (VErr "Error" "e") "message" = Some (VStr "e")).
Proof.
  split; [reflexivity|]. split; [reflexivity|]. split.
  - eexists. split; [reflexivity|]. vm_compute. reflexivity.
  - eexists. split; [reflexivity|]. split; vm_compute; reflexivity.
Qed.

(** [oid[0] >= 0x30] on the string ["5"]: ToNumber gives 5, below 48. *)
Example oid_loop_cond_digit : oid_loop_cond "5" 0 = false.
Proof. reflexivity. Qed.

(** [parseQueryArgs("c", cb)]: three new objects and the callback. *)
Example parseQueryArgs_name_callback :
  fst (parseQueryArgs [VStr "c"; VRef KFun 10] Demo.s0)
  = Ok (QA (VStr "c") (VRef KObj 12) (VRef KArr 13) (VRef KObj 14) (VRef KFun 10)).
Proof. vm_compute. reflexivity. Qed.

(** [parseQueryArgs("c", q, [], hints, cb)]: every slot as supplied. *)
Example parseQueryArgs_full :
  parseQueryArgs [VStr "c"; VRef KObj 1; VRef KArr 3; VRef KObj 2; VRef KFun 10] Demo.s0
  = (Ok (QA (VStr "c") (VRef KObj 1) (VRef KArr 3) (VRef KObj 2) (VRef KFun 10)), Demo.s0).
Proof. reflexivity. Qed.

(** [dropCollection("c", true, cb)] forwards [true]; [dropCollection("c")]
    forwards [false] and the wrapper's empty function. *)
Example dropCollection_samples :
  st_trace (snd (dropCollection [VStr "c"; VBool true; VRef KFun 10] Demo.s0))
  = [EvImpl "removeCollection" [VStr "c"; VBool true] (DVal (VRef KFun 10));
     EvCall 10 [VNull]]
  /\ st_trace (snd (dropCollection [VStr "c"] Demo.s0))
     = [EvImpl "removeCollection" [VStr "c"; VBool false] DNoop].
Proof. vm_compute. split; reflexivity. Qed.

(** [save("c", [doc4, doc5], cb)]: the callback receives the array of
    identifiers, and [doc5] carries the second one. *)
Example save_callback_sample :
  st_trace (snd (save [VStr "c"; VRef KArr 6; VRef KFun 10] Demo.s0))
  = [EvImpl "save" [VStr "c"; VRef KArr 6; VRef KObj 12] DWrap;
     EvCall 10 [VNull; VRef KArr 13]]
  /\ id_of (st_heap (snd (save [VStr "c"; VRef KArr 6; VRef KFun 10] Demo.s0))) 5
     = VStr "507f1f77bcf86cd799439001".
Proof. vm_compute. split; reflexivity. Qed.

(** [findOne("users", {})] returns the first record as a new object and
    leaves the cursor closed. *)
Example findOne_sync_sample :
  fst (findOne [VStr "users"; VRef KObj 1] Demo.s0) = Ok (VRef KObj 16)
  /\ c_props (cell_at (st_heap (snd (findOne [VStr "users"; VRef KObj 1] Demo.s0))) 16)
     = {["name" := VStr "Anna"; "age" := VNum (Int 30)]}
  /\ cu_closed <$> (st_cursors (snd (findOne [VStr "users"; VRef KObj 1] Demo.s0)) !! 15%nat)
     = Some true.
Proof. vm_compute. repeat split. Qed.

(** C2: [isValidOID] answers [false] on a string of 24 lowercase
    hexadecimal digits, which the documentation calls a valid OID: the loop
    compares the one-character string [oid[i]] with the numbers [0x30] ..
    [0x66], and no one-character string converts to a number above 9. *)
Theorem isValidOID_rejects_valid_oid :
  spec_isValidOID (VStr "507f1f77bcf86cd799439011") = true
  /\ isValidOID (VStr "507f1f77bcf86cd799439011") = Some false.
Proof. split; reflexivity. Qed.

(** Saving [[doc4, doc5]] without a callback returns that array of
    documents; the identifiers are in another array. *)
Lemma save_sync_returns_documents_witness :
  exists lo s',
    save [VStr "c"; VRef KArr 6] Demo.s0 = (Ok (VRef KArr 6), s')
    /\ elems_of (st_heap s') (VRef KArr 6) = [VRef KObj 4; VRef KObj 5]
    /\ lo <> 6%nat
    /\ elems_of (st_heap s') (VRef KArr lo)
       = [VStr (Demo.demo_oid 0); VStr (Demo.demo_oid 1)].
Proof.
  eapply (save_sync_returns_documents (EN := Demo.demo_engine)
            [VStr "c"; VRef KArr 6] 6%nat Demo.s0).
  - reflexivity.
  - eexists. reflexivity.
  - reflexivity.
  - reflexivity.
  - reflexivity.
Defined.

(** C4, as stated, fails when one object sits at two positions of the
    array: saving [[doc4, doc4]] the engine answers two identifiers, and the
    object ends with the first, not with the identifier of position 1. *)
Lemma save_shared_document_counterexample :
  fst Demo.shared_run = Ok (VRef KArr 7)
  /\ elems_of (st_heap (snd Demo.shared_run)) (VRef KArr 7) = [VRef KObj 4; VRef KObj 4]
  /\ elems_of (st_heap (snd Demo.shared_run)) (VRef KArr 13) = Demo.shared_oids
  /\ id_of (st_heap (snd Demo.shared_run)) 4 = nth 0 Demo.shared_oids VUndef
  /\ id_of (st_heap (snd Demo.shared_run)) 4 <> nth 1 Demo.shared_oids VUndef.
Proof.
  vm_compute. repeat split; discriminate.
Qed.

(** Saving [[doc20, doc4]], where [doc20] is frozen, with a callback:
    [doc4] is stamped with the second identifier and [doc20] is as it
    was. *)
Lemma save_stamps_first_occurrence_witness :
  exists r s',
    save [VStr "c"; VRef KArr 21; VRef KFun 10] Frozen.s1 = (Ok r, s')
    /\ r = VUndef
    /\ id_of (st_heap s') 4 = VStr (Demo.demo_oid 1)
    /\ st_heap s' !! 20%nat = Some (MkCell {["a" := VNum (Int 3)]} [] false {["a"]}).
Proof.
  destruct (save_stamps_first_occurrence (EN := Demo.demo_engine)
              [VStr "c"; VRef KArr 21; VRef KFun 10] 21%nat Frozen.s1
              (VRef KObj 23) (with_heap (<[23%nat := empty_cell]> Frozen.heap1) Frozen.s1)
              2%nat [VStr (Demo.demo_oid 0); VStr (Demo.demo_oid 1)])
    as (r & s' & Hrun & Hr & _ & Hid).
  - reflexivity.
  - eexists. reflexivity.
  - vm_compute. reflexivity.
  - reflexivity.
  - exists r, s'. split; [exact Hrun|]. split; [exact Hr|]. split.
    + apply (Hid 1%nat KObj 4%nat); [reflexivity|].
      intros j kd Hj. assert (j = 0%nat) as -> by lia. discriminate.
    + apply (Hid 0%nat KObj 20%nat); [reflexivity|]. intros j kd Hj. lia.
Defined.

(** A synchronous [find] with hints [{$onlycount: true}] on a collection
    of two records returns the number 2. *)
Lemma find_sync_onlycount_witness :
  exists lq r s',
    find [VStr "users"; VRef KObj 1; VRef KArr 3; VRef KObj 2] Demo.s0 = (r, s')
    /\ r = Ok (VNum (Int 2))
    /\ st_trace s' =
         [EvImpl "query" [VStr "users"; VRef KArr lq; VNum (Int 1)] (DVal VNull)].
Proof.
  destruct (find_sync_onlycount (EN := Demo.demo_engine)
              [VStr "users"; VRef KObj 1; VRef KArr 3; VRef KObj 2] Demo.s0
              (QA (VStr "users") (VRef KObj 1) (VRef KArr 3) (VRef KObj 2) VNull) Demo.s0)
    as (oc & lq & r & s' & Hoc & Hfresh & Hrun & Htr & Hres).
  - discriminate.
  - reflexivity.
  - reflexivity.
  - vm_compute in Hoc. injection Hoc as <-. cbn in Hres, Htr.
    exists lq, r, s'. split; [exact Hrun|]. split; [exact Hres|exact Htr].
Defined.

(** C6, as stated, fails: [find] with a number as collection name and a
    callback throws to the caller; the state, hence the trace, is as before,
    so the callback was never invoked. *)
Lemma find_throws_despite_callback :
  find [VNum (Int 5); VRef KFun 10] Demo.s0 = (Throw cname_error, Demo.s0)
  /\ st_trace Demo.s0 = [].
Proof. split; reflexivity. Qed.

(** C9, as stated, fails in callback mode: the caller's function receives
    the first matched object before the cursor is closed. *)
Lemma findOne_callback_before_close :
  fst Demo.findOne_cb_run = Ok VUndef
  /\ st_trace (snd Demo.findOne_cb_run) =
       [EvImpl "query" [VStr "users"; VRef KArr 13; VNum (Int 0)] DWrap;
        EvCursor "next" 14; EvCursor "object" 14;
        EvCall 10 [VNull; VRef KObj 15]; EvCursor "close" 14].
Proof. vm_compute. split; reflexivity. Qed.

(** In callback mode with no matching record the cursor is never closed. *)
Lemma findOne_callback_no_match_leaves_cursor_open :
  st_trace (snd Demo.findOne_cb_empty_run) =
    [EvImpl "query" [VStr "none"; VRef KArr 13; VNum (Int 0)] DWrap;
     EvCursor "next" 14; EvCall 10 [VNull; VNull]]
  /\ st_cursors (snd Demo.findOne_cb_empty_run) !! 14%nat = Some (Cursor [] 0 false).
Proof. vm_compute. split; reflexivity. Qed.

(** [findOne("users", {}, null, hints)] with the hints object at 2, which
    receives [$max]; and [findOne("users", {}, hints)] with the frozen
    hints object at 22, which stays as it was. *)
Lemma findOne_hints_and_cursor_witness :
  (exists r s',
     findOne [VStr "users"; VRef KObj 1; VNull; VRef KObj 2] Demo.s0 = (r, s')
     /\ st_heap s' !! 2%nat
        = Some (Cell {["$max" := VNum (Int 1); "$onlycount" := VBool true]} []))
  /\ (exists r s',
        findOne [VStr "users"; VRef KObj 1; VRef KObj 22] Frozen.s1 = (r, s')
        /\ st_heap s' !! 22%nat = Some (MkCell ∅ [] false ∅)).
Proof.
  split.
  - destruct (findOne_hints_and_cursor (EN := Demo.demo_engine)
                [VStr "users"; VRef KObj 1; VNull; VRef KObj 2] Demo.s0
                (QA (VStr "users") (VRef KObj 1) (VRef KArr 12) (VRef KObj 2) VNull)
                (with_heap (<[12%nat := Cell ∅ []]> Demo.heap0) Demo.s0)
                KObj 2%nat (Cell {["$onlycount" := VBool true]} []))
      as (r & s' & lq & h1 & h2 & evs & Hrun & Hup & _).
    + vm_compute. reflexivity.
    + reflexivity.
    + reflexivity.
    + exists r, s'. split; [exact Hrun|exact (proj1 Hup)].
  - destruct (findOne_hints_and_cursor (EN := Demo.demo_engine)
                [VStr "users"; VRef KObj 1; VRef KObj 22] Frozen.s1
                (QA (VStr "users") (VRef KObj 1) (VRef KArr 23) (VRef KObj 22) VNull)
                (with_heap (<[23%nat := Cell ∅ []]> Frozen.heap1) Frozen.s1)
                KObj 22%nat (MkCell ∅ [] false ∅))
      as (r & s' & lq & h1 & h2 & evs & Hrun & Hup & _).
    + vm_compute. reflexivity.
    + reflexivity.
    + reflexivity.
    + exists r, s'. split; [exact Hrun|exact (proj1 Hup)].
Defined.

(** Saving [null], and saving the single document at 4: the engine
    receives a new array that holds the document. *)
Lemma save_null_and_single_document_witness :
  (exists l,
     st_heap Demo.s0 !! l = None
     /\ save [VStr "c"; VNull] Demo.s0
        = (Ok (VRef KArr l), with_heap (<[l := Cell ∅ []]> (st_heap Demo.s0)) Demo.s0))
  /\ save [VStr "c"; VRef KObj 4] Demo.s0
     = bind (new_array [VRef KObj 4]) (fun arr => save [VStr "c"; arr]) Demo.s0
  /\ (exists l o (s1 : @state Demo.demo_engine) r s' evs,
        st_heap Demo.s0 !! l = None
        /\ elems_of (st_heap s1) (VRef KArr l) = [VRef KObj 4]
        /\ save [VStr "c"; VRef KObj 4] Demo.s0 = (r, s')
        /\ st_trace s' = EvImpl "save" [VStr "c"; VRef KArr l; o] (DVal VUndef) :: evs
        /\ st_engine s' = fst (Demo.demo_save 0 (st_heap s1) [VStr "c"; VRef KArr l; o])).
Proof.
  destruct (save_null_and_single_document (EN := Demo.demo_engine))
    as (Hnull & Hsingle & Hcall).
  split; [|split].
  - apply (Hnull [VStr "c"; VNull] Demo.s0). reflexivity.
  - apply (Hsingle (VStr "c") (VRef KObj 4) [] Demo.s0); reflexivity.
  - destruct (Hcall (VStr "c") (VRef KObj 4) [] Demo.s0)
      as (l & o & s1 & r & s' & evs & Hfresh & _ & Helems & Hrun & Htr & _ & Hen).
    + reflexivity.
    + reflexivity.
    + exists l, o, s1, r, s', evs. split; [exact Hfresh|]. split; [exact Helems|].
      split; [exact Hrun|]. split; [exact Htr|exact Hen].
Defined.

(** ** Further sample runs *)

Import DemoLib.

(** Failures of the example engine: [count] on a bad collection name and
    on a collection that cannot be read, [save], [command], [load],
    [EJDB.open] and [ensureCollection] on arguments the engine refuses,
    without and with a callback, and [dropCollection] without one. *)
Lemma query_failure_delivery_witness :
  let io := Failure "IOError" "cannot read collection" in
  let ty := Failure "TypeError" "collection name must be a string" in
  run_op OpCount [VNull] Demo.s0 = (Throw cname_error, Demo.s0)
  /\ (exists lq,
        failure_thrown (count [VStr "broken"; VRef KObj 1]) Demo.s0
          (EvImpl "query" [VStr "broken"; VRef KArr lq; VNum (Int 1)] (DVal VNull)) io)
  /\ (exists lq,
        failure_delivered (count [VStr "broken"; VRef KObj 1; VRef KFun 10]) Demo.s0
          (EvImpl "query" [VStr "broken"; VRef KArr lq; VNum (Int 1)] DWrap) 10%nat io
          [VNull; VUndef])
  /\ failure_thrown (save [VNum (Int 7); VRef KObj 4]) Demo.s0
       (EvImpl "save" [VNum (Int 7); VRef KArr 12; VRef KObj 13] (DVal VUndef)) ty
  /\ failure_delivered (save [VNum (Int 7); VRef KObj 4; VRef KFun 10]) Demo.s0
       (EvImpl "save" [VNum (Int 7); VRef KArr 12; VRef KObj 13] DWrap) 10%nat ty []
  /\ (exists ldb mode,
        failure_thrown (open [VStr ""]) Demo.s0
          (EvImpl "open" [VStr ""; mode] (DVal VUndef))
          (Failure "IOError" "cannot open database")
        /\ failure_delivered (open [VStr ""; VUndef; VRef KFun 10]) Demo.s0
             (EvImpl "open" [VStr ""; mode] DWrap) 10%nat
             (Failure "IOError" "cannot open database") [VRef KObj ldb])
  /\ failure_delivered (command [VNum (Int 5); VRef KFun 10]) Demo.s0
       (EvImpl "command" [VNum (Int 5)] DWrap) 10%nat
       (Failure "TypeError" "command must be an object") []
  /\ (exists o,
        failure_delivered (ensureCollection [VNum (Int 5); VRef KFun 10]) Demo.s0
          (EvImpl "ensureCollection" [VNum (Int 5); o] (DVal (VRef KFun 10))) 10%nat ty [])
  /\ failure_thrown (load [VNum (Int 5); VStr "x"]) Demo.s0
       (EvImpl "load" [VNum (Int 5); VStr "x"] (DVal VUndef)) ty
  /\ failure_delivered (rebuildStringIndex [VNum (Int 5); VStr "name"; VRef KFun 10]) Demo.s0
       (EvImpl "setIndex" [VNum (Int 5); VStr "name"; VNum (Int 68)] (DVal (VRef KFun 10)))
       10%nat ty []
  /\ failure_dropped (dropCollection [VNum (Int 5)]) Demo.s0
       (EvImpl "removeCollection" [VNum (Int 5); VBool false] DNoop).
Proof.
  intros io ty.
  destruct (query_failure_delivery (EN := Demo.demo_engine) (LIB := demo_lib)
              (NAT := demo_native))
    as (Hname & Hquery & _ & Hsave & Hopen & Hcommand & Hensure & Hplain & Hdrop).
  split; [apply (Hname OpCount); discriminate|].
  split.
  { destruct (Hquery OpCount [VStr "broken"; VRef KObj 1] Demo.s0
                (QA (VStr "broken") (VRef KObj 1) (VRef KArr 12) (VRef KObj 13) VNull)
                (with_heap (<[13%nat := empty_cell]> (<[12%nat := Cell ∅ []]> Demo.heap0))
                   Demo.s0))
      as (lq & _ & _ & Hfail); [vm_compute; reflexivity|].
    exists lq. apply (Hfail io); reflexivity. }
  split.
  { destruct (Hquery OpCount [VStr "broken"; VRef KObj 1; VRef KFun 10] Demo.s0
                (QA (VStr "broken") (VRef KObj 1) (VRef KArr 12) (VRef KObj 13)
                   (VRef KFun 10))
                (with_heap (<[13%nat := empty_cell]> (<[12%nat := Cell ∅ []]> Demo.heap0))
                   Demo.s0))
      as (lq & _ & _ & Hfail); [vm_compute; reflexivity|].
    exists lq. apply (Hfail io); reflexivity. }
  split.
  { apply (Hsave [VNum (Int 7); VRef KObj 4] Demo.s0 (VRef KArr 12)
             (with_heap (<[12%nat := Cell ∅ [VRef KObj 4]]> Demo.heap0) Demo.s0)
             (VRef KObj 13)
             (with_heap (<[13%nat := empty_cell]>
                           (<[12%nat := Cell ∅ [VRef KObj 4]]> Demo.heap0)) Demo.s0) ty);
      try reflexivity; vm_compute; reflexivity. }
  split.
  { apply (Hsave [VNum (Int 7); VRef KObj 4; VRef KFun 10] Demo.s0 (VRef KArr 12)
             (with_heap (<[12%nat := Cell ∅ [VRef KObj 4]]> Demo.heap0) Demo.s0)
             (VRef KObj 13)
             (with_heap (<[13%nat := empty_cell]>
                           (<[12%nat := Cell ∅ [VRef KObj 4]]> Demo.heap0)) Demo.s0) ty
             eq_refl); try reflexivity; vm_compute; reflexivity. }
  split.
  { destruct (Hopen [VStr ""] Demo.s0) as (ldb & limpl & _ & _ & Hsync).
    destruct (Hopen [VStr ""; VUndef; VRef KFun 10] Demo.s0) as (ldb' & limpl' & _ & _ & Hasync).
    cbv zeta in Hsync, Hasync.
    exists ldb', (VNum (Int (@DEFAULT_OPEN_MODE _ demo_lib))). split.
    - apply (Hsync (Failure "IOError" "cannot open database")); reflexivity.
    - apply (proj2 (Hasync (Failure "IOError" "cannot open database") eq_refl) 10%nat).
      reflexivity. }
  split.
  { apply (proj2 (Hcommand [VNum (Int 5); VRef KFun 10] Demo.s0
                    (Failure "TypeError" "command must be an object") eq_refl) 10%nat).
    reflexivity. }
  split.
  { destruct (Hensure [VNum (Int 5); VRef KFun 10] Demo.s0) as (o & h1 & _ & Hfail).
    exists o. apply (proj2 (Hfail ty eq_refl) 10%nat). reflexivity. }
  split.
  { apply (proj1 (Hplain PLoad [VNum (Int 5); VStr "x"] Demo.s0 ty eq_refl)). discriminate. }
  split.
  { apply (proj2 (Hplain PRebuildStringIndex [VNum (Int 5); VStr "name"; VRef KFun 10]
                    Demo.s0 ty eq_refl) 10%nat). reflexivity. }
  apply (proj1 (proj2 (Hdrop dropCollection [VNum (Int 5)] Demo.s0 ty (or_introl eq_refl)
                         eq_refl))).
  reflexivity.
Defined.

(** [findOne("users", {})], a call without a hints object, leaves the
    objects of the example store as they were. *)
Lemma findOne_writes_only_max_witness :
  heap_extends (st_heap Demo.s0)
    (st_heap (snd (findOne (shape_args (ShQuery "users" 1) None) Demo.s0))).
Proof.
  apply (proj2 (findOne_writes_only_max (EN := Demo.demo_engine))). reflexivity.
Defined.

(** [find("users", {}, [], {$onlycount: true})] runs as [count] and as
    [update] on the same arguments. *)
Lemma find_onlycount_as_count_witness :
  find [VStr "users"; VRef KObj 1; VRef KArr 3; VRef KObj 2] Demo.s0
    = count [VStr "users"; VRef KObj 1; VRef KArr 3; VRef KObj 2] Demo.s0
  /\ find [VStr "users"; VRef KObj 1; VRef KArr 3; VRef KObj 2] Demo.s0
     = update [VStr "users"; VRef KObj 1; VRef KArr 3; VRef KObj 2] Demo.s0.
Proof.
  apply (find_onlycount_as_count (EN := Demo.demo_engine)
           [VStr "users"; VRef KObj 1; VRef KArr 3; VRef KObj 2] Demo.s0
           (QA (VStr "users") (VRef KObj 1) (VRef KArr 3) (VRef KObj 2) VNull) Demo.s0
           (VBool true)).
  - reflexivity.
  - reflexivity.
  - vm_compute. reflexivity.
  - reflexivity.
Defined.

(** [count("users", {})] on the example engine, whose count flag is 1,
    creates no cursor. *)
Lemma count_update_create_no_cursor_witness :
  st_cursors (snd (count [VStr "users"; VRef KObj 1] Demo.s0)) = st_cursors Demo.s0
  /\ st_cursors (snd (update [VStr "users"; VRef KObj 1] Demo.s0)) = st_cursors Demo.s0.
Proof.
  destruct (count_update_create_no_cursor (EN := Demo.demo_engine)
              [VStr "users"; VRef KObj 1] Demo.s0) as [[Hc _] [Hu _]].
  - discriminate.
  - split; [exact Hc|exact Hu].
Defined.

(** [count("users", {}, [], {...}, cb)]: the callback receives
    [(null, 2, undefined)]. *)
Lemma count_callback_delivery_witness :
  exists lq s' evs,
    count [VStr "users"; VRef KObj 1; VRef KArr 3; VRef KObj 2; VRef KFun 10] Demo.s0
      = (Ok VUndef, s')
    /\ st_trace s' =
         [EvImpl "query" [VStr "users"; VRef KArr lq; VNum (Int 1)] DWrap;
          EvCall 10 [VNull; VNum (Int 2); VUndef]] ++ evs.
Proof.
  destruct (count_callback_delivery (EN := Demo.demo_engine)
              [VStr "users"; VRef KObj 1; VRef KArr 3; VRef KObj 2; VRef KFun 10] Demo.s0
              (QA (VStr "users") (VRef KObj 1) (VRef KArr 3) (VRef KObj 2) (VRef KFun 10))
              Demo.s0 10%nat)
    as (lq & s' & evs & _ & Hc & _ & Htr & _).
  - discriminate.
  - reflexivity.
  - reflexivity.
  - exists lq, s', evs. split; [exact Hc|exact Htr].
Defined.

(** A [save] under a collection name the example engine refuses stamps
    nothing. *)
Lemma save_failure_keeps_objects_witness :
  exists r s' evs,
    save [VNum (Int 7); VRef KObj 4; VRef KFun 10] Demo.s0 = (r, s')
    /\ st_trace s' = EvImpl "save" [VNum (Int 7); VRef KArr 12; VRef KObj 13] DWrap :: evs
    /\ heap_extends (st_heap Demo.s0) (st_heap s').
Proof.
  destruct (save_failure_keeps_objects (EN := Demo.demo_engine)
              [VNum (Int 7); VRef KObj 4; VRef KFun 10] Demo.s0
              (VRef KArr 12)
              (with_heap (<[12%nat := Cell ∅ [VRef KObj 4]]> Demo.heap0) Demo.s0)
              (VRef KObj 13)
              (with_heap (<[13%nat := empty_cell]>
                            (<[12%nat := Cell ∅ [VRef KObj 4]]> Demo.heap0)) Demo.s0)
              (Failure "TypeError" "collection name must be a string"))
    as (r & s' & evs & Hrun & Htr & _ & _ & Hext).
  - reflexivity.
  - vm_compute. reflexivity.
  - vm_compute. reflexivity.
  - reflexivity.
  - exists r, s', evs. split; [exact Hrun|]. split; [exact Htr|exact Hext].
Defined.

(** [dropCollection(5)]: the example engine refuses the name, and the call
    returns [undefined] all the same. *)
Lemma dropCollection_failure_swallowed_witness :
  exists b,
    dropCollection [VNum (Int 5)] Demo.s0
    = (Ok VUndef,
       {| st_heap := st_heap Demo.s0; st_cursors := st_cursors Demo.s0;
          st_engine := fst (eng_removeCollection (st_engine Demo.s0) (st_heap Demo.s0)
                              [arg [VNum (Int 5)] 0; VBool b]);
          st_trace := st_trace Demo.s0
            ++ [EvImpl "removeCollection" [arg [VNum (Int 5)] 0; VBool b] DNoop] |}).
Proof.
  apply (dropCollection_failure_swallowed (EN := Demo.demo_engine) [VNum (Int 5)] Demo.s0).
  reflexivity.
Defined.

(** [EJDB.open("db", undefined, cb)] returns [undefined]; the callback
    receives [null] and the new database object. *)
Lemma open_result_witness :
  exists ldb mode r s' evs,
    open [VStr "db"; VUndef; VRef KFun 10] Demo.s0 = (r, s')
    /\ r = Ok VUndef
    /\ st_trace s' =
         EvImpl "open" [VStr "db"; mode] DWrap
         :: EvCall 10 [VNull; VRef KObj ldb] :: evs.
Proof.
  destruct (open_result (LIB := DemoLib.demo_lib)
              [VStr "db"; VUndef; VRef KFun 10] Demo.s0)
    as (ldb & limpl & mode & r & s' & Hrun & _ & _ & _ & _ & Hr & Hcb).
  destruct (Hcb 10%nat eq_refl) as (evs & Htr).
  exists ldb, mode, r, s', evs. split; [exact Hrun|]. split; [exact Hr|exact Htr].
Defined.

(** [ensureCollection("c", cb)] and [ensureCollection("c", null, cb)]. *)
Lemma ensureCollection_callback_in_second_position_witness :
  ensureCollection [VStr "c"; VRef KFun 10] Demo.s0
  = ensureCollection [VStr "c"; VNull; VRef KFun 10] Demo.s0.
Proof.
  apply (ensureCollection_callback_in_second_position (LIB := DemoLib.demo_lib)
           (VStr "c") VNull 10%nat Demo.s0).
  reflexivity.
Defined.

(** [command({}, cb)] returns [undefined]. *)
Lemma command_keeps_objects_witness :
  fst (command [VRef KObj 1; VRef KFun 10] Demo.s0) = Ok VUndef.
Proof.
  apply (proj2 (command_keeps_objects (LIB := DemoLib.demo_lib)
                  [VRef KObj 1; VRef KFun 10] Demo.s0)).
  reflexivity.
Defined.

(** [command({})] returns the response document and leaves its cursor
    closed. *)
Lemma command_sync_result_witness :
  exists lc s',
    st_heap Demo.s0 !! lc = None
    /\ command [VRef KObj 1] Demo.s0
       = (Ok (fst (materialize DemoLib.response (<[lc := empty_cell]> (st_heap Demo.s0)))), s')
    /\ st_trace s' =
         [EvImpl "command" [VRef KObj 1] (DVal VUndef);
          EvCursor "next" lc; EvCursor "object" lc; EvCursor "close" lc]
    /\ st_cursors s' !! lc = Some (Cursor [DemoLib.response] 1 true).
Proof.
  exact (command_sync_result (LIB := DemoLib.demo_lib) [VRef KObj 1] Demo.s0 eq_refl).
Defined.

(** [command(null, cb)]: the example engine answers with an empty cursor,
    the callback receives [(null, null)] and the cursor stays open. *)
Lemma command_callback_result_witness :
  exists s' evs,
    command [VNull; VRef KFun 10] Demo.s0 = (Ok VUndef, s')
    /\ (evs = [] \/ exists e, evs = [EvUncaught e])
    /\ exists lc,
         st_heap Demo.s0 !! lc = None
         /\ st_trace s' =
              [EvImpl "command" [VNull] DWrap; EvCursor "next" lc;
               EvCall 10 [VNull; VNull]] ++ evs
         /\ st_cursors s' !! lc = Some (Cursor [] 0 false).
Proof.
  exact (command_callback_result (LIB := DemoLib.demo_lib)
           [VNull; VRef KFun 10] 10%nat Demo.s0 eq_refl).
Defined.

(** The export on the example library: [JBOCREAT] is copied, [NodeEJDB]
    and [_JB] are not. *)
Lemma export_constants_lookup_witness :
  @export_constants _ DemoLib.demo_lib DemoLib.demo_ejdblib ∅ !! "DEFAULT_OPEN_MODE" = Some (VNum (Int 6))
  /\ @export_constants _ DemoLib.demo_lib DemoLib.demo_ejdblib ∅ !! "JBOCREAT" = Some (VNum (Int 4))
  /\ @export_constants _ DemoLib.demo_lib DemoLib.demo_ejdblib ∅ !! "NodeEJDB" = None
  /\ @export_constants _ DemoLib.demo_lib DemoLib.demo_ejdblib ∅ !! "_JB" = None.
Proof.
  destruct (export_constants_lookup (LIB := DemoLib.demo_lib) DemoLib.demo_ejdblib ∅)
    as (Hdef & Hset & Hkeep).
  - apply (bool_decide_unpack _). vm_compute. reflexivity.
  - split; [exact Hdef|]. split.
    + apply Hset; [|eexists; reflexivity].
      do 3 apply list_elem_of_further. apply list_elem_of_here.
    + split.
      * apply (Hkeep "NodeEJDB"); [discriminate|]. left. intros [rest Hrest]. discriminate.
      * apply (Hkeep "_JB"); [discriminate|]. left. intros [rest Hrest]. discriminate.
Defined.
